(** * pero-ocr page layout: a shallow embedding of
      [pero_ocr/document_ocr/layout.py] and the properties of its
      specification.

    Conventions of the embedding.
    - Python integers are [Z]; list positions ([enumerate]) are [nat].
    - A Python object attribute that may hold [None] is an [option].
    - A Python list mutated through [l[i] = v] is a [list] updated with
      stdpp's [<[i:=v]>]; every index the source writes is in range.
    - A Python float is the rational number it denotes, in [Q].
    - A statement that can raise returns a [res]: [Ok v] or [Raise e], with
      [e] the Python exception class.
    - Functions of other modules and libraries the source calls
      ([force_align], [EngineLineCropper], [ET.parse], [pickle.load]) are
      variables of the sections that use them. *)

From Stdlib Require Import ZArith QArith Qminmax Qround Qabs Lia.
From Stdlib Require Import Ascii String DecimalString DecimalFacts DecimalPos DecimalN.
From Stdlib Require Qcanon.
From stdpp Require Import base tactics option list strings gmap.

Local Open Scope Z_scope.

(** * The program *)

(** ** Exceptions and fallible results *)

(** The exceptions of the program: the built-in classes raised by failing
    operations, [Exception msg] for the [raise Exception(msg)] statements
    of the source, and [Unsupported] for an input outside the notations the
    embedding covers. *)
Inductive pyerr : Type :=
  | IndexError
  | KeyError
  | TypeError
  | AttributeError
  | ValueError
  | ZeroDivisionError
  | Exception (msg : string)
  | Unsupported (what : string).

Inductive res (A : Type) : Type :=
  | Ok (a : A)
  | Raise (e : pyerr).
Arguments Ok {A} a.
Arguments Raise {A} e.

#[global] Instance res_ret : MRet res := fun _ a => Ok a.
#[global] Instance res_bind : MBind res := fun _ _ k m =>
  match m with
  | Ok a => k a
  | Raise e => Raise e
  end.

Fixpoint res_mapM {A B} (f : A -> res B) (l : list A) : res (list B) :=
  match l with
  | [] => Ok []
  | a :: l' => b ← f a; bs ← res_mapM f l'; Ok (b :: bs)
  end.

(** ** Label narrowing: [narrow_label] *)

Module Narrow.

(** The value written over the repeated frames: [idx_of_last], or
    [idx_of_last - 1] when [on_one_liberal] is set. *)
Definition fill_value (idx_of_last : Z) (on_one_liberal : bool) : Z :=
  if on_one_liberal then idx_of_last - 1 else idx_of_last.

(** The block run when [repeating != []]:
<<
    high = repeating[0]
    for e, elem in enumerate(repeating): label[elem] = fill
    label[high] = last_char
>>
    [last_char] is [None] only before the first frame, when [repeating] is
    still empty. *)
Definition flush (label : list Z) (repeating : list nat)
    (last_char : option Z) (fill : Z) : list Z :=
  match repeating with
  | [] => label
  | high :: _ =>
      let label' := foldl (fun l elem => <[elem := fill]> l) label repeating in
      match last_char with
      | Some c => <[high := c]> label'
      | None => label'
      end
  end.

Record loop_state := LoopState {
  ls_label : list Z;
  ls_last_char : option Z;
  ls_repeating : list nat
}.

(** One iteration of [for i, item in enumerate(label)]; [item] is read from
    the list as it is when the iteration starts. *)
Definition step (idx_of_last fill : Z) (st : loop_state) (i : nat) : loop_state :=
  match ls_label st !! i with
  | None => st
  | Some item =>
      let last_char := ls_last_char st in
      let st1 :=
        if bool_decide (last_char = Some item)
           && negb (bool_decide (last_char = Some idx_of_last))
        then LoopState (ls_label st) last_char (ls_repeating st ++ [i])
        else LoopState (flush (ls_label st) (ls_repeating st) last_char fill)
                       last_char (ls_repeating st) in
      let repeating2 :=
        if bool_decide (last_char = Some item) then ls_repeating st1
        else if bool_decide (item = idx_of_last) then [] else [i] in
      LoopState (ls_label st1) (Some item) repeating2
  end.

Definition narrow_label (label : list Z) (idx_of_last : Z)
    (on_one_liberal : bool) : list Z :=
  let fill := fill_value idx_of_last on_one_liberal in
  let st := foldl (step idx_of_last fill) (LoopState label None [])
                  (seq 0 (length label)) in
  flush (ls_label st) (ls_repeating st) (ls_last_char st) fill.

(** The transform in the words of the specification: a frame is rewritten
    exactly when it is not the first frame of its maximal run of equal
    labels (its predecessor carries the same label) and the label is not
    the blank. *)
Fixpoint narrow_runs (idx_of_last fill : Z) (prev : option Z) (path : list Z)
    : list Z :=
  match path with
  | [] => []
  | x :: rest =>
      (if bool_decide (prev = Some x) && negb (bool_decide (x = idx_of_last))
       then fill else x)
      :: narrow_runs idx_of_last fill (Some x) rest
  end.

End Narrow.

(** ** Word and gap boundary walk (the inner loop of [to_altoxml_string]) *)

Module Walk.

(** The local variables of the loop over the words of a line. *)
Record walk_state := WalkState {
  local_letter_counter : Z;
  global_letter_counter : Z;
  string_width : Z;
  string_hpos : Z;
  end_of_space : Z;
  final : bool;
  last : bool
}.

(** [for a, ali in enumerate(aligned)] from frame [a] on; [blank] is
    [len(chars)].  The [break] ends the recursion.
<<
    if ali != len(chars):
        if local_letter_counter > global_letter_counter:
            if final:
                end_of_space = 4*a
                global_letter_counter = local_letter_counter
                last = False
                break
            if local_letter_counter - global_letter_counter == word_lenght:
                string_width = 4*a - string_hpos
                final = True
        elif local_letter_counter - global_letter_counter == 0:
            string_hpos = 4*a
        local_letter_counter += 1
>> *)
Fixpoint scan (blank word_lenght : Z) (a : nat) (aligned : list Z)
    (st : walk_state) : walk_state :=
  match aligned with
  | [] => st
  | ali :: rest =>
      if bool_decide (ali = blank) then scan blank word_lenght (S a) rest st
      else
        let '(WalkState loc glob width hpos eos fin lst) := st in
        if bool_decide (glob < loc) then
          if fin then
            WalkState loc loc width hpos (4 * Z.of_nat a) fin false
          else if bool_decide (loc - glob = word_lenght) then
            scan blank word_lenght (S a) rest
              (WalkState (loc + 1) glob (4 * Z.of_nat a - hpos) hpos eos true lst)
          else
            scan blank word_lenght (S a) rest
              (WalkState (loc + 1) glob width hpos eos fin lst)
        else if bool_decide (loc - glob = 0) then
          scan blank word_lenght (S a) rest
            (WalkState (loc + 1) glob width (4 * Z.of_nat a) eos fin lst)
        else
          scan blank word_lenght (S a) rest
            (WalkState (loc + 1) glob width hpos eos fin lst)
  end.

(** The walk of one word, entered with [global_letter_counter = global0]:
    the initialisation of the locals, the loop, and
<<
    if last:
        string_width = 4 * len(aligned) - string_hpos
>> *)
Definition word_walk (blank : Z) (aligned : list Z)
    (global0 word_lenght : Z) : walk_state :=
  let st := scan blank word_lenght 0 aligned
              (WalkState 0 global0 0 0 0 false true) in
  if last st then
    WalkState (local_letter_counter st) (global_letter_counter st)
              (4 * Z.of_nat (length aligned) - string_hpos st)
              (string_hpos st) (end_of_space st) (final st) (last st)
  else st.

(** The frames that carry a letter, in order, counted from frame [a]. *)
Fixpoint nonblank_frames (blank : Z) (a : nat) (aligned : list Z) : list nat :=
  match aligned with
  | [] => []
  | ali :: rest =>
      if bool_decide (ali = blank) then nonblank_frames blank (S a) rest
      else a :: nonblank_frames blank (S a) rest
  end.

End Walk.

(** ** Frame-to-pixel projection of a column range *)

Module Project.

(** A bound of a Python slice [x[start:stop]] on a sequence of length [n]:
    a negative index counts from the end, and both ends are clipped. *)
Definition slice_index (n i : Z) : Z :=
  if bool_decide (i < 0) then Z.max 0 (i + n) else Z.min i n.

Definition py_slice {A} (l : list A) (start stop : Z) : list A :=
  let n := Z.of_nat (length l) in
  let lo := slice_index n start in
  let hi := slice_index n stop in
  take (Z.to_nat (hi - lo)) (drop (Z.to_nat lo) l).

(** The crop coordinate grid [line_coords]: rows of columns of [(x, y)]
    pixel positions.  The floating-point positions are the rationals they
    denote; [max], [min] and the comparison are exact on them. *)
Definition grid := list (list (Q * Q)).

(** [line_coords[:, start:stop, 0]] and [line_coords[:, start:stop, 1]];
    the flattened selection is all that [np.max] and [np.min] look at. *)
Definition select_x (line_coords : grid) (start stop : Z) : list Q :=
  concat (map (fun row => fst <$> py_slice row start stop) line_coords).
Definition select_y (line_coords : grid) (start stop : Z) : list Q :=
  concat (map (fun row => snd <$> py_slice row start stop) line_coords).

(** [np.max] and [np.min] raise [ValueError] on an array without elements
    ("zero-size array to reduction operation ... which has no identity"). *)
Definition np_max (xs : list Q) : res Q :=
  match xs with
  | [] => Raise ValueError
  | x :: rest => Ok (foldl Qmax x rest)
  end.
Definition np_min (xs : list Q) : res Q :=
  match xs with
  | [] => Raise ValueError
  | x :: rest => Ok (foldl Qmin x rest)
  end.

(** [int(x)] on a float: truncation towards zero. *)
Definition int_of_float (q : Q) : Z := Z.quot (Qnum q) (Z.pos (Qden q)).

Record box := Box { HEIGHT : Z; WIDTH : Z; VPOS : Z; HPOS : Z }.

(** The attributes of a [String] element, in the order the source
    evaluates them, for the columns [start : start + ncols]. *)
Definition string_box (line_coords : grid) (start ncols : Z) : res box :=
  let all_x := select_x line_coords start (start + ncols) in
  let all_y := select_y line_coords start (start + ncols) in
  max_y ← np_max all_y; min_y ← np_min all_y;
  max_x ← np_max all_x; min_x ← np_min all_x;
  Ok (Box (int_of_float (Qminus max_y min_y))
          (int_of_float (Qminus max_x min_x))
          (int_of_float min_y) (int_of_float min_x)).

(** The attributes [WIDTH], [VPOS], [HPOS] of an [SP] element. *)
Definition space_box (line_coords : grid) (start ncols : Z)
    : res (Z * Z * Z) :=
  let all_x := select_x line_coords start (start + ncols) in
  let all_y := select_y line_coords start (start + ncols) in
  max_x ← np_max all_x; min_x ← np_min all_x; min_y ← np_min all_y;
  Ok (int_of_float (Qminus max_x min_x), int_of_float min_y,
      int_of_float min_x).

End Project.

(** ** Python strings and numbers

    A Python [str] is a [string]; each [ascii] stands for one character.
    The conversions below cover the notations the documents of this
    program use.  A text outside the covered notation is answered with
    [Unsupported]: Python may accept or reject it, the model does not
    say. *)

Module PyStr.
Local Open Scope string_scope.

(** [sub in s] *)
Fixpoint str_in (sub s : string) : bool :=
  String.prefix sub s
  || match s with
     | "" => false
     | String _ s' => str_in sub s'
     end.

(** The pieces of [s] between the characters that satisfy [p]. *)
Fixpoint split_by (p : ascii -> bool) (s : string) : list string :=
  match s with
  | "" => [""]
  | String c s' =>
      if p c then "" :: split_by p s'
      else match split_by p s' with
           | w :: ws => String c w :: ws
           | [] => [String c ""]
           end
  end.

(** [s.split(sep)] for a separator of one character *)
Definition split_on (sep : ascii) (s : string) : list string :=
  split_by (fun c => bool_decide (c = sep)) s.

(** The white space of [str.split()] among the first 256 characters. *)
Definition is_space (c : ascii) : bool :=
  let n := N_of_ascii c in
  ((9 <=? n) && (n <=? 13) || (28 <=? n) && (n <=? 32)
   || (n =? 133) || (n =? 160))%N.

(** [s.split()] *)
Definition split_ws (s : string) : list string :=
  filter (fun w => w <> "") (split_by is_space s).

Definition is_digit (c : ascii) : bool :=
  let n := N_of_ascii c in ((48 <=? n) && (n <=? 57))%N.

(** [re.findall("\d+", s)]: the maximal runs of digits *)
Definition findall_digits (s : string) : list string :=
  filter (fun w => w <> "") (split_by (fun c => negb (is_digit c)) s).

(** [s.partition(sep)[0]] *)
Fixpoint before_sep (sep : ascii) (s : string) : string :=
  match s with
  | "" => ""
  | String c s' => if bool_decide (c = sep) then "" else String c (before_sep sep s')
  end.

(** [sep.join(l)] *)
Fixpoint join (sep : string) (l : list string) : string :=
  match l with
  | [] => ""
  | [w] => w
  | w :: ws => w ++ sep ++ join sep ws
  end.

(** [s[n:]] *)
Fixpoint str_drop (n : nat) (s : string) : string :=
  match n, s with
  | S n', String _ s' => str_drop n' s'
  | _, _ => s
  end.

(** [str(n)] for a natural number, and the value of a digit string. *)
Definition str_N (n : N) : string := NilZero.string_of_uint (N.to_uint n).
Definition digits_N (s : string) : option N :=
  N.of_uint <$> NilZero.uint_of_string s.

(** [str(z)] *)
Definition str_Z (z : Z) : string :=
  if bool_decide (z < 0)%Z then String "-" (str_N (Z.abs_N z))
  else str_N (Z.to_N z).

(** A leading minus sign, and the text after it. *)
Definition split_sign (s : string) : bool * string :=
  match s with
  | String c s' => if bool_decide (c = "-"%char) then (true, s') else (false, s)
  | "" => (false, s)
  end.

(** [int(s)] on the notation [-?digits]. *)
Definition py_int (s : string) : res Z :=
  let '(negative, digits) := split_sign s in
  match digits_N digits with
  | Some n => Ok (if negative then - Z.of_N n else Z.of_N n)%Z
  | None => Raise (Unsupported "int")
  end.

(** The text before and after the first ['.'], if there is one. *)
Fixpoint split_point (s : string) : string * option string :=
  match s with
  | "" => ("", None)
  | String c s' =>
      if bool_decide (c = "."%char) then ("", Some s')
      else let '(i, f) := split_point s' in (String c i, f)
  end.

(** The value of [digits] or [digits.digits], as a reduced fraction. *)
Definition unsigned_decimal (s : string) : option Q :=
  let '(ip, fp) := split_point s in
  i ← digits_N ip;
  match fp with
  | None => Some (inject_Z (Z.of_N i))
  | Some fs =>
      f ← digits_N fs;
      let scale := (10 ^ Z.of_nat (String.length fs))%Z in
      Some (Qred (Qmake (Z.of_N i * scale + Z.of_N f) (Z.to_pos scale)))
  end.

(** [float(s)] on the notation [-?digits(.digits)?].  A float is the
    rational its decimal notation denotes; the rounding to binary64 is not
    modelled. *)
Definition py_float (s : string) : res Q :=
  let '(negative, digits) := split_sign s in
  match unsigned_decimal digits with
  | Some q => Ok (if negative then Qred (Qopp q) else q)
  | None => Raise (Unsupported "float")
  end.

(** [float(s)] for a run of digits found by [findall_digits]. *)
Definition float_of_digits (s : string) : Q :=
  inject_Z (Z.of_N
    (fold_left (fun acc c => (10 * acc + (N_of_ascii c - 48))%N)
               (list_ascii_of_string s) 0%N)).

(** [round(x)]: to the nearest integer, a tie to the even one. *)
Definition py_round (q : Q) : Z :=
  let f := Qfloor q in
  match Qcompare (Qminus q (inject_Z f)) (1 # 2) with
  | Lt => f
  | Gt => (f + 1)%Z
  | Eq => if Z.even f then f else (f + 1)%Z
  end.

(** [f"{x:.1f}"]: the sign, and the absolute value rounded to tenths *)
Definition fmt_1f (q : Q) : string :=
  let t := Z.to_N (py_round (Qmult (inject_Z 10) (Qabs q))) in
  (if bool_decide (Qnum q < 0)%Z then "-" else "")
  ++ str_N (t / 10) ++ "." ++ str_N (t mod 10).

(** [s] without its last character, when that is [c]. *)
Fixpoint strip_last (c : ascii) (s : string) : option string :=
  match s with
  | "" => None
  | String a "" => if bool_decide (a = c) then Some "" else None
  | String a s' => String a <$> strip_last c s'
  end.

(** [json.loads(s)] for an array of numbers written without white space,
    [[n1,n2,...]], each number as [-?digits(.digits)?]. *)
Definition json_loads (s : string) : res (list Q) :=
  match s with
  | String "[" rest =>
      match strip_last "]" rest with
      | Some "" => Ok []
      | Some inner => res_mapM py_float (split_on "," inner)
      | None => Raise (Unsupported "json")
      end
  | _ => Raise (Unsupported "json")
  end.

End PyStr.

(** ** Element trees ([lxml.etree])

    A parsed document is the tree of its elements: the tag (with the
    namespace in braces, as lxml writes it), the attributes in document
    order, the text and the child elements. *)

Module ET.
Local Open Scope string_scope.

#[warnings="-register-all"]
Inductive Element : Type :=
  | El (tag : string) (attrib : list (string * string))
       (text : option string) (children : list Element).

Definition tag (e : Element) : string := let '(El t _ _ _) := e in t.
Definition attrib (e : Element) : list (string * string) :=
  let '(El _ a _ _) := e in a.
Definition text (e : Element) : option string := let '(El _ _ x _) := e in x.
Definition children (e : Element) : list Element :=
  let '(El _ _ _ c) := e in c.

(** [e.get(key)], [None] when the attribute is missing *)
Fixpoint lookup_attr (key : string) (a : list (string * string))
    : option string :=
  match a with
  | [] => None
  | (k, v) :: a' => if bool_decide (k = key) then Some v else lookup_attr key a'
  end.
Definition get (e : Element) (key : string) : option string :=
  lookup_attr key (attrib e).

(** [e.attrib[key]], [KeyError] when the attribute is missing *)
Definition attr (e : Element) (key : string) : res string :=
  match get e key with
  | Some v => Ok v
  | None => Raise KeyError
  end.

(** [e.findall(t)]: the children with tag [t]; [e.find(t)]: the first *)
Definition findall (e : Element) (t : string) : list Element :=
  filter (fun c => tag c = t) (children e).
Definition find (e : Element) (t : string) : option Element :=
  head (findall e t).

(** [e.iter(t)]: the element and its descendants with tag [t], in
    document order *)
Fixpoint iter (t : string) (e : Element) : list Element :=
  let '(El tg _ _ ch) := e in
  (if bool_decide (tg = t) then [e] else []) ++ flat_map (iter t) ch.

End ET.

(** ** The entity model *)

Definition point : Type := Z * Z.

(** A value of the pickled logits dictionary: the matrix of one line (its
    rows, an entry that is not stored reads [0]) or, under the reserved
    key, the mapping from line ids to alphabets. *)
Inductive pickled : Type :=
  | Matrix (rows : list (list Q))
  | LineCharacters (alphabets : gmap string (option (list ascii))).

(** The field [crop] of a line is stored by the constructor and used by
    no function of the file; the record leaves it out. *)
Module TextLine.
Record t := Make {
  id : option string;
  baseline : option (list point);
  polygon : option (list point);
  heights : option (list Q);
  transcription : option string;
  logits : option pickled;
  characters : option (list ascii)
}.
(** [TextLine(id=...)], every other field [None] *)
Definition new (id : option string) : t :=
  Make id None None None None None None.
Definition set_transcription (v : option string) (l : t) : t :=
  Make (id l) (baseline l) (polygon l) (heights l) v (logits l) (characters l).
Definition set_logits (v : option pickled) (c : option (list ascii)) (l : t) : t :=
  Make (id l) (baseline l) (polygon l) (heights l) (transcription l) v c.
End TextLine.

Module RegionLayout.
Record t := Make {
  id : string;
  polygon : list point;
  lines : list TextLine.t;
  transcription : option string
}.
End RegionLayout.

Module PageLayout.
Record t := Make {
  id : option string;
  page_size : Z * Z;
  regions : list RegionLayout.t
}.
(** [PageLayout()] *)
Definition new : t := Make None (0, 0) [].
(** [lines_iterator]: the lines of the page, region by region *)
Definition lines_iterator (self : t) : list TextLine.t :=
  flat_map RegionLayout.lines (regions self).
End PageLayout.

(** A method of [PageLayout]: the object after the call, and the value
    returned or the exception raised. *)
Definition method (A : Type) : Type := PageLayout.t -> PageLayout.t * res A.

(** ** Dialect A (PAGE): [from_pagexml] and [to_pagexml_string] *)

Module PageXML.
Import ET PyStr.
Local Open Scope string_scope.

(** [element_schema]: for a tag without namespace the source evaluates
    ['{' + None + '}'], a [TypeError]. *)
Definition element_schema (elem : Element) : res string :=
  match tag elem with
  | "" => Raise IndexError
  | String "{" rest => Ok ("{" ++ before_sep "}" rest ++ "}")
  | _ => Raise TypeError
  end.

(** [points_string_to_array]: [x,y] pairs separated by one space, each
    number read as a float and rounded, [int(round(float(x)))]. *)
Definition points_string_to_array (coords : string) : res (list point) :=
  res_mapM
    (fun t =>
       match split_on "," t with
       | [x; y] =>
           fx ← py_float x; fy ← py_float y; Ok (py_round fx, py_round fy)
       | _ => Raise ValueError
       end)
    (split_on " " coords).

(** The coordinates of the entity model are integers.  A [Point] child
    whose [x] or [y] is not a whole number is outside the model. *)
Definition whole (q : Q) : res Z :=
  if bool_decide (Qden (Qred q) = 1%positive) then Ok (Qnum (Qred q))
  else Raise (Unsupported "fractional Point coordinate").

(** [get_coords_form_page_xml]; [coords_element] is [None] when the caller
    found no such child, and [None.attrib] raises [AttributeError]. *)
Definition get_coords_form_page_xml (coords_element : option Element)
    (schema : string) : res (list point) :=
  match coords_element with
  | None => Raise AttributeError
  | Some e =>
      match get e "points" with
      | Some points => points_string_to_array points
      | None =>
          res_mapM
            (fun point =>
               x ← attr point "x"; y ← attr point "y";
               fx ← py_float x; fy ← py_float y;
               zx ← whole fx; zy ← whole fy; Ok (zx, zy))
            (findall e (schema ++ "Point"))
      end
  end.

(** [transcription.find(schema + 'Unicode').text], with [None] read as
    the empty string *)
Definition unicode_text (transcription : Element) (schema : string)
    : res string :=
  match find transcription (schema ++ "Unicode") with
  | None => Raise AttributeError
  | Some u => Ok (default "" (text u))
  end.

(** [get_region_from_page_xml]; the lines are added by the caller. *)
Definition get_region_from_page_xml (region_element : Element)
    (schema : string) : res RegionLayout.t :=
  region_coords ←
    get_coords_form_page_xml (find region_element (schema ++ "Coords")) schema;
  id ← attr region_element "id";
  transcription ←
    match find region_element (schema ++ "TextEquiv") with
    | None => Ok None
    | Some t => u ← unicode_text t schema; Ok (Some u)
    end;
  Ok (RegionLayout.Make id region_coords [] transcription).

(** The three legacy encodings of the heights.  The source holds the
    numbers as floats ([float32] in the first two cases), which represent
    the whole numbers found by the regular expression exactly up to
    [2^24]. *)
Definition legacy_heights (heights_array : list Q) : list Q :=
  match heights_array with
  | [a; _; c; _] => [a; c]
  | [a; b; c] => [b; Qminus c a]
  | _ => heights_array
  end.

(** The heights read from the [custom] attribute of a line; [None] when
    the attribute says nothing about heights. *)
Definition heights_from_custom (custom_str : string) : res (option (list Q)) :=
  if str_in "heights_v2" custom_str then
    foldl
      (fun acc word =>
         heights ← acc;
         if str_in "heights_v2" word then
           match split_on ":" word with
           | _ :: value :: _ => h ← json_loads value; Ok (Some h)
           | _ => Raise IndexError
           end
         else Ok heights)
      (Ok None) (split_ws custom_str)
  else if str_in "heights" custom_str then
    Ok (Some (legacy_heights (float_of_digits <$> findall_digits custom_str)))
  else Ok None.

(** The body of [for line in region.iter(schema + 'TextLine')] *)
Definition line_from_page_xml (line : Element) (schema : string)
    : res TextLine.t :=
  id ← attr line "id";
  heights ←
    match get line "custom" with
    | Some custom_str => heights_from_custom custom_str
    | None => Ok None
    end;
  baseline ←
    match find line (schema ++ "Baseline") with
    | None => Ok None
    | Some b => c ← get_coords_form_page_xml (Some b) schema; Ok (Some c)
    end;
  polygon ←
    match find line (schema ++ "Coords") with
    | None => Ok None
    | Some c => p ← get_coords_form_page_xml (Some c) schema; Ok (Some p)
    end;
  transcription ←
    match find line (schema ++ "TextEquiv") with
    | None => Ok None
    | Some t => u ← unicode_text t schema; Ok (Some u)
    end;
  Ok (TextLine.Make (Some id) baseline polygon heights transcription None None).

(** The body of [for region in page_tree.iter(schema + 'TextRegion')],
    up to [self.regions.append(region_layout)] *)
Definition region_from_page_xml (region : Element) (schema : string)
    : res RegionLayout.t :=
  region_layout ← get_region_from_page_xml region schema;
  lines ← res_mapM (fun line => line_from_page_xml line schema)
                   (iter (schema ++ "TextLine") region);
  Ok (RegionLayout.Make (RegionLayout.id region_layout)
        (RegionLayout.polygon region_layout)
        (RegionLayout.lines region_layout ++ lines)
        (RegionLayout.transcription region_layout)).

(** A loop that appends one region per element to [self.regions] and
    stops at the first exception, keeping what was appended before. *)
Fixpoint append_regions (read : Element -> res RegionLayout.t)
    (elements : list Element) : method unit :=
  fun self =>
    match elements with
    | [] => (self, Ok ())
    | e :: rest =>
        match read e with
        | Raise err => (self, Raise err)
        | Ok region_layout =>
            append_regions read rest
              (PageLayout.Make (PageLayout.id self) (PageLayout.page_size self)
                 (PageLayout.regions self ++ [region_layout]))
        end
    end.

(** [from_pagexml] on the tree [ET.parse(file)] returned. *)
Definition from_pagexml_tree (root : Element) : method unit :=
  fun self =>
    match element_schema root with
    | Raise err => (self, Raise err)
    | Ok schema =>
        match findall root (schema ++ "Page") with
        | [] => (self, Raise IndexError)
        | page :: _ =>
            match attr page "imageFilename" with
            | Raise err => (self, Raise err)
            | Ok id =>
                let self1 := PageLayout.Make (Some id)
                               (PageLayout.page_size self)
                               (PageLayout.regions self) in
                match (h ← attr page "imageHeight"; h' ← py_int h;
                       w ← attr page "imageWidth"; w' ← py_int w;
                       Ok (h', w')) with
                | Raise err => (self1, Raise err)
                | Ok page_size =>
                    append_regions
                      (fun region => region_from_page_xml region schema)
                      (iter (schema ++ "TextRegion") root)
                      (PageLayout.Make (Some id) page_size
                         (PageLayout.regions self))
                end
            end
        end
    end.

(** *** Writing *)

(** ["{},{}".format(int(coord[0]), int(coord[1]))] and the points joined
    by spaces *)
Definition pair_text (coord : point) : string :=
  str_Z (fst coord) ++ "," ++ str_Z (snd coord).
Definition points_string (points : list point) : string :=
  join " " (pair_text <$> points).

(** The [TextEquiv] child written for a transcription that is not [None] *)
Definition text_equiv (transcription : option string) : list Element :=
  match transcription with
  | None => []
  | Some t => [El "TextEquiv" [] None [El "Unicode" [] (Some t) []]]
  end.

(** [f"heights_v2:[{line.heights[0]:.1f},{line.heights[1]:.1f}]"] *)
Definition heights_custom (heights : list Q) : res string :=
  match heights with
  | h0 :: h1 :: _ =>
      Ok ("heights_v2:[" ++ fmt_1f h0 ++ "," ++ fmt_1f h1 ++ "]")
  | _ => Raise IndexError
  end.

(** The [TextLine] element of a line; [set] with a value that is [None]
    raises [TypeError]. *)
Definition line_to_page_xml (line : TextLine.t) : res Element :=
  id ← match TextLine.id line with
       | Some id => Ok id
       | None => Raise TypeError
       end;
  custom ← match TextLine.heights line with
           | None => Ok []
           | Some heights => c ← heights_custom heights; Ok [("custom", c)]
           end;
  let coords :=
    El "Coords"
       match TextLine.polygon line with
       | None => []
       | Some polygon => [("points", points_string polygon)]
       end None [] in
  let baseline :=
    match TextLine.baseline line with
    | None => []
    | Some b => [El "Baseline" [("points", points_string b)] None []]
    end in
  Ok (El "TextLine" (("id", id) :: custom) None
         (coords :: baseline ++ text_equiv (TextLine.transcription line))).

(** [RegionLayout.to_page_xml] followed by the loop over the lines *)
Definition region_to_page_xml (region_layout : RegionLayout.t) : res Element :=
  text_lines ← res_mapM line_to_page_xml (RegionLayout.lines region_layout);
  Ok (El "TextRegion" [("id", RegionLayout.id region_layout)] None
         (El "Coords"
             [("points", points_string (RegionLayout.polygon region_layout))]
             None []
          :: text_equiv (RegionLayout.transcription region_layout)
          ++ text_lines)).

Definition page_namespace : string :=
  "http://schema.primaresearch.org/PAGE/gts/pagecontent/2013-07-15".

(** [to_pagexml_string], up to the tree [root] that [ET.tostring]
    serialises.  The method assigns to no field of the page. *)
Definition to_pagexml_string : method Element :=
  fun self =>
    (self,
     id ← match PageLayout.id self with
          | Some id => Ok id
          | None => Raise TypeError
          end;
     text_regions ← res_mapM region_to_page_xml (PageLayout.regions self);
     Ok (El "PcGts" [("xmlns", page_namespace)] None
            [El "Page"
                [("imageFilename", id);
                 ("imageWidth", str_Z (snd (PageLayout.page_size self)));
                 ("imageHeight", str_Z (fst (PageLayout.page_size self)))]
                None text_regions])).

End PageXML.

(** ** Dialect B (ALTO): [from_altoxml] *)

Module AltoRead.
Import ET PyStr.
Local Open Scope string_scope.

(** [int(e.get(key))]: [get] gives [None] for a missing attribute and
    [int(None)] raises [TypeError]. *)
Definition int_get (e : Element) (key : string) : res Z :=
  match get e key with
  | None => Raise TypeError
  | Some v => py_int v
  end.

(** [int(e.attrib[key])] *)
Definition int_attr (e : Element) (key : string) : res Z :=
  v ← attr e key; py_int v.

(** The four corners of the box [(HPOS, VPOS, WIDTH, HEIGHT)] *)
Definition rectangle (hpos vpos width height : Z) : list point :=
  [(hpos, vpos); (hpos + width, vpos);
   (hpos + width, vpos + height); (hpos, vpos + height)]%Z.

(** The transcription of a line: the [CONTENT] of its [String] elements
    joined by spaces; a missing [CONTENT] makes [word + None] raise. *)
Fixpoint join_content (start : bool) (word : string) (strings : list Element)
    : res string :=
  match strings with
  | [] => Ok word
  | text :: rest =>
      match get text "CONTENT" with
      | None => Raise TypeError
      | Some c =>
          join_content false (if start then word ++ c else word ++ " " ++ c) rest
      end
  end.

(** The body of [for line in region.iter(schema + 'TextLine')] *)
Definition line_from_alto (line : Element) (schema : string) : res TextLine.t :=
  hpos ← int_attr line "HPOS";
  baseline ← int_attr line "BASELINE";
  width ← int_attr line "WIDTH";
  height ← int_attr line "HEIGHT";
  vpos ← int_attr line "VPOS";
  transcription ← join_content true "" (iter (schema ++ "String") line);
  Ok (TextLine.Make None
        (Some [(hpos, baseline); (hpos + width, baseline)%Z])
        (Some (rectangle hpos vpos width height))
        (Some [inject_Z (height + vpos - baseline);
               inject_Z (baseline - vpos)])
        (Some transcription) None None).

(** The body of [for region in print_space.iter(schema + 'TextBlock')] *)
Definition region_from_alto (region : Element) (schema : string)
    : res RegionLayout.t :=
  hpos ← int_get region "HPOS";
  vpos ← int_get region "VPOS";
  width ← int_get region "WIDTH";
  height ← int_get region "HEIGHT";
  id ← attr region "ID";
  lines ← res_mapM (fun line => line_from_alto line schema)
                   (iter (schema ++ "TextLine") region);
  Ok (RegionLayout.Make id (rectangle hpos vpos width height) lines None).

(** [from_altoxml] on the tree [ET.parse(file)] returned. *)
Definition from_altoxml_tree (root : Element) : method unit :=
  fun self =>
    match PageXML.element_schema root with
    | Raise err => (self, Raise err)
    | Ok schema =>
        match findall root (schema ++ "Layout") with
        | [] => (self, Raise IndexError)
        | layout :: _ =>
            match findall layout (schema ++ "Page") with
            | [] => (self, Raise IndexError)
            | page :: _ =>
                match attr page "ID" with
                | Raise err => (self, Raise err)
                | Ok id =>
                    let self1 := PageLayout.Make (Some (str_drop 3 id))
                                   (PageLayout.page_size self)
                                   (PageLayout.regions self) in
                    match (h ← int_attr page "HEIGHT";
                           w ← int_attr page "WIDTH"; Ok (h, w)) with
                    | Raise err => (self1, Raise err)
                    | Ok page_size =>
                        let self2 := PageLayout.Make (Some (str_drop 3 id))
                                       page_size (PageLayout.regions self) in
                        match findall page (schema ++ "PrintSpace") with
                        | [] => (self2, Raise IndexError)
                        | print_space :: _ =>
                            PageXML.append_regions
                              (fun region => region_from_alto region schema)
                              (iter (schema ++ "TextBlock") print_space)
                              self2
                        end
                    end
                end
            end
        end
    end.

End AltoRead.

(** ** Reading from files and strings *)

Module Readers.

Section Parse.
(** [ET.parse]: the element tree of a file or byte stream, or the
    exception the parser raises.  [BytesIO(s)] is the stream of the bytes
    [s]. *)
Context (ET_parse : string -> res ET.Element).

Definition BytesIO (s : string) : string := s.

Definition from_pagexml (file : string) : method unit :=
  fun self =>
    match ET_parse file with
    | Raise err => (self, Raise err)
    | Ok root => PageXML.from_pagexml_tree root self
    end.

Definition from_pagexml_string (pagexml_string : string) : method unit :=
  from_pagexml (BytesIO pagexml_string).

Definition from_altoxml (file : string) : method unit :=
  fun self =>
    match ET_parse file with
    | Raise err => (self, Raise err)
    | Ok root => AltoRead.from_altoxml_tree root self
    end.

(** [from_altoxml_string] calls [self.from_pagexml]. *)
Definition from_altoxml_string (pagexml_string : string) : method unit :=
  from_pagexml (BytesIO pagexml_string).

End Parse.

End Readers.

(** ** The logits snapshot: [load_logits] *)

Module Logits.
Local Open Scope string_scope.

(** [f'Missing line id {line.id} in logits {file_name}.'] *)
Definition missing_line_message (id : option string) (file_name : string)
    : string :=
  "Missing line id " ++ default "None" id ++ " in logits " ++ file_name ++ ".".

(** The exception of a line without entry in the snapshot. *)
Definition MissingLineData (id : option string) (file_name : string) : pyerr :=
  Exception (missing_line_message id file_name).

(** [line.id in logits_dict] and [logits_dict[line.id]] *)
Definition entry (logits_dict : gmap string pickled) (id : option string)
    : option pickled :=
  k ← id; logits_dict !! k.

(** The value bound to [characters]:
<<
    if 'line_characters' in logits_dict:
        characters = logits_dict['line_characters']
    else:
        characters = dict([(k, None) for k in logits_dict])
>> *)
Definition characters_of (logits_dict : gmap string pickled) : pickled :=
  match logits_dict !! "line_characters" with
  | Some v => v
  | None => LineCharacters ((fun _ => None) <$> logits_dict)
  end.

(** [characters[line.id]]; subscripting a matrix with a line id is
    outside the model. *)
Definition characters_at (characters : pickled) (id : string)
    : res (option (list ascii)) :=
  match characters with
  | LineCharacters c =>
      match c !! id with
      | Some a => Ok a
      | None => Raise KeyError
      end
  | Matrix _ => Raise (Unsupported "matrix subscript")
  end.

(** The body of the loop over the lines: the line after it, and the
    exception if one is raised. *)
Definition load_line (logits_dict : gmap string pickled) (characters : pickled)
    (file_name : string) (line : TextLine.t) : TextLine.t * res unit :=
  match TextLine.id line, entry logits_dict (TextLine.id line) with
  | Some id, Some v =>
      match characters_at characters id with
      | Raise err =>
          (TextLine.set_logits (Some v) (TextLine.characters line) line,
           Raise err)
      | Ok c => (TextLine.set_logits (Some v) c line, Ok ())
      end
  | _, _ => (line, Raise (MissingLineData (TextLine.id line) file_name))
  end.

(** A loop that updates the elements of a list in place and stops at the
    first exception: the elements after it are left as they were. *)
Fixpoint update_each {A} (f : A -> A * res unit) (l : list A)
    : list A * res unit :=
  match l with
  | [] => ([], Ok ())
  | a :: rest =>
      match f a with
      | (a', Raise err) => (a' :: rest, Raise err)
      | (a', Ok _) =>
          let '(rest', r) := update_each f rest in (a' :: rest', r)
      end
  end.

Definition load_region (logits_dict : gmap string pickled) (characters : pickled)
    (file_name : string) (region : RegionLayout.t) : RegionLayout.t * res unit :=
  let '(lines, r) :=
    update_each (load_line logits_dict characters file_name)
                (RegionLayout.lines region) in
  (RegionLayout.Make (RegionLayout.id region) (RegionLayout.polygon region)
     lines (RegionLayout.transcription region), r).

Section Pickle.
(** [pickle.load] of the file [file_name]: the dictionary, or the exception
    raised by opening or unpickling the file. *)
Context (pickle_load : string -> res (gmap string pickled)).

Definition load_logits (file_name : string) : method unit :=
  fun self =>
    match pickle_load file_name with
    | Raise err => (self, Raise err)
    | Ok logits_dict =>
        let characters := characters_of logits_dict in
        let '(regions, r) :=
          update_each (load_region logits_dict characters file_name)
                      (PageLayout.regions self) in
        (PageLayout.Make (PageLayout.id self) (PageLayout.page_size self)
           regions, r)
    end.

End Pickle.

End Logits.

(** ** Dialect B (ALTO): [to_altoxml_string] *)

Module AltoWrite.
Import ET PyStr.
Local Open Scope string_scope.

(** [max(a[:, k])] and [min(a[:, k])] of an array of points; an array
    without points has one dimension only and [a[:, k]] raises
    [IndexError], and so does the subscript of [np.array(None)]. *)
Definition column_extent (k : point -> Z) (a : option (list point))
    : res (Z * Z) :=
  match a with
  | None | Some [] => Raise IndexError
  | Some (p :: ps) =>
      Ok (foldl Z.min (k p) (k <$> ps), foldl Z.max (k p) (k <$> ps))
  end.

(** [int(np.average(np.array(line.baseline)[:, 1]))] *)
Definition average_y (baseline : option (list point)) : res Z :=
  match baseline with
  | None | Some [] => Raise IndexError
  | Some b =>
      Ok (Z.quot (foldr Z.add 0%Z (snd <$> b)) (Z.of_nat (length b)))
  end.

(** [char_to_num = dict(zip(line.characters, chars))] and
    [char_to_num[item]]: a character listed twice keeps its last
    position. *)
Fixpoint char_to_num (characters : list ascii) (n : Z) (item : ascii)
    : option Z :=
  match characters with
  | [] => None
  | c :: rest =>
      match char_to_num rest (n + 1)%Z item with
      | Some k => Some k
      | None => if bool_decide (c = item) then Some n else None
      end
  end.

Definition label_of (characters : list ascii) (transcription : string)
    : res (list Z) :=
  res_mapM
    (fun item =>
       match char_to_num characters 0 item with
       | Some k => Ok k
       | None => Raise KeyError
       end)
    (list_ascii_of_string transcription).

(** [TextLine.get_dense_logits]: [self.logits.toarray()] with every [0]
    replaced by [zero_logit_value]; [None] and a dictionary have no
    [toarray]. *)
Definition get_dense_logits (line : TextLine.t) (zero_logit_value : Q)
    : res (list (list Q)) :=
  match TextLine.logits line with
  | Some (Matrix rows) =>
      Ok (map (map (fun x => if Qeq_bool x 0 then zero_logit_value else x)) rows)
  | Some (LineCharacters _) | None => Raise AttributeError
  end.

Section Collaborators.
(** The collaborators of the writer.
    - [today]: [datetime.today().strftime('%Y-%m-%d')].
    - [force_align logits label blank]:
      [force_align(-np.log(softmax(logits, axis=1)), label, blank)].
    - [get_crop_inputs baseline heights 16]: the crop coordinate grid of
      [EngineLineCropper(poly=2)].
    - [to_column width frames c]: [int(c * lm_const)] with
      [lm_const = width / (frames * 4)], computed in floating point. *)
Context (today : string)
        (force_align : list (list Q) -> list Z -> Z -> res (list Z))
        (get_crop_inputs : option (list point) -> option (list Q) -> Z
                           -> res Project.grid)
        (to_column : nat -> nat -> Z -> Z).

(** [np.shape(line_coords)[1]] *)
Definition grid_width (line_coords : Project.grid) : nat :=
  match line_coords with
  | [] => 0
  | row :: _ => length row
  end.

(** The elements written for the words from position [w] on, of
    [nwords] words in all. *)
Fixpoint words_to_alto (aligned : list Z) (blank : Z)
    (line_coords : Project.grid) (nwords w : nat)
    (global_letter_counter : Z) (words : list string) : res (list Element) :=
  match words with
  | [] => Ok []
  | word :: rest =>
      let st := Walk.word_walk blank aligned global_letter_counter
                  (Z.of_nat (String.length word)) in
      if bool_decide (length aligned = 0%nat) then Raise ZeroDivisionError
      else
        let col := to_column (grid_width line_coords) (length aligned) in
        let string_hpos := (Walk.string_hpos st - 1)%Z in
        let string_width := Walk.string_width st in
        b ← Project.string_box line_coords (col string_hpos) (col string_width);
        let string_ :=
          El "String"
             [("CONTENT", word);
              ("HEIGHT", str_Z (Project.HEIGHT b));
              ("WIDTH", str_Z (Project.WIDTH b));
              ("VPOS", str_Z (Project.VPOS b));
              ("HPOS", str_Z (Project.HPOS b))] None [] in
        space ←
          (if bool_decide (w = (nwords - 1)%nat) then Ok []
           else
             '(sw, sv, sh) ←
               Project.space_box line_coords
                 (col (string_hpos + string_width)%Z)
                 (col (Walk.end_of_space st - (string_hpos + string_width))%Z);
             Ok [El "SP" [("WIDTH", str_Z sw); ("VPOS", str_Z sv);
                          ("HPOS", str_Z sh)] None []]);
        more ← words_to_alto aligned blank line_coords nwords (S w)
                 (Walk.global_letter_counter st) rest;
        Ok (string_ :: space ++ more)
  end.

(** The body of [for l, line in enumerate(block.lines)]: no element for a
    line whose transcription is [None] or empty, one [TextLine] element
    otherwise. *)
Definition line_to_alto (line : TextLine.t) : res (list Element) :=
  match TextLine.transcription line with
  | None | Some "" => Ok []
  | Some transcription =>
      text_line_baseline ← average_y (TextLine.baseline line);
      '(vpos, vmax) ← column_extent snd (TextLine.polygon line);
      '(hpos, hmax) ← column_extent fst (TextLine.polygon line);
      characters ← match TextLine.characters line with
                   | None => Raise TypeError
                   | Some c => Ok c
                   end;
      let blank := Z.of_nat (length characters) in
      label ← label_of characters transcription;
      logits ← get_dense_logits line (-80 # 1);
      aligned0 ← force_align logits label blank;
      let aligned := Narrow.narrow_label aligned0 blank false in
      line_coords ←
        get_crop_inputs (TextLine.baseline line) (TextLine.heights line) 16;
      let words := split_ws transcription in
      strings ← words_to_alto aligned blank line_coords (length words) 0 0 words;
      Ok [El "TextLine"
             [("BASELINE", str_Z text_line_baseline);
              ("VPOS", str_Z vpos); ("HPOS", str_Z hpos);
              ("HEIGHT", str_Z (vmax - vpos)); ("WIDTH", str_Z (hmax - hpos))]
             None strings]
  end.

(** The running print space [(height, width, vpos, hpos)]. *)
Definition print_space_step (ps : Z * Z * Z * Z)
    (block_height block_width block_vpos block_hpos : Z) : Z * Z * Z * Z :=
  let '(height, width, vpos, hpos) := ps in
  let height1 := Z.max (vpos + height) (block_vpos + block_height) in
  let width1 := Z.max (hpos + width) (block_hpos + block_width) in
  let vpos1 := Z.min vpos block_vpos in
  let hpos1 := Z.min hpos block_hpos in
  ((height1 - vpos1)%Z, (width1 - hpos1)%Z, vpos1, hpos1).

(** The body of [for b, block in enumerate(self.regions)]: the
    [TextBlock] element and the print space after it. *)
Definition block_to_alto (block : RegionLayout.t) (ps : Z * Z * Z * Z)
    : res (Element * (Z * Z * Z * Z)) :=
  '(vpos, vmax) ← column_extent snd (Some (RegionLayout.polygon block));
  '(hpos, hmax) ← column_extent fst (Some (RegionLayout.polygon block));
  let height := (vmax - vpos)%Z in
  let width := (hmax - hpos)%Z in
  text_lines ← res_mapM line_to_alto (RegionLayout.lines block);
  Ok (El "TextBlock"
         [("ID", RegionLayout.id block);
          ("HEIGHT", str_Z height); ("WIDTH", str_Z width);
          ("VPOS", str_Z vpos); ("HPOS", str_Z hpos)]
         None (concat text_lines),
      print_space_step ps height width vpos hpos).

Fixpoint blocks_to_alto (blocks : list RegionLayout.t) (ps : Z * Z * Z * Z)
    : res (list Element * (Z * Z * Z * Z)) :=
  match blocks with
  | [] => Ok ([], ps)
  | block :: rest =>
      '(text_block, ps1) ← block_to_alto block ps;
      '(text_blocks, ps2) ← blocks_to_alto rest ps1;
      Ok (text_block :: text_blocks, ps2)
  end.

Definition box_attrib (height width vpos hpos : string)
    : list (string * string) :=
  [("HEIGHT", height); ("WIDTH", width); ("VPOS", vpos); ("HPOS", hpos)].

Definition description : Element :=
  El "Description" [] None
     [El "MeasurementUnit" [] (Some "pixel") [];
      El "OCRProcessing" [("ID", "IdOcr")] None
         [El "ocrProcessingStep" [] None
             [El "processingDateTime" [] (Some today) [];
              El "processingSoftware" [] None
                 [El "softwareCreator" [] (Some "Project PERO") [];
                  El "softwareName" [] (Some "PERO OCR") [];
                  El "softwareVersion" [] (Some "v0.1.0") []]]]].

(** [to_altoxml_string], up to the tree [root] that [ET.tostring]
    serialises.  The method assigns to no field of the page, of a region
    or of a line: [narrow_label] rewrites the list [force_align] returned
    and [get_dense_logits] the array [toarray] returned. *)
Definition to_altoxml_string : method Element :=
  fun self =>
    (self,
     id ← match PageLayout.id self with
          | Some id => Ok id
          | None => Raise TypeError
          end;
     let page_height := fst (PageLayout.page_size self) in
     let page_width := snd (PageLayout.page_size self) in
     '(text_blocks, ps) ←
       blocks_to_alto (PageLayout.regions self) (0, 0, page_height, page_width)%Z;
     let '(ps_height, ps_width, ps_vpos, ps_hpos) := ps in
     Ok (El "alto" [("xmlns", "http://www.loc.gov/standards/alto/ns-v2#")] None
            [description;
             El "Layout" [] None
                [El "Page"
                    [("ID", "id_" ++ id); ("PHYSICAL_IMG_NR", "1");
                     ("HEIGHT", str_Z page_height); ("WIDTH", str_Z page_width)]
                    None
                    [El "TopMargin"
                        (box_attrib (str_Z ps_vpos) (str_Z page_width) "0" "0")
                        None [];
                     El "LeftMargin"
                        (box_attrib (str_Z page_height) (str_Z ps_hpos) "0" "0")
                        None [];
                     El "RightMargin"
                        (box_attrib (str_Z page_height)
                           (str_Z (page_width - (ps_hpos + ps_width)))
                           "0" (str_Z (ps_hpos + ps_width)))
                        None [];
                     El "BottomMargin"
                        (box_attrib
                           (str_Z (page_height - (ps_vpos + ps_height)))
                           (str_Z page_width)
                           (str_Z (ps_vpos + ps_height)) "0")
                        None [];
                     El "PrintSpace"
                        (box_attrib (str_Z ps_height) (str_Z ps_width)
                           (str_Z ps_vpos) (str_Z ps_hpos))
                        None text_blocks]]])).

End Collaborators.

End AltoWrite.

(** ** Serialising a tree and parsing it back *)

Module Lxml.
Import ET.
Local Open Scope string_scope.

(** The tree lxml parses from the serialisation of a tree built without
    namespaces, as far as the readers look at it: every tag carries the
    namespace [schema] (["{uri}"], with [uri] the value of the [xmlns]
    attribute of the root), the attributes are as written, and a text
    that was the empty string is absent. *)
Fixpoint qualify (schema : string) (e : Element) : Element :=
  let '(El t a x ch) := e in
  El (schema ++ t) a
     match x with
     | Some "" => None
     | _ => x
     end
     (map (qualify schema) ch).

(** [ET.parse(BytesIO(ET.tostring(root)))] *)
Definition reparse (root : Element) : Element :=
  match get root "xmlns" with
  | Some uri =>
      qualify ("{" ++ uri ++ "}")
        (El (tag root)
            (filter (fun kv => fst kv <> "xmlns") (attrib root))
            (text root) (children root))
  | None => qualify "" root
  end.

End Lxml.

(** ** [find_optimal] *)

Module FindOptimal.

(** [l[i]]: a negative index counts from the end, an index outside
    [-len(l) .. len(l) - 1] raises [IndexError]. *)
Definition py_index {A} (l : list A) (i : Z) : res A :=
  let n := Z.of_nat (length l) in
  let k := if bool_decide (i < 0) then i + n else i in
  if bool_decide (0 <= k < n) then
    match l !! Z.to_nat k with
    | Some a => Ok a
    | None => Raise IndexError
    end
  else Raise IndexError.

(** [logit[item][idx]] *)
Definition logit_at (logit : list (list Q)) (idx item : Z) : res Q :=
  row ← py_index logit item; py_index row idx.

(** The loop [for i, item in enumerate(positions)] with its two
    variables. *)
Fixpoint find_optimal_loop (logit : list (list Q)) (idx : Z)
    (positions : list Z) (maximum : Q) (highest : Z) : res Z :=
  match positions with
  | [] => Ok highest
  | item :: rest =>
      v ← logit_at logit idx item;
      if Qlt_le_dec maximum v
      then find_optimal_loop logit idx rest v item
      else find_optimal_loop logit idx rest maximum highest
  end.

Definition find_optimal (logit : list (list Q)) (positions : list Z) (idx : Z)
    : res Z :=
  find_optimal_loop logit idx positions (inject_Z (-100)) (-1).

End FindOptimal.

(** ** The logits snapshot: [save_logits] *)

Module SaveLogits.
Local Open Scope string_scope.

(** [f'Missing logits for line {line.id}.'] and
    [f'Missing logit mapping to characters for line {line.id}.'] *)
Definition MissingLogits (id : option string) : pyerr :=
  Exception ("Missing logits for line " ++ default "None" id ++ ".").
Definition MissingCharacters (id : option string) : pyerr :=
  Exception ("Missing logit mapping to characters for line "
             ++ default "None" id ++ ".").

(** The two checks of the inner loop, for one line. *)
Definition check_line (line : TextLine.t) : res unit :=
  match TextLine.logits line, TextLine.characters line with
  | None, _ => Raise (MissingLogits (TextLine.id line))
  | Some _, None => Raise (MissingCharacters (TextLine.id line))
  | Some _, Some _ => Ok ()
  end.

(** [dict(pairs)]: a key given twice keeps its last value. *)
Definition dict {V} (pairs : list (string * V)) : gmap string V :=
  foldl (fun m kv => <[fst kv := snd kv]> m) ∅ pairs.

(** The pair [(line.id, line.logits)] and [(line.id, line.characters)] of
    a line that passed the checks.  The keys of the dictionaries of the
    model are strings; a line whose id is [None] is outside the model. *)
Definition logits_pair (line : TextLine.t) : res (string * pickled) :=
  match TextLine.id line, TextLine.logits line with
  | Some id, Some v => Ok (id, v)
  | _, _ => Raise (Unsupported "line id None as a key")
  end.
Definition characters_pair (line : TextLine.t)
    : res (string * option (list ascii)) :=
  match TextLine.id line with
  | Some id => Ok (id, TextLine.characters line)
  | None => Raise (Unsupported "line id None as a key")
  end.

(** [save_logits], up to the dictionary handed to [pickle.dump].  The
    checks of all regions come before the dictionaries are built; the lists
    [logits] and [characters] grow region by region, which is the order of
    [lines_iterator]. *)
Definition save_logits (self : PageLayout.t) : res (gmap string pickled) :=
  _ ← res_mapM check_line (PageLayout.lines_iterator self);
  logits ← res_mapM logits_pair (PageLayout.lines_iterator self);
  characters ← res_mapM characters_pair (PageLayout.lines_iterator self);
  Ok (<["line_characters" := LineCharacters (dict characters)]> (dict logits)).

End SaveLogits.

(** * Properties *)

(** ** Properties of label narrowing *)

Module NarrowFacts.
Import Narrow.

Section Loop.
Context (idx_of_last fill : Z).

(** The flushed form of a run of [r] frames labelled [c]. *)
Definition kept_run (r : nat) (c : Z) : list Z :=
  match r with
  | O => []
  | S r' => c :: replicate r' fill
  end.

Lemma length_kept_run r c : length (kept_run r c) = r.
Proof. destruct r; simpl; [done|]. by rewrite length_replicate. Qed.

Lemma kept_run_snoc r c :
  (0 < r)%nat -> kept_run r c ++ [fill] = kept_run (S r) c.
Proof.
  destruct r as [|r]; [lia|]. intros _. simpl. f_equal.
  by rewrite <- replicate_S_end.
Qed.

Lemma insert_middle (l1 l2 : list Z) (x y : Z) :
  <[length l1 := x]> (l1 ++ y :: l2) = l1 ++ x :: l2.
Proof.
  rewrite <- (Nat.add_0_r (length l1)) at 1. by rewrite insert_app_r.
Qed.

Lemma overwrite_run (done_ rest : list Z) r c :
  foldl (fun l elem => <[elem := fill]> l) (done_ ++ replicate r c ++ rest)
        (seq (length done_) r)
  = done_ ++ replicate r fill ++ rest.
Proof.
  revert done_. induction r as [|r IH]; intros done_; simpl; [done|].
  replace (<[length done_ := fill]> (done_ ++ c :: replicate r c ++ rest))
    with ((done_ ++ [fill]) ++ replicate r c ++ rest).
  - replace (S (length done_)) with (length (done_ ++ [fill]))
      by (rewrite length_app; simpl; lia).
    rewrite IH. by rewrite <- app_assoc.
  - rewrite <- app_assoc. simpl. by rewrite insert_middle.
Qed.

Lemma flush_run (done_ rest : list Z) r c :
  flush (done_ ++ replicate r c ++ rest) (seq (length done_) r) (Some c) fill
  = done_ ++ kept_run r c ++ rest.
Proof.
  destruct r as [|r]; [done|].
  unfold flush. change (seq (length done_) (S r)) with
    (length done_ :: seq (S (length done_)) r).
  cbv iota beta.
  change (length done_ :: seq (S (length done_)) r)
    with (seq (length done_) (S r)).
  rewrite overwrite_run. simpl. by rewrite insert_middle.
Qed.

Lemma step_read (st : loop_state) (i : nat) (item : Z) :
  ls_label st !! i = Some item ->
  step idx_of_last fill st i
  = let last_char := ls_last_char st in
    let st1 :=
      if bool_decide (last_char = Some item)
         && negb (bool_decide (last_char = Some idx_of_last))
      then LoopState (ls_label st) last_char (ls_repeating st ++ [i])
      else LoopState (flush (ls_label st) (ls_repeating st) last_char fill)
                     last_char (ls_repeating st) in
    LoopState (ls_label st1) (Some item)
      (if bool_decide (last_char = Some item) then ls_repeating st1
       else if bool_decide (item = idx_of_last) then [] else [i]).
Proof. intros H. unfold step. by rewrite H. Qed.

(** The loop invariant: the frames before the current run are final, the
    current run of [r] frames labelled [c] is still untouched and its
    positions are exactly [repeating]. *)
Lemma loop_correct (rest done_ : list Z) (r : nat) (c : Z) (lc : option Z) :
  (r = 0%nat -> lc = None \/ lc = Some idx_of_last) ->
  ((0 < r)%nat -> lc = Some c /\ c <> idx_of_last) ->
  let st' := foldl (step idx_of_last fill)
               (LoopState (done_ ++ replicate r c ++ rest) lc
                          (seq (length done_) r))
               (seq (length done_ + r) (length rest)) in
  flush (ls_label st') (ls_repeating st') (ls_last_char st') fill
  = done_ ++ kept_run r c ++ narrow_runs idx_of_last fill lc rest.
Proof.
  revert done_ r c lc.
  induction rest as [|x rest IH]; intros done_ r c lc H0 Hpos; simpl.
  - destruct (decide (r = 0%nat)) as [->|Hr].
    + simpl. by rewrite !app_nil_r.
    + destruct Hpos as [-> _]; [lia|]. apply flush_run.
  - assert (Hread : (done_ ++ replicate r c ++ x :: rest) !! (length done_ + r)%nat
                    = Some x).
    { rewrite app_assoc.
      replace (length done_ + r)%nat with (length (done_ ++ replicate r c))
        by (rewrite length_app, length_replicate; lia).
      apply list_lookup_middle; done. }
    rewrite (step_read _ _ x) by exact Hread.
    cbn [ls_label ls_last_char ls_repeating].
    destruct (decide (lc = Some x)) as [Hlc|Hlc];
      [destruct (decide (x = idx_of_last)) as [Hx|Hx]|].
    + (* a repeated blank: nothing is recorded *)
      subst lc. subst x.
      rewrite !bool_decide_eq_true_2 by done. simpl.
      assert (r = 0%nat) as ->.
      { destruct r; [done|]. destruct Hpos as [Hc Hne]; [lia|]. congruence. }
      simpl.
      specialize (IH (done_ ++ [idx_of_last]) 0%nat c (Some idx_of_last)).
      simpl in IH. rewrite length_app in IH. simpl in IH.
      replace (length done_ + 1 + 0)%nat with (S (length done_ + 0)) in IH by lia.
      rewrite <- !app_assoc in IH. simpl in IH.
      rewrite IH; [done|by right|lia].
    + (* the run goes on *)
      subst lc.
      rewrite bool_decide_eq_true_2 by done.
      rewrite (bool_decide_eq_false_2 (Some x = Some idx_of_last)) by congruence.
      rewrite (bool_decide_eq_false_2 (x = idx_of_last)) by done.
      simpl.
      assert (Hr : (0 < r)%nat).
      { destruct r; [|lia]. destruct H0 as [?|?]; congruence. }
      destruct (Hpos Hr) as [Hc Hne]. assert (c = x) as -> by congruence.
      specialize (IH done_ (S r) x (Some x)).
      rewrite seq_S in IH.
      replace (replicate (S r) x ++ rest) with (replicate r x ++ x :: rest) in IH
        by (rewrite replicate_S_end, <- app_assoc; done).
      replace (length done_ + S r)%nat with (S (length done_ + r)) in IH by lia.
      rewrite IH; [|lia|done].
      rewrite <- kept_run_snoc by done. by rewrite <- app_assoc.
    + (* the label changes: the pending run is flushed *)
      rewrite (bool_decide_eq_false_2 (lc = Some x)) by done. simpl.
      assert (Hfl : flush (done_ ++ replicate r c ++ x :: rest)
                      (seq (length done_) r) lc fill
                    = done_ ++ kept_run r c ++ x :: rest).
      { destruct (decide (r = 0%nat)) as [->|Hr]; [done|].
        destruct Hpos as [-> _]; [lia|]. apply flush_run. }
      rewrite Hfl.
      destruct (decide (x = idx_of_last)) as [Hx|Hx].
      * rewrite (bool_decide_eq_true_2 (x = idx_of_last)) by done.
        specialize (IH (done_ ++ kept_run r c ++ [x]) 0%nat c (Some x)).
        simpl in IH.
        rewrite !length_app, length_kept_run in IH. simpl in IH.
        replace (length done_ + (r + 1) + 0)%nat with (S (length done_ + r))
          in IH by lia.
        rewrite <- !app_assoc in IH. simpl in IH.
        rewrite IH; [done|right; congruence|lia].
      * rewrite (bool_decide_eq_false_2 (x = idx_of_last)) by done.
        specialize (IH (done_ ++ kept_run r c) 1%nat x (Some x)).
        simpl in IH.
        rewrite !length_app, length_kept_run in IH.
        replace (length done_ + r + 1)%nat with (S (length done_ + r))
          in IH by lia.
        rewrite <- !app_assoc in IH.
        rewrite IH; [done|lia|done].
Qed.

End Loop.

Lemma narrow_label_runs (label : list Z) (idx_of_last : Z) (on_one_liberal : bool) :
  narrow_label label idx_of_last on_one_liberal
  = narrow_runs idx_of_last (fill_value idx_of_last on_one_liberal) None label.
Proof.
  unfold narrow_label.
  pose proof (loop_correct idx_of_last (fill_value idx_of_last on_one_liberal)
                label [] 0%nat 0 None) as H.
  simpl in H. apply H; [by left|lia].
Qed.

Lemma length_narrow_runs idx_of_last fill prev path :
  length (narrow_runs idx_of_last fill prev path) = length path.
Proof.
  revert prev. induction path as [|x rest IH]; intros prev; simpl; [done|].
  by rewrite IH.
Qed.

Lemma narrow_runs_lookup idx_of_last fill (path : list Z) prev i x :
  path !! i = Some x ->
  narrow_runs idx_of_last fill prev path !! i
  = Some (if bool_decide (match i with
                          | O => prev
                          | S j => path !! j
                          end = Some x)
             && negb (bool_decide (x = idx_of_last))
          then fill else x).
Proof.
  revert prev i. induction path as [|y rest IH]; intros prev i; [done|].
  destruct i as [|i]; simpl.
  - by intros [= ->].
  - intros Hx. rewrite (IH (Some y) i Hx). by destruct i.
Qed.

(** C6. [narrow_label] is the single scan of the specification: the first
    frame of every maximal run of equal non-blank labels keeps its label
    and every other frame of the run is rewritten to the blank index
    [idx_of_last] (to [idx_of_last - 1] in liberal mode).  Frame by frame:
    frame [0] and every blank frame keep their label, and a later frame is
    rewritten exactly when the frame before it carried the same non-blank
    label.  The length of the path is unchanged, and [2,2,2,5,1,1,5,5]
    with blank [5] narrows to [2,5,5,5,1,5,5,5]. *)
Theorem narrow_label_spec :
  (forall (label : list Z) (idx_of_last : Z) (on_one_liberal : bool),
      let fill := if on_one_liberal then idx_of_last - 1 else idx_of_last in
      narrow_label label idx_of_last on_one_liberal
      = narrow_runs idx_of_last fill None label
      /\ length (narrow_label label idx_of_last on_one_liberal) = length label
      /\ forall (i : nat) (x : Z),
           label !! i = Some x ->
           narrow_label label idx_of_last on_one_liberal !! i
           = Some (match i with
                   | O => x
                   | S j =>
                       if bool_decide (label !! j = Some x)
                          && negb (bool_decide (x = idx_of_last))
                       then fill else x
                   end))
  /\ narrow_label [2; 2; 2; 5; 1; 1; 5; 5] 5 false = [2; 5; 5; 5; 1; 5; 5; 5].
Proof.
  split; [|reflexivity].
  intros label idx_of_last on_one_liberal fill.
  rewrite narrow_label_runs. fold fill.
  split; [done|]. split; [apply length_narrow_runs|].
  intros i x Hx. rewrite (narrow_runs_lookup _ _ _ _ _ _ Hx).
  by destruct i.
Qed.

Lemma narrow_label_spec_witness :
  [7; 7; 3; 3; 3; 7] !! 4%nat = Some 3
  /\ narrow_label [7; 7; 3; 3; 3; 7] 7 true !! 4%nat = Some 6.
Proof.
  split; [reflexivity|].
  exact (proj2 (proj2 (proj1 narrow_label_spec [7; 7; 3; 3; 3; 7] 7 true))
               4%nat 3 eq_refl).
Defined.

End NarrowFacts.

(** ** Properties of the boundary walk *)

Module WalkFacts.
Import Walk.

Section Scan.
Context (blank word_lenght : Z).

(** Once the word is complete, the next letter frame ends the walk. *)
Lemma scan_final (aligned : list Z) (a : nat) loc glob width hpos eos lst :
  glob < loc ->
  scan blank word_lenght a aligned (WalkState loc glob width hpos eos true lst)
  = match nonblank_frames blank a aligned !! 0%nat with
    | Some e => WalkState loc loc width hpos (4 * Z.of_nat e) true false
    | None => WalkState loc glob width hpos eos true lst
    end.
Proof.
  intros Hlt. revert a.
  induction aligned as [|ali rest IH]; intros a; simpl; [done|].
  case_bool_decide; [apply IH|].
  rewrite bool_decide_eq_true_2 by done. done.
Qed.

(** Inside the word: [m] more letter frames are passed before the frame at
    which the word is found complete. *)
Lemma scan_count (aligned : list Z) (a m : nat) loc glob width hpos eos lst :
  glob < loc ->
  loc + Z.of_nat m = glob + word_lenght ->
  let P := nonblank_frames blank a aligned in
  scan blank word_lenght a aligned (WalkState loc glob width hpos eos false lst)
  = match P !! m, P !! S m with
    | Some c, Some e =>
        WalkState (glob + word_lenght + 1) (glob + word_lenght + 1)
                  (4 * Z.of_nat c - hpos) hpos (4 * Z.of_nat e) true false
    | Some c, None =>
        WalkState (glob + word_lenght + 1) glob
                  (4 * Z.of_nat c - hpos) hpos eos true lst
    | None, _ =>
        WalkState (loc + Z.of_nat (length P)) glob width hpos eos false lst
    end.
Proof.
  revert a m loc.
  induction aligned as [|ali rest IH]; intros a m loc Hlt Hm; simpl.
  - f_equal. lia.
  - case_bool_decide as Hali; [by apply IH|].
    rewrite bool_decide_eq_true_2 by done.
    destruct m as [|m]; simpl.
    + rewrite bool_decide_eq_true_2 by lia.
      rewrite scan_final by lia.
      replace (loc + 1) with (glob + word_lenght + 1) by lia.
      by destruct (nonblank_frames blank (S a) rest !! 0%nat).
    + rewrite bool_decide_eq_false_2 by lia.
      rewrite (IH (S a) m (loc + 1)) by lia.
      destruct (nonblank_frames blank (S a) rest !! m); [done|].
      f_equal. lia.
Qed.

(** Before the word: [n] letter frames belong to earlier words. *)
Lemma scan_skip (aligned : list Z) (a n wl : nat) loc glob width hpos eos lst :
  word_lenght = Z.of_nat wl -> (0 < wl)%nat ->
  loc + Z.of_nat n = glob ->
  let P := nonblank_frames blank a aligned in
  scan blank word_lenght a aligned (WalkState loc glob width hpos eos false lst)
  = match P !! n with
    | None => WalkState (loc + Z.of_nat (length P)) glob width hpos eos false lst
    | Some s =>
        match P !! (n + wl)%nat, P !! S (n + wl) with
        | Some c, Some e =>
            WalkState (glob + word_lenght + 1) (glob + word_lenght + 1)
                      (4 * Z.of_nat c - 4 * Z.of_nat s) (4 * Z.of_nat s)
                      (4 * Z.of_nat e) true false
        | Some c, None =>
            WalkState (glob + word_lenght + 1) glob
                      (4 * Z.of_nat c - 4 * Z.of_nat s) (4 * Z.of_nat s)
                      eos true lst
        | None, _ =>
            WalkState (loc + Z.of_nat (length P)) glob width (4 * Z.of_nat s)
                      eos false lst
        end
    end.
Proof.
  intros Hwl Hpos. revert a n loc.
  induction aligned as [|ali rest IH]; intros a n loc Hn; simpl.
  - f_equal. lia.
  - case_bool_decide as Hali; [by apply IH|].
    rewrite bool_decide_eq_false_2 by lia.
    destruct n as [|n]; simpl.
    + rewrite bool_decide_eq_true_2 by lia.
      destruct wl as [|wl']; [lia|].
      rewrite (scan_count rest (S a) wl') by lia. simpl.
      destruct (nonblank_frames blank (S a) rest !! wl'); [done|].
      f_equal. lia.
    + rewrite bool_decide_eq_false_2 by lia.
      rewrite (IH (S a) n (loc + 1)) by lia.
      destruct (nonblank_frames blank (S a) rest !! n); [|f_equal; lia].
      destruct (nonblank_frames blank (S a) rest !! (n + wl)%nat); [done|].
      f_equal. lia.
Qed.

End Scan.

Lemma nonblank_frames_lt blank a aligned i f :
  nonblank_frames blank a aligned !! i = Some f -> (f < a + length aligned)%nat.
Proof.
  revert a i. induction aligned as [|ali rest IH]; intros a i; simpl; [done|].
  case_bool_decide.
  - intros H'. apply IH in H'. lia.
  - destruct i as [|i]; simpl.
    + intros [= <-]. lia.
    + intros H'. apply IH in H'. lia.
Qed.

End WalkFacts.

Module WalkClaims.
Import Walk WalkFacts.

(** The walk of the single word ["hi"] over the path [0,2,2,1,2,2,2,2]
    (blank [2]) does not end the word at frame 3: no letter frame follows
    the two letters, so [last] stays set and the width is reset to the
    whole line, [4 * 8].  And for the first word of ["hi hi"] (alphabet
    [h, i, space], blank [3]) on the path [0,3,1,3,2,0,1] the word ends at
    frame 4, the frame of the space, not at frame 2 where its second letter
    is counted. *)
Lemma hi_walk_is_not_0_12 :
  (let r := word_walk 2 [0; 2; 2; 1; 2; 2; 2; 2] 0 2 in
   ~ (string_hpos r = 4 * 0 /\ string_hpos r + string_width r = 4 * 3))
  /\ (let r := word_walk 3 [0; 3; 1; 3; 2; 0; 1] 0 2 in
      string_hpos r + string_width r = 4 * 4
      /\ string_hpos r + string_width r <> 4 * 2).
Proof.
  split.
  - vm_compute. intros [_ H]. discriminate H.
  - by vm_compute.
Qed.

(** C1 (amended). With [P] the letter (non-blank) frames of the path, a word
    of [wl] characters entered with [g] letters consumed starts at column
    [4 * P[g]].  The frame at which the word is found complete is
    [P[g + wl]], the first letter frame with [g + wl] letter frames before
    it; its column [4 * P[g + wl]] is the word's end only when one more
    letter frame [P[g + wl + 1]] follows, which ends the walk and becomes
    [end_of_space].  Otherwise the word is the last one of the line and
    ends at column [4 * len(aligned)].  For ["hi"] on [0,2,2,1,2,2,2,2] the
    word therefore covers columns [0, 32). *)
Theorem word_walk_columns :
  (forall (blank : Z) (aligned : list Z) (g wl : nat),
      (0 < wl)%nat ->
      let P := nonblank_frames blank 0 aligned in
      let r := word_walk blank aligned (Z.of_nat g) (Z.of_nat wl) in
      string_hpos r = match P !! g with
                      | Some s => 4 * Z.of_nat s
                      | None => 0
                      end
      /\ match P !! (g + wl)%nat, P !! S (g + wl) with
         | Some c, Some e =>
             last r = false
             /\ string_hpos r + string_width r = 4 * Z.of_nat c
             /\ end_of_space r = 4 * Z.of_nat e
             /\ global_letter_counter r = Z.of_nat g + Z.of_nat wl + 1
         | _, _ =>
             last r = true
             /\ string_hpos r + string_width r = 4 * Z.of_nat (length aligned)
             /\ global_letter_counter r = Z.of_nat g
         end)
  /\ (let r := word_walk 2 [0; 2; 2; 1; 2; 2; 2; 2] 0 2 in
      string_hpos r = 0 /\ string_width r = 32 /\ last r = true).
Proof.
  split; [|by vm_compute].
  intros blank aligned g wl Hwl P r. subst r. unfold word_walk.
  rewrite (scan_skip blank (Z.of_nat wl) aligned 0 g wl) by lia.
  fold P.
  destruct (P !! g) as [s|] eqn:Hs; simpl.
  - destruct (P !! (g + wl)%nat) as [c|] eqn:Hc;
      [destruct (P !! S (g + wl)) as [e|] eqn:He|]; simpl;
      repeat split; lia.
  - assert (P !! (g + wl)%nat = None) as ->.
    { apply lookup_ge_None. apply lookup_ge_None in Hs. lia. }
    simpl. repeat split; lia.
Qed.

Lemma word_walk_columns_witness :
  (0 < 2)%nat
  /\ (let r := word_walk 2 [0; 2; 1; 2; 0; 1] (Z.of_nat 0) (Z.of_nat 2) in
      last r = false
      /\ string_hpos r + string_width r = 4 * Z.of_nat 4
      /\ end_of_space r = 4 * Z.of_nat 5
      /\ global_letter_counter r = Z.of_nat 0 + Z.of_nat 2 + 1).
Proof.
  split; [lia|].
  exact (proj2 (proj1 word_walk_columns 2 [0; 2; 1; 2; 0; 1] 0%nat 2%nat
                  ltac:(lia))).
Defined.

End WalkClaims.

(** ** Properties of the projection *)

Module ProjectFacts.
Import Project.

Lemma py_slice_empty {A} (row : list A) (start stop : Z) :
  slice_index (Z.of_nat (length row)) stop
    <= slice_index (Z.of_nat (length row)) start ->
  py_slice row start stop = [].
Proof.
  intros H. unfold py_slice.
  replace (Z.to_nat _) with 0%nat by lia. done.
Qed.

Lemma select_empty (line_coords : grid) (start stop : Z) :
  (forall row, row ∈ line_coords ->
     slice_index (Z.of_nat (length row)) stop
       <= slice_index (Z.of_nat (length row)) start) ->
  select_x line_coords start stop = [] /\ select_y line_coords start stop = [].
Proof.
  unfold select_x, select_y.
  induction line_coords as [|row rows IH]; intros H; simpl; [done|].
  rewrite (py_slice_empty row) by (apply H; left). simpl.
  apply IH. intros r Hr. apply H. by right.
Qed.

Lemma select_nonempty (row : list (Q * Q)) (rows : grid) (start stop : Z) :
  slice_index (Z.of_nat (length row)) start
    < slice_index (Z.of_nat (length row)) stop ->
  select_x (row :: rows) start stop <> []
  /\ select_y (row :: rows) start stop <> [].
Proof.
  intros H. unfold select_x, select_y, py_slice, slice_index in *. simpl.
  set (n := Z.of_nat (length row)) in *.
  set (lo := if bool_decide (start < 0) then _ else _) in *.
  set (hi := if bool_decide (stop < 0) then _ else _) in *.
  assert (Hlo : 0 <= lo < n).
  { subst lo hi. repeat case_bool_decide; lia. }
  assert (Hlen : (0 < length (take (Z.to_nat (hi - lo)) (drop (Z.to_nat lo) row)))%nat).
  { rewrite length_take, length_drop. lia. }
  destruct (take _ _) as [|p l]; [simpl in Hlen; lia|]. done.
Qed.

End ProjectFacts.

Module ProjectClaims.
Import Project ProjectFacts.

(** A grid of one row and 32 columns, column [i] at pixel [(i, 0)]: the
    grid of an 8-frame line when [lm_const] is [1]. *)
Definition row_32 : list (Q * Q) :=
  (fun i => (inject_Z (Z.of_nat i), 0%Q)) <$> seq 0 32.
Definition grid_1x32 : grid := [row_32].

(** The line of the word ["hi"]: alphabet [h, i], blank index [2]. *)
Definition line_hi : TextLine.t :=
  TextLine.Make (Some "l1") (Some [(0, 5); (31, 5)]%Z)
    (Some [(0, 0); (31, 0); (31, 10); (0, 10)]%Z)
    (Some [inject_Z 5; inject_Z 5]) (Some "hi"%string)
    (Some (Matrix [[0%Q; 0%Q]])) (Some ["h"; "i"]%char).

Definition page_hi : PageLayout.t :=
  PageLayout.Make (Some "page.jpg"%string) (10, 32)%Z
    [RegionLayout.Make "r1" [(0, 0); (31, 0); (31, 10); (0, 10)]%Z
       [line_hi] None].

(** The word ["hi"] of the 8-frame line has [string_hpos = 0 - 1] and
    [string_width = 32]; with a grid of 32 columns [lm_const] is [1.0] and
    its columns are the slice [-1 : 31], which is empty: the projection
    raises instead of producing a box, and so does [to_altoxml_string] for
    the page of that line (alignment path [0,2,2,1,2,2,2,2]). *)
Lemma empty_column_range_no_box :
  select_x grid_1x32 (-1) (-1 + 32) = []
  /\ string_box grid_1x32 (-1) 32 = Raise ValueError
  /\ ~ (exists b, string_box grid_1x32 (-1) 32 = Ok b)
  /\ AltoWrite.to_altoxml_string "2020-01-01"
       (fun _ _ _ => Ok [0; 2; 2; 1; 2; 2; 2; 2])
       (fun _ _ _ => Ok grid_1x32)
       (fun width frames c => Z.quot (c * Z.of_nat width) (4 * Z.of_nat frames))
       page_hi
     = (page_hi, Raise ValueError).
Proof.
  split; [reflexivity|]. split; [reflexivity|]. split; [|by vm_compute].
  intros [b Hb]. vm_compute in Hb. discriminate Hb.
Qed.

(** C4 (amended). A column range that selects no grid column makes the
    projection of a word box and of a gap box raise [ValueError] (the
    maximum of an empty selection); no zero-area box is produced.  A range
    that selects at least one column of a grid with at least one row yields
    the box of the minima and maxima of the selected coordinates. *)
Theorem column_range_box :
  (forall (line_coords : grid) (start ncols : Z),
      (forall row, row ∈ line_coords ->
         slice_index (Z.of_nat (length row)) (start + ncols)
           <= slice_index (Z.of_nat (length row)) start) ->
      string_box line_coords start ncols = Raise ValueError
      /\ space_box line_coords start ncols = Raise ValueError)
  /\ (forall (row : list (Q * Q)) (rows : grid) (start ncols : Z),
      slice_index (Z.of_nat (length row)) start
        < slice_index (Z.of_nat (length row)) (start + ncols) ->
      exists max_x min_x max_y min_y,
        np_max (select_x (row :: rows) start (start + ncols)) = Ok max_x
        /\ np_min (select_x (row :: rows) start (start + ncols)) = Ok min_x
        /\ np_max (select_y (row :: rows) start (start + ncols)) = Ok max_y
        /\ np_min (select_y (row :: rows) start (start + ncols)) = Ok min_y
        /\ string_box (row :: rows) start ncols
           = Ok (Box (int_of_float (Qminus max_y min_y))
                     (int_of_float (Qminus max_x min_x))
                     (int_of_float min_y) (int_of_float min_x))
        /\ space_box (row :: rows) start ncols
           = Ok (int_of_float (Qminus max_x min_x), int_of_float min_y,
                 int_of_float min_x)).
Proof.
  split.
  - intros line_coords start ncols H.
    destruct (select_empty line_coords start (start + ncols) H) as [Hx Hy].
    unfold string_box, space_box. rewrite Hx, Hy. done.
  - intros row rows start ncols H.
    destruct (select_nonempty row rows start (start + ncols) H) as [Hx Hy].
    unfold string_box, space_box.
    destruct (select_x (row :: rows) start (start + ncols)) as [|x xs]; [done|].
    destruct (select_y (row :: rows) start (start + ncols)) as [|y ys]; [done|].
    simpl. eauto 10.
Qed.

Lemma column_range_box_witness :
  ((forall row, row ∈ grid_1x32 ->
      slice_index (Z.of_nat (length row)) (-1 + 32)
        <= slice_index (Z.of_nat (length row)) (-1))
   /\ string_box grid_1x32 (-1) 32 = Raise ValueError)
  /\ (slice_index 32 0 < slice_index 32 (0 + 12)
      /\ exists b, string_box grid_1x32 0 12 = Ok b).
Proof.
  assert (H1 : forall row, row ∈ grid_1x32 ->
      slice_index (Z.of_nat (length row)) (-1 + 32)
        <= slice_index (Z.of_nat (length row)) (-1)).
  { intros row Hrow. apply list_elem_of_singleton in Hrow. subst row.
    vm_compute. discriminate. }
  assert (H2 : slice_index 32 0 < slice_index 32 (0 + 12)) by reflexivity.
  split.
  - split; [exact H1|].
    exact (proj1 (proj1 column_range_box grid_1x32 (-1) 32 H1)).
  - split; [exact H2|].
    destruct (proj2 column_range_box row_32 [] 0 12 H2)
      as (max_x & min_x & max_y & min_y & _ & _ & _ & _ & Hb & _).
    eexists. exact Hb.
Defined.

End ProjectClaims.

(** ** Properties of the readers *)

Module ReaderFacts.
Import ET PyStr PageXML AltoRead.
Local Open Scope string_scope.

(** What [append_regions] leaves behind when it ends without exception:
    the regions it found, one per element and in order, after the ones
    the page already had. *)
Lemma append_regions_ok read elements self self' :
  append_regions read elements self = (self', Ok ()) ->
  exists new,
    PageLayout.regions self' = (PageLayout.regions self ++ new)%list
    /\ Forall2 (fun e r => read e = Ok r) elements new.
Proof.
  revert self. induction elements as [|e rest IH]; intros self; simpl.
  - intros [= <-]. exists []. by rewrite app_nil_r.
  - destruct (read e) as [r|err] eqn:Hr; [|done].
    intros H. apply IH in H as (new & Hreg & Hall). simpl in Hreg.
    exists (r :: new). split.
    + by rewrite Hreg, <- app_assoc.
    + by constructor.
Qed.

Lemma res_mapM_ok {A B} (f : A -> res B) (l : list A) (bs : list B) :
  res_mapM f l = Ok bs -> Forall2 (fun a b => f a = Ok b) l bs.
Proof.
  revert bs. induction l as [|a l IH]; intros bs; simpl.
  - intros [= <-]. constructor.
  - destruct (f a) as [b|] eqn:Hb; [|done]. simpl.
    destruct (res_mapM f l) as [bs'|]; [|done]. simpl.
    intros [= <-]. constructor; auto.
Qed.


End ReaderFacts.

Module ReaderClaims.
Import ET PyStr PageXML AltoRead Readers ReaderFacts.
Local Open Scope string_scope.

(** *** Legacy heights *)



(** *** Heights of a line read from Dialect B *)

Definition alto_ns : string := "{http://www.loc.gov/standards/alto/ns-v2#}".

(** A page with one block and one line: the line box has [VPOS = 100] and
    [HEIGHT = 40], the baseline is at [130]. *)
Definition alto_doc : Element :=
  El (alto_ns ++ "alto") [] None
    [El (alto_ns ++ "Description") [] None [];
     El (alto_ns ++ "Layout") [] None
       [El (alto_ns ++ "Page")
           [("ID", "id_page.jpg"); ("PHYSICAL_IMG_NR", "1");
            ("HEIGHT", "200"); ("WIDTH", "300")] None
          [El (alto_ns ++ "PrintSpace") [] None
             [El (alto_ns ++ "TextBlock")
                 [("ID", "r1"); ("HEIGHT", "100"); ("WIDTH", "200");
                  ("VPOS", "50"); ("HPOS", "20")] None
                [El (alto_ns ++ "TextLine")
                    [("BASELINE", "130"); ("VPOS", "100"); ("HPOS", "20");
                     ("HEIGHT", "40"); ("WIDTH", "50")] None
                   [El (alto_ns ++ "String") [("CONTENT", "hello")] None [];
                    El (alto_ns ++ "SP") [] None [];
                    El (alto_ns ++ "String") [("CONTENT", "world")] None []]]]]]].





(** *** [from_altoxml_string] *)

(** C9. [from_altoxml_string] on a string is [from_pagexml] on the byte
    stream of that string, for every parser, string and page.  A document
    whose root has no [Page] child in its own namespace, as every Dialect B
    document (its [Page] lies under [Layout]), therefore ends in the
    [IndexError] of the Dialect A reader and is not read by
    [from_altoxml]. *)
Theorem from_altoxml_string_is_from_pagexml :
  (forall (ET_parse : string -> res Element) (s : string) (self : PageLayout.t),
      from_altoxml_string ET_parse s self
      = from_pagexml ET_parse (BytesIO s) self)
  /\ (forall (ET_parse : string -> res Element) (s : string)
        (self : PageLayout.t) (root : Element) (schema : string),
      ET_parse s = Ok root ->
      element_schema root = Ok schema ->
      findall root (schema ++ "Page") = [] ->
      from_altoxml_string ET_parse s self = (self, Raise IndexError)).
Proof.
  split; [done|].
  intros ET_parse s self root schema Hparse Hschema Hpage.
  unfold from_altoxml_string, from_pagexml, BytesIO, from_pagexml_tree.
  by rewrite Hparse, Hschema, Hpage.
Qed.

Lemma from_altoxml_string_is_from_pagexml_witness :
  (fun _ => Ok alto_doc) "<alto/>" = Ok alto_doc
  /\ element_schema alto_doc = Ok alto_ns
  /\ findall alto_doc (alto_ns ++ "Page") = []
  /\ snd (from_altoxml (fun _ => Ok alto_doc) "<alto/>" PageLayout.new) = Ok ()
  /\ from_altoxml_string (fun _ => Ok alto_doc) "<alto/>" PageLayout.new
     = (PageLayout.new, Raise IndexError).
Proof.
  split; [reflexivity|]. split; [reflexivity|]. split; [reflexivity|].
  split; [reflexivity|].
  exact (proj2 from_altoxml_string_is_from_pagexml (fun _ => Ok alto_doc)
           "<alto/>" PageLayout.new alto_doc alto_ns eq_refl eq_refl eq_refl).
Defined.

End ReaderClaims.

(** ** Properties of [load_logits] *)

Module LogitsFacts.
Import Logits.
Local Open Scope string_scope.





Section Snapshot.
Context (logits_dict : gmap string pickled) (file_name : string).

Let load := load_line logits_dict (characters_of logits_dict) file_name.
Let load_r := load_region logits_dict (characters_of logits_dict) file_name.





(** The alphabet mapping of the snapshot has an entry for the line id,
    or the snapshot is a legacy one without the mapping. *)
Definition has_alphabet (id : option string) : Prop :=
  match logits_dict !! "line_characters" with
  | None => True
  | Some (LineCharacters c) => exists k, id = Some k /\ is_Some (c !! k)
  | Some (Matrix _) => False
  end.

Lemma load_line_missing line :
  entry logits_dict (TextLine.id line) = None ->
  load line = (line, Raise (MissingLineData (TextLine.id line) file_name)).
Proof.
  unfold load, load_line. intros ->. by destruct (TextLine.id line).
Qed.

Lemma legacy_characters_at k v :
  logits_dict !! "line_characters" = None ->
  logits_dict !! k = Some v ->
  characters_at (characters_of logits_dict) k = Ok None.
Proof.
  intros Hleg Hk. unfold characters_of. rewrite Hleg. simpl.
  by rewrite lookup_fmap, Hk.
Qed.

Lemma load_line_present line :
  is_Some (entry logits_dict (TextLine.id line)) ->
  has_alphabet (TextLine.id line) ->
  snd (load line) = Ok ().
Proof.
  unfold load, load_line, has_alphabet, entry.
  intros [v Hv]. destruct (TextLine.id line) as [id|]; [simpl in *|done].
  rewrite Hv. intros Ha.
  destruct (logits_dict !! "line_characters") as [[|c]|] eqn:Hc.
  - done.
  - destruct Ha as (k & [= <-] & [a Hk]).
    unfold characters_of. rewrite Hc. simpl. by rewrite Hk.
  - by rewrite (legacy_characters_at id v).
Qed.





End Snapshot.

End LogitsFacts.

Module LogitsClaims.
Import Logits LogitsFacts.
Local Open Scope string_scope.






End LogitsClaims.

(** ** Properties of [to_altoxml_string] *)

Module AltoWriteFacts.
Import ET PyStr AltoWrite.
Local Open Scope string_scope.

(** [bool(line.transcription)] *)
Definition has_text (line : TextLine.t) : bool :=
  match TextLine.transcription line with
  | None | Some "" => false
  | Some _ => true
  end.

(** The page without the lines whose transcription is [None] or empty. *)
Definition only_transcribed_lines (region : RegionLayout.t) : RegionLayout.t :=
  RegionLayout.Make (RegionLayout.id region) (RegionLayout.polygon region)
    (filter (fun line => has_text line) (RegionLayout.lines region))
    (RegionLayout.transcription region).
Definition only_transcribed (self : PageLayout.t) : PageLayout.t :=
  PageLayout.Make (PageLayout.id self) (PageLayout.page_size self)
    (only_transcribed_lines <$> PageLayout.regions self).

(** An exception created by a [raise Exception(...)] statement of the
    program, as opposed to one raised by a failing operation. *)
Definition explicit_raise (err : pyerr) : Prop := exists msg, err = Exception msg.

Lemma res_mapM_raise {A B} (f : A -> res B) (l : list A) (a : A) err :
  a ∈ l -> f a = Raise err -> exists err', res_mapM f l = Raise err'.
Proof.
  intros Hin Ha. induction l as [|x l IH]; [by apply elem_of_nil in Hin|].
  simpl. destruct (f x) as [b|err'] eqn:Hx; [simpl|by eexists].
  apply elem_of_cons in Hin as [->|Hin]; [congruence|].
  destruct (IH Hin) as [err' ->]. by eexists.
Qed.

Lemma res_mapM_filter {A B} (f : A -> res (list B)) (keep : A -> bool)
    (l : list A) :
  (forall a, keep a = false -> f a = Ok []) ->
  match res_mapM f l, res_mapM f (filter (fun a => keep a) l) with
  | Ok xs, Ok ys => concat xs = concat ys
  | Raise err, Raise err' => err = err'
  | _, _ => False
  end.
Proof.
  intros Hdrop. induction l as [|a l IH]; simpl; [done|].
  destruct (keep a) eqn:Hk.
  - rewrite filter_cons_True by (by apply Is_true_true). simpl.
    destruct (f a) as [b|]; simpl; [|done].
    destruct (res_mapM f l), (res_mapM f (filter _ l)); simpl; try done.
    by rewrite IH.
  - rewrite filter_cons_False by (intros ?%Is_true_true; congruence).
    rewrite (Hdrop a Hk). simpl.
    by destruct (res_mapM f l), (res_mapM f (filter _ l)).
Qed.

Section Collaborators.
Context (today : string)
        (force_align : list (list Q) -> list Z -> Z -> res (list Z))
        (get_crop_inputs : option (list point) -> option (list Q) -> Z
                           -> res Project.grid)
        (to_column : nat -> nat -> Z -> Z).

Abbreviation line_to_alto :=
  (line_to_alto force_align get_crop_inputs to_column).
Abbreviation block_to_alto :=
  (block_to_alto force_align get_crop_inputs to_column).
Abbreviation blocks_to_alto :=
  (blocks_to_alto force_align get_crop_inputs to_column).

Lemma line_to_alto_no_text line :
  has_text line = false -> line_to_alto line = Ok [].
Proof.
  unfold has_text, AltoWrite.line_to_alto.
  by destruct (TextLine.transcription line) as [[|]|].
Qed.

Lemma block_only_transcribed block ps :
  block_to_alto (only_transcribed_lines block) ps = block_to_alto block ps.
Proof.
  unfold AltoWrite.block_to_alto. simpl.
  destruct (RegionLayout.polygon block) as [|p pts]; [done|]. simpl.
  pose proof (res_mapM_filter line_to_alto has_text (RegionLayout.lines block)
                line_to_alto_no_text) as H.
  destruct (res_mapM _ (RegionLayout.lines block)),
           (res_mapM _ (filter _ _)); simpl; try done; congruence.
Qed.

Lemma blocks_only_transcribed blocks ps :
  blocks_to_alto (only_transcribed_lines <$> blocks) ps
  = blocks_to_alto blocks ps.
Proof.
  revert ps. induction blocks as [|b blocks IH]; intros ps; [done|].
  rewrite fmap_cons. cbn [AltoWrite.blocks_to_alto].
  rewrite block_only_transcribed.
  destruct (block_to_alto b ps) as [[tb ps1]|]; [simpl|done].
  by rewrite IH.
Qed.

(** The first operation on a missing prerequisite raises. *)
Lemma line_without_baseline line :
  has_text line = true -> TextLine.baseline line = None ->
  line_to_alto line = Raise IndexError.
Proof.
  unfold has_text, AltoWrite.line_to_alto.
  destruct (TextLine.transcription line) as [[|c tr]|]; [done| |done].
  by intros _ ->.
Qed.

Lemma line_without_characters line y ys xs :
  has_text line = true ->
  average_y (TextLine.baseline line) = Ok y ->
  column_extent snd (TextLine.polygon line) = Ok ys ->
  column_extent fst (TextLine.polygon line) = Ok xs ->
  TextLine.characters line = None ->
  line_to_alto line = Raise TypeError.
Proof.
  unfold has_text, AltoWrite.line_to_alto.
  destruct (TextLine.transcription line) as [[|c tr]|]; [done| |done].
  intros _ -> -> -> ->. by destruct ys, xs.
Qed.

Lemma line_without_logits line y ys xs characters label :
  has_text line = true ->
  average_y (TextLine.baseline line) = Ok y ->
  column_extent snd (TextLine.polygon line) = Ok ys ->
  column_extent fst (TextLine.polygon line) = Ok xs ->
  TextLine.characters line = Some characters ->
  label_of characters (default "" (TextLine.transcription line)) = Ok label ->
  TextLine.logits line = None ->
  line_to_alto line = Raise AttributeError.
Proof.
  unfold has_text, AltoWrite.line_to_alto, get_dense_logits.
  destruct (TextLine.transcription line) as [[|c tr]|]; [done| |done].
  intros _ -> -> -> -> Hlabel ->. simpl in Hlabel.
  destruct ys, xs. simpl. by rewrite Hlabel.
Qed.

(** A line with text that lacks a prerequisite never yields elements. *)
Lemma line_missing_prerequisite line :
  has_text line = true ->
  TextLine.baseline line = None \/ TextLine.characters line = None
  \/ TextLine.logits line = None ->
  exists err, line_to_alto line = Raise err.
Proof.
  intros Htext Hmiss.
  unfold has_text in Htext. unfold AltoWrite.line_to_alto, get_dense_logits.
  destruct (TextLine.transcription line) as [[|c tr]|]; [done| |done].
  destruct (average_y _) as [y|] eqn:Hy; [simpl|by eexists].
  destruct (column_extent snd _) as [[]|]; [simpl|by eexists].
  destruct (column_extent fst _) as [[]|]; [simpl|by eexists].
  destruct (TextLine.characters line) as [cs|] eqn:Hcs; [simpl|by eexists].
  destruct (label_of _ _) as [label|]; [simpl|by eexists].
  destruct (TextLine.logits line) as [[]|] eqn:Hlog; [|by eexists..].
  destruct Hmiss as [Hb|[?|?]]; [|done..].
  by rewrite Hb in Hy.
Qed.

Lemma blocks_missing_prerequisite blocks ps region line :
  region ∈ blocks -> line ∈ RegionLayout.lines region ->
  has_text line = true ->
  TextLine.baseline line = None \/ TextLine.characters line = None
  \/ TextLine.logits line = None ->
  exists err, blocks_to_alto blocks ps = Raise err.
Proof.
  intros Hregion Hline Htext Hmiss. revert ps.
  induction blocks as [|b blocks IH]; intros ps;
    [by apply elem_of_nil in Hregion|].
  cbn [AltoWrite.blocks_to_alto].
  destruct (block_to_alto b ps) as [[tb ps1]|] eqn:Hb; [simpl|by eexists].
  apply elem_of_cons in Hregion as [->|Hregion].
  - exfalso. unfold AltoWrite.block_to_alto in Hb.
    destruct (RegionLayout.polygon b) as [|p pts]; [done|]. simpl in Hb.
    destruct (line_missing_prerequisite line Htext Hmiss) as [err Herr].
    destruct (res_mapM_raise line_to_alto _ line err Hline Herr) as [err' Hm].
    by rewrite Hm in Hb.
  - destruct (IH Hregion ps1) as [err ->]. by eexists.
Qed.

End Collaborators.

End AltoWriteFacts.

Module AltoWriteClaims.
Import ET PyStr AltoWrite AltoWriteFacts.
Local Open Scope string_scope.

(** C10. [to_altoxml_string] writes no element for a line whose
    transcription is [None] or the empty string, whatever its other fields
    hold, and the document it writes is the document of the page without
    those lines. *)
Theorem untranscribed_lines_omitted
    (today : string)
    (force_align : list (list Q) -> list Z -> Z -> res (list Z))
    (get_crop_inputs : option (list point) -> option (list Q) -> Z
                       -> res Project.grid)
    (to_column : nat -> nat -> Z -> Z) :
  (forall line : TextLine.t,
      line_to_alto force_align get_crop_inputs to_column
        (TextLine.set_transcription None line) = Ok []
      /\ line_to_alto force_align get_crop_inputs to_column
           (TextLine.set_transcription (Some "") line) = Ok [])
  /\ (forall self : PageLayout.t,
      snd (to_altoxml_string today force_align get_crop_inputs to_column self)
      = snd (to_altoxml_string today force_align get_crop_inputs to_column
               (only_transcribed self))).
Proof.
  split.
  - intros line. split; by apply line_to_alto_no_text.
  - intros self. unfold to_altoxml_string. simpl.
    by rewrite blocks_only_transcribed.
Qed.

(** A page with one line that has a transcription, a baseline, a polygon,
    heights and an alphabet, but no logits. *)
Definition line_without_logits_l1 : TextLine.t :=
  TextLine.Make (Some "l1") (Some [(0, 5); (10, 5)]%Z)
    (Some [(0, 0); (10, 0); (10, 10); (0, 10)]%Z)
    (Some [inject_Z 5; inject_Z 5]) (Some "hi") None
    (Some ["h"; "i"]%char).

Definition page_without_logits : PageLayout.t :=
  PageLayout.Make (Some "page.jpg") (200, 300)%Z
    [RegionLayout.Make "r1" [(0, 0); (10, 0); (10, 10); (0, 10)]%Z
       [line_without_logits_l1] None].

(** Writing Dialect B for the page without logits ends in the
    [AttributeError] of [None.toarray()], which no [raise] statement of
    the program creates. *)
Lemma missing_logits_is_attribute_error :
  to_altoxml_string "2020-01-01" (fun _ _ _ => Ok []) (fun _ _ _ => Ok [])
    (fun _ _ c => c) page_without_logits
  = (page_without_logits, Raise AttributeError)
  /\ ~ explicit_raise AttributeError.
Proof. split; [reflexivity|]. by intros [msg Hmsg]. Qed.

(** C3 (amended). For a line with a non-empty transcription, writing
    Dialect B fails at the first operation that touches a missing
    prerequisite: with [IndexError] when the baseline is missing, with
    [TypeError] when the alphabet is missing and with [AttributeError] when
    the logits are missing (the earlier fields being usable).  A page that
    holds such a line is never written: [to_altoxml_string] ends in an
    exception, and the page, its regions and its lines are as before the
    call. *)
Theorem missing_prerequisite_fails
    (today : string)
    (force_align : list (list Q) -> list Z -> Z -> res (list Z))
    (get_crop_inputs : option (list point) -> option (list Q) -> Z
                       -> res Project.grid)
    (to_column : nat -> nat -> Z -> Z) :
  (forall line,
      has_text line = true -> TextLine.baseline line = None ->
      line_to_alto force_align get_crop_inputs to_column line
      = Raise IndexError)
  /\ (forall line y ys xs,
      has_text line = true ->
      average_y (TextLine.baseline line) = Ok y ->
      column_extent snd (TextLine.polygon line) = Ok ys ->
      column_extent fst (TextLine.polygon line) = Ok xs ->
      TextLine.characters line = None ->
      line_to_alto force_align get_crop_inputs to_column line
      = Raise TypeError)
  /\ (forall line y ys xs characters label,
      has_text line = true ->
      average_y (TextLine.baseline line) = Ok y ->
      column_extent snd (TextLine.polygon line) = Ok ys ->
      column_extent fst (TextLine.polygon line) = Ok xs ->
      TextLine.characters line = Some characters ->
      label_of characters (default "" (TextLine.transcription line)) = Ok label ->
      TextLine.logits line = None ->
      line_to_alto force_align get_crop_inputs to_column line
      = Raise AttributeError)
  /\ (forall self region line,
      region ∈ PageLayout.regions self ->
      line ∈ RegionLayout.lines region ->
      has_text line = true ->
      TextLine.baseline line = None \/ TextLine.characters line = None
      \/ TextLine.logits line = None ->
      exists err,
        to_altoxml_string today force_align get_crop_inputs to_column self
        = (self, Raise err)).
Proof.
  split; [|split; [|split]].
  - apply line_without_baseline.
  - apply line_without_characters.
  - apply line_without_logits.
  - intros self region line Hregion Hline Htext Hmiss.
    unfold to_altoxml_string.
    destruct (PageLayout.id self) as [id|]; [simpl|by eexists].
    destruct (blocks_missing_prerequisite force_align get_crop_inputs to_column
                (PageLayout.regions self)
                (0, 0, fst (PageLayout.page_size self),
                 snd (PageLayout.page_size self))%Z
                region line Hregion Hline Htext Hmiss) as [err ->].
    by eexists.
Qed.

Lemma missing_prerequisite_fails_witness :
  has_text line_without_logits_l1 = true
  /\ TextLine.logits line_without_logits_l1 = None
  /\ line_to_alto (fun _ _ _ => Ok []) (fun _ _ _ => Ok []) (fun _ _ c => c)
       line_without_logits_l1 = Raise AttributeError
  /\ exists err,
       to_altoxml_string "2020-01-01" (fun _ _ _ => Ok [])
         (fun _ _ _ => Ok []) (fun _ _ c => c) page_without_logits
       = (page_without_logits, Raise err).
Proof.
  pose proof (missing_prerequisite_fails "2020-01-01" (fun _ _ _ => Ok [])
                (fun _ _ _ => Ok []) (fun _ _ c => c))
    as (_ & _ & Hlogits & Hpage).
  split; [reflexivity|]. split; [reflexivity|]. split.
  - exact (Hlogits line_without_logits_l1 5%Z (0, 10)%Z (0, 10)%Z
             ["h"; "i"]%char [0; 1]%Z eq_refl eq_refl eq_refl eq_refl
             eq_refl eq_refl eq_refl).
  - apply (Hpage page_without_logits
             (RegionLayout.Make "r1" [(0, 0); (10, 0); (10, 10); (0, 10)]%Z
                [line_without_logits_l1] None)
             line_without_logits_l1).
    + by left.
    + by left.
    + reflexivity.
    + right. right. reflexivity.
Defined.

End AltoWriteClaims.

(** ** Properties of the string conversions *)

Module PyStrFacts.
Import PyStr.
Local Open Scope string_scope.

(** Every character of [s] satisfies [p]. *)
Fixpoint str_all (p : ascii -> bool) (s : string) : bool :=
  match s with
  | "" => true
  | String c s' => p c && str_all p s'
  end.

Lemma str_all_app p s1 s2 :
  str_all p (s1 ++ s2) = str_all p s1 && str_all p s2.
Proof.
  induction s1 as [|c s1 IH]; simpl; [done|].
  by rewrite IH, andb_assoc.
Qed.

Lemma str_app_assoc (s1 s2 s3 : string) : (s1 ++ s2) ++ s3 = s1 ++ s2 ++ s3.
Proof.
  induction s1 as [|c s1 IH]; [done|].
  change (String c ((s1 ++ s2) ++ s3) = String c (s1 ++ s2 ++ s3)).
  by rewrite IH.
Qed.

Lemma str_all_impl (p q : ascii -> bool) s :
  (forall c, p c = true -> q c = true) ->
  str_all p s = true -> str_all q s = true.
Proof.
  intros Hpq. induction s as [|c s IH]; simpl; [done|].
  intros [Hc Hs]%andb_true_iff. by rewrite (Hpq c Hc), IH.
Qed.

(** *** Splitting *)

Lemma split_by_nonempty p s : split_by p s <> [].
Proof.
  destruct s as [|c s]; simpl; [done|].
  destruct (p c); [done|]. by destruct (split_by p s).
Qed.

Lemma split_by_none p s :
  str_all (fun c => negb (p c)) s = true -> split_by p s = [s].
Proof.
  induction s as [|c s IH]; simpl; [done|].
  intros [Hc Hs]%andb_true_iff. apply negb_true_iff in Hc.
  by rewrite Hc, IH.
Qed.

Lemma split_by_app p w c rest :
  str_all (fun c => negb (p c)) w = true -> p c = true ->
  split_by p (w ++ String c rest) = w :: split_by p rest.
Proof.
  intros Hw Hc. induction w as [|a w IH]; simpl in *.
  - by rewrite Hc.
  - apply andb_true_iff in Hw as [Ha Hw]. apply negb_true_iff in Ha.
    by rewrite Ha, IH.
Qed.

Lemma split_on_join sep ws :
  ws <> [] ->
  Forall (fun w => str_all (fun c => negb (bool_decide (c = sep))) w = true) ws ->
  split_on sep (join (String sep "") ws) = ws.
Proof.
  intros Hne Hall. unfold split_on.
  induction Hall as [|w ws Hw Hws IH]; [done|].
  destruct ws as [|w' ws].
  - simpl. by apply split_by_none.
  - change (join (String sep "") (w :: w' :: ws))
      with (w ++ String sep (join (String sep "") (w' :: ws))).
    rewrite split_by_app; [|done|by apply bool_decide_eq_true_2].
    by rewrite IH.
Qed.

(** *** Numbers *)

Lemma uint_digits d : str_all is_digit (NilEmpty.string_of_uint d) = true.
Proof. induction d; simpl; done. Qed.

Lemma to_uint_nonnil n : N.to_uint n <> Decimal.Nil.
Proof. destruct n; simpl; [done|]. apply Unsigned.to_uint_nonnil. Qed.

Lemma str_N_digits n : str_all is_digit (str_N n) = true.
Proof.
  unfold str_N, NilZero.string_of_uint.
  destruct (N.to_uint n) eqn:Hn; try (rewrite <- Hn; apply uint_digits).
  done.
Qed.

Lemma str_N_cons n : exists c s, str_N n = String c s /\ is_digit c = true.
Proof.
  pose proof (str_N_digits n) as Hd.
  unfold str_N, NilZero.string_of_uint in *.
  pose proof (to_uint_nonnil n) as Hn.
  destruct (N.to_uint n); simpl in *; try done; eauto.
Qed.

Lemma digits_str_N n : digits_N (str_N n) = Some n.
Proof.
  unfold digits_N, str_N.
  rewrite NilZero.usu by apply to_uint_nonnil. simpl.
  by rewrite DecimalN.Unsigned.of_to.
Qed.

Lemma split_sign_digit c s :
  is_digit c = true -> split_sign (String c s) = (false, String c s).
Proof.
  intros Hc. unfold split_sign. rewrite bool_decide_eq_false_2; [done|].
  by intros ->.
Qed.

Lemma split_sign_str_N n : split_sign (str_N n) = (false, str_N n).
Proof.
  destruct (str_N_cons n) as (c & s & -> & Hc). by apply split_sign_digit.
Qed.

Lemma split_sign_str_Z z :
  split_sign (str_Z z) = (bool_decide (z < 0)%Z, str_N (Z.abs_N z)).
Proof.
  unfold str_Z. case_bool_decide; [done|].
  rewrite split_sign_str_N. do 2 f_equal. lia.
Qed.

Lemma py_int_str_Z z : py_int (str_Z z) = Ok z.
Proof.
  unfold py_int. rewrite split_sign_str_Z, digits_str_N.
  case_bool_decide; f_equal; lia.
Qed.

Lemma split_point_none s :
  str_all (fun c => negb (bool_decide (c = "."%char))) s = true ->
  split_point s = (s, None).
Proof.
  induction s as [|c s IH]; simpl; [done|].
  intros [Hc Hs]%andb_true_iff. apply negb_true_iff in Hc.
  by rewrite Hc, IH.
Qed.

Lemma split_point_app s1 s2 :
  str_all (fun c => negb (bool_decide (c = "."%char))) s1 = true ->
  split_point (s1 ++ String "." s2) = (s1, Some s2).
Proof.
  induction s1 as [|c s1 IH]; simpl; [done|].
  intros [Hc Hs]%andb_true_iff. apply negb_true_iff in Hc.
  by rewrite Hc, IH.
Qed.

Lemma digit_not (x : ascii) c :
  is_digit x = false -> is_digit c = true -> negb (bool_decide (c = x)) = true.
Proof.
  intros Hx Hc. apply negb_true_iff, bool_decide_eq_false_2. congruence.
Qed.

Lemma str_N_without (x : ascii) n :
  is_digit x = false ->
  str_all (fun c => negb (bool_decide (c = x))) (str_N n) = true.
Proof.
  intros Hx. eapply str_all_impl; [|apply str_N_digits].
  intros c. by apply digit_not.
Qed.

Lemma unsigned_decimal_str_N n :
  unsigned_decimal (str_N n) = Some (inject_Z (Z.of_N n)).
Proof.
  unfold unsigned_decimal.
  rewrite split_point_none by (by apply str_N_without).
  by rewrite digits_str_N.
Qed.

Lemma Qred_inject_Z z : Qred (inject_Z z) = inject_Z z.
Proof. apply Qcanon.Qred_identity. simpl. apply Z.gcd_1_r. Qed.

Lemma py_float_str_Z z : py_float (str_Z z) = Ok (inject_Z z).
Proof.
  unfold py_float. rewrite split_sign_str_Z, unsigned_decimal_str_N.
  case_bool_decide.
  - change (Qopp (inject_Z (Z.of_N (Z.abs_N z))))
      with (inject_Z (- Z.of_N (Z.abs_N z))).
    rewrite Qred_inject_Z. do 2 f_equal. lia.
  - do 2 f_equal. lia.
Qed.

Lemma py_round_inject_Z z : py_round (inject_Z z) = z.
Proof.
  unfold py_round. rewrite Qfloor_Z.
  assert (Qcompare (Qminus (inject_Z z) (inject_Z z)) (1 # 2) = Lt) as ->; [|done].
  unfold Qcompare, Qminus, Qplus, Qopp, inject_Z. simpl.
  apply Z.compare_lt_iff. lia.
Qed.

End PyStrFacts.

(** ** The texts [to_pagexml_string] writes, read back *)

Module PageTextFacts.
Import PyStr PyStrFacts PageXML.
Local Open Scope string_scope.

(** The characters of a number written by [str] or by [.1f]. *)
Definition number_char (c : ascii) : bool :=
  is_digit c || bool_decide (c = "-"%char) || bool_decide (c = "."%char).

Lemma number_char_not (x : ascii) c :
  number_char x = false -> number_char c = true ->
  negb (bool_decide (c = x)) = true.
Proof.
  intros Hx Hc. apply negb_true_iff, bool_decide_eq_false_2. congruence.
Qed.

Lemma str_N_number n : str_all number_char (str_N n) = true.
Proof.
  eapply str_all_impl; [|apply str_N_digits].
  intros c Hc. unfold number_char. by rewrite Hc.
Qed.

Lemma str_Z_number z : str_all number_char (str_Z z) = true.
Proof.
  unfold str_Z. case_bool_decide; simpl; by rewrite str_N_number.
Qed.

Lemma fmt_1f_number q : str_all number_char (fmt_1f q) = true.
Proof.
  unfold fmt_1f. rewrite !str_all_app, !str_N_number.
  by case_bool_decide.
Qed.

Lemma number_without (x : ascii) s :
  number_char x = false -> str_all number_char s = true ->
  str_all (fun c => negb (bool_decide (c = x))) s = true.
Proof.
  intros Hx. apply str_all_impl. intros c. by apply number_char_not.
Qed.

(** *** Points *)

Lemma pair_text_split p :
  split_on "," (pair_text p) = [str_Z (fst p); str_Z (snd p)].
Proof.
  unfold split_on, pair_text.
  change ("," ++ str_Z (snd p)) with (String "," (str_Z (snd p))).
  rewrite split_by_app; [|by apply number_without, str_Z_number|done].
  rewrite split_by_none; [done|by apply number_without, str_Z_number].
Qed.

Lemma pair_text_no_space p :
  str_all (fun c => negb (bool_decide (c = " "%char))) (pair_text p) = true.
Proof.
  unfold pair_text. rewrite !str_all_app.
  rewrite (number_without " " (str_Z (fst p))) by (done || apply str_Z_number).
  rewrite (number_without " " (str_Z (snd p))) by (done || apply str_Z_number).
  done.
Qed.

Lemma points_string_to_array_points_string (points : list point) :
  points <> [] ->
  points_string_to_array (points_string points) = Ok points.
Proof.
  intros Hne. unfold points_string_to_array, points_string.
  rewrite split_on_join.
  - clear Hne. induction points as [|[x y] points IH]; [done|].
    rewrite fmap_cons. cbn [res_mapM].
    rewrite pair_text_split. cbn [fst snd].
    rewrite !py_float_str_Z. simpl. rewrite !py_round_inject_Z.
    rewrite IH. done.
  - by destruct points.
  - apply Forall_fmap, Forall_forall. intros p _. apply pair_text_no_space.
Qed.

(** *** Heights *)

(** The number [float] reads from the text [.1f] wrote for [q]. *)
Definition read_back_1f (q : Q) : Q :=
  let t := Z.to_N (py_round (Qmult (inject_Z 10) (Qabs q))) in
  let v := Qred (Qmake (Z.of_N (t / 10) * 10 + Z.of_N (t mod 10)) 10) in
  if bool_decide (Qnum q < 0)%Z then Qred (Qopp v) else v.

Lemma length_str_N_digit d : (d < 10)%N -> String.length (str_N d) = 1%nat.
Proof.
  intros Hd. rewrite <- (N2Nat.id d).
  assert (Hn : (N.to_nat d < 10)%nat) by lia.
  revert Hn. generalize (N.to_nat d). clear d Hd. intros n Hn.
  do 10 (destruct n as [|n]; [reflexivity|]). lia.
Qed.

Lemma unsigned_decimal_1f (i d : N) :
  (d < 10)%N ->
  unsigned_decimal (str_N i ++ "." ++ str_N d)
  = Some (Qred (Qmake (Z.of_N i * 10 + Z.of_N d) 10)).
Proof.
  intros Hd. unfold unsigned_decimal.
  change ("." ++ str_N d) with (String "." (str_N d)).
  rewrite split_point_app by (by apply str_N_without).
  rewrite !digits_str_N. simpl.
  by rewrite (length_str_N_digit d Hd).
Qed.

Lemma py_float_fmt_1f q : py_float (fmt_1f q) = Ok (read_back_1f q).
Proof.
  unfold py_float, fmt_1f, read_back_1f.
  set (t := Z.to_N (py_round _)).
  assert (Hd : (t mod 10 < 10)%N) by (apply N.mod_lt; done).
  case_bool_decide.
  - change ("-" ++ ?s) with (String "-" s).
    change (split_sign (String "-" ?s)) with (true, s).
    cbv beta iota zeta. by rewrite unsigned_decimal_1f.
  - change ("" ++ ?s) with s.
    destruct (str_N_cons (t / 10)) as (c & s & Hs & Hc).
    assert (split_sign (str_N (t / 10) ++ "." ++ str_N (t mod 10))
            = (false, str_N (t / 10) ++ "." ++ str_N (t mod 10))) as ->.
    { rewrite Hs. by apply split_sign_digit. }
    cbv beta iota zeta. by rewrite unsigned_decimal_1f.
Qed.

Lemma fmt_1f_cons q : exists c s, fmt_1f q = String c s.
Proof.
  unfold fmt_1f. case_bool_decide.
  - by eexists _, _.
  - destruct (str_N_cons (Z.to_N (py_round (Qmult (inject_Z 10) (Qabs q))) / 10))
      as (c & s & Hs & _).
    change ("" ++ ?s) with s. rewrite Hs. by eexists _, _.
Qed.

Lemma strip_last_snoc c s : strip_last c (s ++ String c "") = Some s.
Proof.
  induction s as [|a s IH]; simpl.
  - by rewrite bool_decide_eq_true_2.
  - rewrite IH. by destruct s.
Qed.

Lemma json_loads_pair h0 h1 :
  json_loads ("[" ++ fmt_1f h0 ++ "," ++ fmt_1f h1 ++ "]")
  = Ok [read_back_1f h0; read_back_1f h1].
Proof.
  unfold json_loads.
  change ("[" ++ ?s) with (String "[" s). cbv iota beta.
  replace (fmt_1f h0 ++ "," ++ fmt_1f h1 ++ "]")
    with ((fmt_1f h0 ++ "," ++ fmt_1f h1) ++ String "]" "").
  2:{ by rewrite !str_app_assoc. }
  rewrite strip_last_snoc.
  assert (Hne : exists c s, fmt_1f h0 ++ "," ++ fmt_1f h1 = String c s).
  { destruct (fmt_1f_cons h0) as (c & s & ->). by eexists _, _. }
  destruct Hne as (c & s & Hs). rewrite Hs at 1. cbv iota beta.
  unfold split_on.
  change ("," ++ fmt_1f h1) with (String "," (fmt_1f h1)).
  rewrite split_by_app; [|by apply number_without, fmt_1f_number|done].
  rewrite split_by_none by (by apply number_without, fmt_1f_number).
  simpl. by rewrite !py_float_fmt_1f.
Qed.

End PageTextFacts.

(** ** Writing Dialect A and reading it back *)

Module RoundTrip.
Import ET PyStr PyStrFacts PageXML PageTextFacts Lxml.
Local Open Scope string_scope.

(** *** Looking up children and attributes of an explicit element *)

Lemma findall_nil t a x tg : findall (El t a x []) tg = [].
Proof. done. Qed.

Lemma findall_cons t a x c cs tg :
  findall (El t a x (c :: cs)) tg
  = ((if bool_decide (tag c = tg) then [c] else []) ++ findall (El t a x cs) tg)%list.
Proof.
  unfold findall. simpl. case_bool_decide.
  - by rewrite filter_cons_True.
  - by rewrite filter_cons_False.
Qed.

Lemma iter_El tg t a x ch :
  iter tg (El t a x ch)
  = ((if bool_decide (t = tg) then [El t a x ch] else [])
     ++ flat_map (iter tg) ch)%list.
Proof. done. Qed.

Lemma qualify_El schema t a x ch :
  qualify schema (El t a x ch)
  = El (schema ++ t) a match x with Some "" => None | _ => x end
       (qualify schema <$> ch).
Proof. done. Qed.

Lemma bool_decide_tag (schema a b : string) :
  bool_decide (schema ++ a = schema ++ b) = bool_decide (a = b).
Proof.
  apply bool_decide_ext. split; [|by intros ->].
  apply (inj (String.append schema)).
Qed.

Lemma get_cons t k v a x ch key :
  get (El t ((k, v) :: a) x ch) key
  = if bool_decide (k = key) then Some v else get (El t a x ch) key.
Proof. done. Qed.

Lemma get_nil t x ch key : get (El t [] x ch) key = None.
Proof. done. Qed.

(** Decide the comparisons of closed strings and of tags in the same
    namespace, and unfold the look-ups they guard. *)
Ltac decide_closed :=
  match goal with
  | |- context [bool_decide (?a = ?b)] =>
      let v := eval vm_compute in (bool_decide (a = b)) in
      lazymatch v with
      | true => change (bool_decide (a = b)) with true
      | false => change (bool_decide (a = b)) with false
      end
  end.

Ltac xml_norm :=
  repeat first
    [ rewrite findall_cons
    | rewrite findall_nil
    | rewrite iter_El
    | rewrite qualify_El
    | rewrite get_cons
    | rewrite get_nil
    | rewrite bool_decide_tag
    | rewrite fmap_cons
    | rewrite fmap_nil
    | decide_closed
    | progress unfold find, attr
    | progress cbn [tag attrib text children head app flat_map find attr
                    mbind res_bind mret res_ret default from_option
                    concat] ].

(** *** The parts of a line *)

Lemma number_not_space c : number_char c = true -> negb (is_space c) = true.
Proof. destruct c as [[|] [|] [|] [|] [|] [|] [|] [|]]; by vm_compute. Qed.

Lemma heights_custom_text h0 h1 :
  heights_from_custom ("heights_v2:[" ++ fmt_1f h0 ++ "," ++ fmt_1f h1 ++ "]")
  = Ok (Some [read_back_1f h0; read_back_1f h1]).
Proof.
  set (value := "[" ++ fmt_1f h0 ++ "," ++ fmt_1f h1 ++ "]").
  change ("heights_v2:[" ++ fmt_1f h0 ++ "," ++ fmt_1f h1 ++ "]")
    with ("heights_v2" ++ String ":" value).
  set (custom_str := "heights_v2" ++ String ":" value).
  assert (Hin : str_in "heights_v2" custom_str = true) by done.
  assert (Hvalue : forall x : ascii,
             number_char x = false ->
             negb (bool_decide ("["%char = x)) = true ->
             negb (bool_decide (","%char = x)) = true ->
             negb (bool_decide ("]"%char = x)) = true ->
             str_all (fun c => negb (bool_decide (c = x))) value = true).
  { intros x Hx H1 H2 H3. unfold value.
    change ("[" ++ ?s) with (String "[" s).
    change ("," ++ ?s) with (String "," s).
    repeat first [rewrite str_all_app | progress cbn [str_all]].
    rewrite !(number_without x) by (done || apply fmt_1f_number).
    by rewrite H1, H2, H3. }
  assert (Hws : split_ws custom_str = [custom_str]).
  { unfold split_ws. rewrite split_by_none; [done|].
    unfold custom_str, value.
    change ("[" ++ ?s) with (String "[" s).
    change ("," ++ ?s) with (String "," s).
    repeat first [rewrite str_all_app | progress cbn [str_all]].
    rewrite !(str_all_impl number_char (fun c => negb (is_space c)))
      by (apply number_not_space || apply fmt_1f_number).
    done. }
  unfold heights_from_custom. rewrite Hin, Hws. cbn [foldl].
  rewrite Hin. cbn [mbind res_bind].
  unfold split_on, custom_str.
  rewrite split_by_app; [|done|done].
  rewrite split_by_none by (by apply Hvalue).
  unfold value. by rewrite json_loads_pair.
Qed.

(** The heights a line gets back after writing and reading. *)
Definition heights_read_back (heights : option (list Q)) : option (list Q) :=
  match heights with
  | Some (h0 :: h1 :: _) => Some [read_back_1f h0; read_back_1f h1]
  | _ => None
  end.

(** The line read from what was written for [line]. *)
Definition line_read_back (line : TextLine.t) : TextLine.t :=
  TextLine.Make (TextLine.id line) (TextLine.baseline line)
    (Some (default [] (TextLine.polygon line)))
    (heights_read_back (TextLine.heights line))
    (TextLine.transcription line) None None.

Definition region_read_back (region : RegionLayout.t) : RegionLayout.t :=
  RegionLayout.Make (RegionLayout.id region) (RegionLayout.polygon region)
    (line_read_back <$> RegionLayout.lines region)
    (RegionLayout.transcription region).

(** Points that can be written and read: a list with no point is written
    as the empty text, which [points_string_to_array] rejects. *)
Definition writable_line (line : TextLine.t) : Prop :=
  TextLine.baseline line <> Some [] /\ TextLine.polygon line <> Some [].
Definition writable_region (region : RegionLayout.t) : Prop :=
  RegionLayout.polygon region <> []
  /\ Forall writable_line (RegionLayout.lines region).

Section Lines.
Context (schema : string).

Lemma coords_read_back t (points : list point) :
  points <> [] ->
  get_coords_form_page_xml
    (Some (El (schema ++ t) [("points", points_string points)] None [])) schema
  = Ok points.
Proof.
  intros Hne. unfold get_coords_form_page_xml. xml_norm.
  by apply points_string_to_array_points_string.
Qed.

Lemma unicode_read_back (t : string) :
  unicode_text
    (El (schema ++ "TextEquiv") [] None
        [El (schema ++ "Unicode") [] match t with "" => None | _ => Some t end []])
    schema
  = Ok t.
Proof. unfold unicode_text. xml_norm. by destruct t. Qed.

Lemma line_read line el :
  line_to_page_xml line = Ok el ->
  writable_line line ->
  line_from_page_xml (qualify schema el) schema = Ok (line_read_back line).
Proof.
  unfold line_to_page_xml, writable_line, line_read_back, heights_read_back,
    heights_custom, text_equiv.
  destruct line as [id baseline polygon heights transcription lg ch].
  cbn [TextLine.id TextLine.baseline TextLine.polygon TextLine.heights
       TextLine.transcription].
  destruct id as [id|]; [|done]. cbn [mbind res_bind].
  intros Hel [Hb Hp].
  unfold line_from_page_xml.
  destruct heights as [[|h0 [|h1 hs]]|]; cbn [mbind res_bind] in Hel;
    try done; injection Hel as <-;
    destruct baseline as [[|b bs]|]; try done;
    destruct polygon as [[|p ps]|]; try done;
    destruct transcription as [tr|];
    xml_norm;
    rewrite ?heights_custom_text; xml_norm;
    rewrite ?coords_read_back by done; xml_norm;
    rewrite ?(unicode_read_back tr); xml_norm;
    try reflexivity.
Qed.

End Lines.

(** *** Regions and the page *)

Section Regions.
Context (schema : string).

(** A written line holds no [TextRegion] and exactly one [TextLine]. *)
Ltac written_line Hel line :=
  unfold line_to_page_xml, heights_custom, text_equiv in Hel;
  destruct (TextLine.id line); [|done]; cbn [mbind res_bind] in Hel;
  destruct (TextLine.heights line) as [[|? [|? ?]]|];
    cbn [mbind res_bind] in Hel; try done; injection Hel as <-;
    destruct (TextLine.baseline line), (TextLine.polygon line),
             (TextLine.transcription line);
    by xml_norm.

Lemma iter_line_TextLine line el :
  line_to_page_xml line = Ok el ->
  iter (schema ++ "TextLine") (qualify schema el) = [qualify schema el].
Proof. intros Hel. written_line Hel line. Qed.

Lemma iter_line_TextRegion line el :
  line_to_page_xml line = Ok el ->
  iter (schema ++ "TextRegion") (qualify schema el) = [].
Proof. intros Hel. written_line Hel line. Qed.

Lemma iter_lines tg lines els :
  Forall2 (fun line el => line_to_page_xml line = Ok el) lines els ->
  (forall line el, line_to_page_xml line = Ok el ->
     iter (schema ++ tg) (qualify schema el) = []) ->
  flat_map (iter (schema ++ tg)) (qualify schema <$> els) = [].
Proof.
  intros Hall Htg. induction Hall as [|line el lines els Hel _ IH]; [done|].
  rewrite fmap_cons. cbn [flat_map]. by rewrite (Htg line el Hel), IH.
Qed.

Lemma iter_lines_TextLine lines els :
  Forall2 (fun line el => line_to_page_xml line = Ok el) lines els ->
  flat_map (iter (schema ++ "TextLine")) (qualify schema <$> els)
  = qualify schema <$> els.
Proof.
  intros Hall. induction Hall as [|line el lines els Hel _ IH]; [done|].
  rewrite fmap_cons. cbn [flat_map].
  by rewrite (iter_line_TextLine line el Hel), IH.
Qed.

Lemma lines_read lines els :
  Forall2 (fun line el => line_to_page_xml line = Ok el) lines els ->
  Forall writable_line lines ->
  res_mapM (fun line => line_from_page_xml line schema) (qualify schema <$> els)
  = Ok (line_read_back <$> lines).
Proof.
  intros Hall Hw. induction Hall as [|line el lines els Hel _ IH]; [done|].
  apply Forall_cons in Hw as [Hline Hlines].
  rewrite !fmap_cons. cbn [res_mapM].
  rewrite (line_read schema line el Hel Hline). cbn [mbind res_bind].
  by rewrite IH.
Qed.

Lemma tag_line line el :
  line_to_page_xml line = Ok el -> tag (qualify schema el) = schema ++ "TextLine".
Proof.
  unfold line_to_page_xml. destruct (TextLine.id line); [|done].
  cbn [mbind res_bind].
  destruct (match TextLine.heights line with None => _ | Some _ => _ end);
    [|done].
  cbn [mbind res_bind]. by intros [= <-].
Qed.

Lemma findall_lines t a x tg lines els :
  Forall2 (fun line el => line_to_page_xml line = Ok el) lines els ->
  tg <> "TextLine" ->
  findall (El t a x (qualify schema <$> els)) (schema ++ tg) = [].
Proof.
  intros Hall Htg. induction Hall as [|line el lines els Hel _ IH]; [done|].
  rewrite fmap_cons, findall_cons, (tag_line line el Hel), bool_decide_tag.
  rewrite bool_decide_eq_false_2 by done. by rewrite IH.
Qed.

(** The children of a written region, in the namespace. *)
Lemma region_read region el :
  region_to_page_xml region = Ok el ->
  writable_region region ->
  region_from_page_xml (qualify schema el) schema = Ok (region_read_back region)
  /\ iter (schema ++ "TextRegion") (qualify schema el) = [qualify schema el].
Proof.
  unfold region_to_page_xml, writable_region, region_read_back, text_equiv.
  destruct region as [id polygon lines transcription].
  cbn [RegionLayout.id RegionLayout.polygon RegionLayout.lines
       RegionLayout.transcription].
  destruct (res_mapM line_to_page_xml lines) as [els|] eqn:Hels; [|done].
  cbn [mbind res_bind]. intros [= <-] [Hp Hw].
  apply ReaderFacts.res_mapM_ok in Hels.
  pose proof (iter_lines_TextLine lines els Hels) as Hiter.
  pose proof (iter_lines "TextRegion" lines els Hels iter_line_TextRegion)
    as Hnone.
  pose proof (lines_read lines els Hels Hw) as Hread.
  unfold region_from_page_xml, get_region_from_page_xml.
  destruct transcription as [tr|]; rewrite !qualify_El, !iter_El, !fmap_cons;
    try rewrite fmap_app; rewrite ?fmap_cons, ?fmap_nil;
    cbn [app flat_map]; rewrite ?flat_map_app; xml_norm;
    rewrite ?Hiter, ?Hnone, ?app_nil_r;
    rewrite ?coords_read_back by done; xml_norm;
    rewrite ?(unicode_read_back schema tr); xml_norm;
    rewrite ?(findall_lines _ _ _ "TextEquiv" lines els Hels) by done;
    xml_norm;
    rewrite ?Hread; xml_norm;
    cbn [RegionLayout.id RegionLayout.polygon RegionLayout.lines
         RegionLayout.transcription app]; split; reflexivity.
Qed.

End Regions.

Lemma append_regions_all read elements regions self :
  Forall2 (fun e r => read e = Ok r) elements regions ->
  append_regions read elements self
  = (PageLayout.Make (PageLayout.id self) (PageLayout.page_size self)
       (PageLayout.regions self ++ regions), Ok ()).
Proof.
  intros Hall. revert self.
  induction Hall as [|e r elements regions He _ IH]; intros self; simpl.
  - rewrite app_nil_r. by destruct self.
  - rewrite He, IH. simpl. by rewrite <- app_assoc.
Qed.

(** The page read from what was written for [self]. *)
Definition page_read_back (self : PageLayout.t) : PageLayout.t :=
  PageLayout.Make (PageLayout.id self) (PageLayout.page_size self)
    (region_read_back <$> PageLayout.regions self).

Section Page.
Context (schema : string).

Lemma regions_read regions els :
  Forall2 (fun region el => region_to_page_xml region = Ok el) regions els ->
  Forall writable_region regions ->
  Forall2 (fun e r => region_from_page_xml e schema = Ok r)
          (qualify schema <$> els) (region_read_back <$> regions)
  /\ flat_map (iter (schema ++ "TextRegion")) (qualify schema <$> els)
     = qualify schema <$> els.
Proof.
  intros Hall Hw. induction Hall as [|region el regions els Hel _ IH].
  - split; [constructor|done].
  - apply Forall_cons in Hw as [Hregion Hregions].
    destruct (IH Hregions) as [IH1 IH2].
    destruct (region_read schema region el Hel Hregion) as [Hread Hiter].
    rewrite !fmap_cons. split; [by constructor|].
    cbn [flat_map]. by rewrite Hiter, IH2.
Qed.

Lemma page_read self tree :
  snd (to_pagexml_string self) = Ok tree ->
  Forall writable_region (PageLayout.regions self) ->
  element_schema (El (schema ++ "PcGts") [] None []) = Ok schema ->
  from_pagexml_tree
    (qualify schema (El (tag tree) [] (text tree) (children tree)))
    PageLayout.new
  = (page_read_back self, Ok ()).
Proof.
  unfold to_pagexml_string, page_read_back. cbn [snd].
  destruct self as [id page_size regions].
  cbn [PageLayout.id PageLayout.page_size PageLayout.regions].
  destruct id as [id|]; [|done]. cbn [mbind res_bind].
  destruct (res_mapM region_to_page_xml regions) as [els|] eqn:Hels; [|done].
  cbn [mbind res_bind]. intros [= <-] Hw Hschema.
  apply ReaderFacts.res_mapM_ok in Hels.
  destruct (regions_read regions els Hels Hw) as [Hread Hiter].
  unfold from_pagexml_tree. cbn [tag text children].
  rewrite !qualify_El.
  assert (element_schema
            (El (schema ++ "PcGts") [] None
                (qualify schema
                 <$> [El "Page"
                        [("imageFilename", id);
                         ("imageWidth", str_Z (snd page_size));
                         ("imageHeight", str_Z (fst page_size))] None els]))
          = Ok schema) as -> by exact Hschema.
  xml_norm. rewrite !py_int_str_Z. xml_norm.
  rewrite Hiter, app_nil_r.
  rewrite (append_regions_all _ _ _ _ Hread).
  cbn [PageLayout.id PageLayout.page_size PageLayout.regions app].
  by destruct page_size.
Qed.

End Page.

(** *** Heights with one decimal *)

Lemma py_round_Qeq (x y : Q) : Qeq x y -> py_round x = py_round y.
Proof.
  intros H. unfold py_round. rewrite (Qfloor_comp x y H).
  assert (Qcompare (Qminus x (inject_Z (Qfloor y))) (1 # 2)
          = Qcompare (Qminus y (inject_Z (Qfloor y))) (1 # 2)) as ->; [|done].
  by rewrite H.
Qed.

Lemma read_back_1f_tenths (k : Z) :
  read_back_1f (Qred (Qmake k 10)) = Qred (Qmake k 10).
Proof.
  unfold read_back_1f.
  pose proof (Qred_correct (Qmake k 10)) as Hq.
  assert (Hr : py_round (Qmult (inject_Z 10) (Qabs (Qred (Qmake k 10))))
               = Z.abs k).
  { rewrite <- (py_round_inject_Z (Z.abs k)). apply py_round_Qeq.
    rewrite Hq. unfold Qeq, Qmult, Qabs, inject_Z. simpl. lia. }
  rewrite Hr. clear Hr.
  assert (Hsign : (Qnum (Qred (Qmake k 10)) < 0 <-> k < 0)%Z).
  { unfold Qeq in Hq. simpl in Hq. lia. }
  assert (Ht : (Z.of_N (Z.to_N (Z.abs k) / 10) * 10
                + Z.of_N (Z.to_N (Z.abs k) mod 10) = Z.abs k)%Z).
  { pose proof (N.div_mod (Z.to_N (Z.abs k)) 10 ltac:(done)). lia. }
  rewrite Ht. case_bool_decide as Hneg.
  - apply Qred_complete. rewrite Qred_correct.
    unfold Qeq, Qopp. simpl. lia.
  - apply Qred_complete. unfold Qeq. simpl. lia.
Qed.

End RoundTrip.

Module RoundTripClaims.
Import ET PyStr PageXML PageTextFacts Lxml RoundTrip.
Local Open Scope string_scope.

Definition page_schema : string := "{" ++ page_namespace ++ "}".

(** A Dialect A document with one region and one line; the heights of the
    line are given with two decimals. *)
Definition page_doc : Element :=
  El (page_schema ++ "PcGts") [] None
    [El (page_schema ++ "Page")
        [("imageFilename", "page.jpg"); ("imageWidth", "300");
         ("imageHeight", "200")] None
       [El (page_schema ++ "TextRegion") [("id", "r1")] None
          [El (page_schema ++ "Coords")
              [("points", "0,0 100,0 100,50 0,50")] None [];
           El (page_schema ++ "TextLine")
              [("id", "l1"); ("custom", "heights_v2:[12.34,5.0]")] None
             [El (page_schema ++ "Coords")
                 [("points", "0,10 100,10 100,40 0,40")] None [];
              El (page_schema ++ "Baseline")
                 [("points", "0,30 100,30")] None [];
              El (page_schema ++ "TextEquiv") [] None
                [El (page_schema ++ "Unicode") [] (Some "hi") []]]]]].

(** The page read from a document. *)
Definition read (doc : Element) : PageLayout.t :=
  fst (from_pagexml_tree doc PageLayout.new).

(** The tree written for a page ([PcGts] alone if writing fails). *)
Definition written (self : PageLayout.t) : Element :=
  match snd (to_pagexml_string self) with
  | Ok tree => tree
  | Raise _ => El "PcGts" [] None []
  end.




End RoundTripClaims.

(** * Further properties of the program *)

(** ** [narrow_label]: what a narrowed path looks like *)

Module NarrowMore.
Import Narrow NarrowFacts.

Lemma narrow_runs_again (b f : Z) (prev prev' : option Z) (l : list Z) :
  prev' = prev \/ prev' = Some f ->
  narrow_runs b f prev' (narrow_runs b f prev l) = narrow_runs b f prev l.
Proof.
  revert prev prev'.
  induction l as [|x rest IH]; intros prev prev' H; simpl; [done|].
  f_equal.
  - destruct H as [->| ->]; repeat (case_bool_decide; simpl in * ); congruence.
  - apply IH. repeat (case_bool_decide; simpl); auto.
Qed.

(** X1. In the default mode a narrowed path never holds the same
    character label in two neighbouring frames: every frame keeps its
    label or becomes the blank, a blank frame stays blank, and two
    neighbouring frames that agree are both blank. *)
Theorem narrow_label_separates (label : list Z) (idx_of_last : Z) :
  let out := narrow_label label idx_of_last false in
  (forall (i : nat) (x : Z),
      label !! i = Some x ->
      out !! i = Some x \/ out !! i = Some idx_of_last)
  /\ (forall i : nat,
        label !! i = Some idx_of_last -> out !! i = Some idx_of_last)
  /\ (forall (i : nat) (x : Z),
        out !! i = Some x -> out !! S i = Some x -> x = idx_of_last).
Proof.
  intros out. subst out. rewrite narrow_label_runs. simpl.
  split; [|split].
  - intros i x Hx. rewrite (narrow_runs_lookup _ _ _ _ _ _ Hx).
    destruct (_ && _); auto.
  - intros i Hx. rewrite (narrow_runs_lookup _ _ _ _ _ _ Hx).
    by destruct (_ && _).
  - intros i x Hi Hsi.
    destruct (label !! i) as [a|] eqn:Ha.
    2:{ apply lookup_ge_None in Ha.
        apply lookup_lt_Some in Hi. rewrite length_narrow_runs in Hi. lia. }
    destruct (label !! S i) as [c|] eqn:Hc.
    2:{ apply lookup_ge_None in Hc.
        apply lookup_lt_Some in Hsi. rewrite length_narrow_runs in Hsi. lia. }
    rewrite (narrow_runs_lookup _ _ _ _ _ _ Ha) in Hi.
    rewrite (narrow_runs_lookup _ _ _ _ _ _ Hc) in Hsi.
    rewrite Ha in Hsi.
    destruct (decide (x = idx_of_last)) as [|Hne]; [done|].
    exfalso.
    assert (a = x) as ->.
    { destruct (_ && _) in Hi; congruence. }
    repeat (case_bool_decide; simpl in * ); congruence.
Qed.

Lemma narrow_label_separates_witness :
  [7; 7; 3; 3; 3; 7] !! 3%nat = Some 3
  /\ (narrow_label [7; 7; 3; 3; 3; 7] 7 false !! 3%nat = Some 3
      \/ narrow_label [7; 7; 3; 3; 3; 7] 7 false !! 3%nat = Some 7).
Proof.
  split; [reflexivity|].
  exact (proj1 (narrow_label_separates [7; 7; 3; 3; 3; 7] 7) 3%nat 3 eq_refl).
Defined.

(** X2. Narrowing is idempotent in both modes: a path that was narrowed
    is left as it is by a second call with the same blank index and the
    same mode. *)
Theorem narrow_label_idempotent (label : list Z) (idx_of_last : Z)
    (on_one_liberal : bool) :
  narrow_label (narrow_label label idx_of_last on_one_liberal)
    idx_of_last on_one_liberal
  = narrow_label label idx_of_last on_one_liberal.
Proof.
  rewrite !narrow_label_runs. apply narrow_runs_again. by left.
Qed.

End NarrowMore.

(** ** The boundary walk: bounds and consecutive words *)

Module WalkMore.
Import Walk WalkFacts.

Lemma nonblank_frames_ge blank a aligned i f :
  nonblank_frames blank a aligned !! i = Some f -> (a + i <= f)%nat.
Proof.
  revert a i. induction aligned as [|ali rest IH]; intros a i; simpl; [done|].
  case_bool_decide.
  - intros H'. apply IH in H'. lia.
  - destruct i as [|i]; simpl.
    + intros [= <-]. lia.
    + intros H'. apply IH in H'. lia.
Qed.

(** The letter frames are listed in increasing order. *)
Lemma nonblank_frames_increasing blank a aligned i j f g :
  nonblank_frames blank a aligned !! i = Some f ->
  nonblank_frames blank a aligned !! j = Some g ->
  (i < j)%nat -> (f < g)%nat.
Proof.
  revert a i j. induction aligned as [|ali rest IH]; intros a i j; simpl; [done|].
  case_bool_decide; [apply IH|].
  destruct j as [|j]; [lia|]. destruct i as [|i]; simpl.
  - intros [= <-] Hg _. apply nonblank_frames_ge in Hg. lia.
  - intros Hf Hg Hlt. apply (IH (S a) i j); [done|done|lia].
Qed.

(** The outcome of the walk of one word, by the letter frames [P] of the
    path. *)
Lemma word_walk_outcome (blank : Z) (aligned : list Z) (g wl : nat) :
  (0 < wl)%nat ->
  let P := nonblank_frames blank 0 aligned in
  let r := word_walk blank aligned (Z.of_nat g) (Z.of_nat wl) in
  string_hpos r = match P !! g with
                  | Some s => 4 * Z.of_nat s
                  | None => 0
                  end
  /\ match P !! g, P !! (g + wl)%nat, P !! S (g + wl) with
     | Some s, Some c, Some e =>
         last r = false
         /\ string_width r = 4 * Z.of_nat c - 4 * Z.of_nat s
         /\ end_of_space r = 4 * Z.of_nat e
         /\ global_letter_counter r = Z.of_nat (S (g + wl))
     | _, _, _ =>
         last r = true
         /\ string_width r = 4 * Z.of_nat (length aligned) - string_hpos r
         /\ global_letter_counter r = Z.of_nat g
     end.
Proof.
  intros Hwl P r. subst r. unfold word_walk.
  rewrite (scan_skip blank (Z.of_nat wl) aligned 0 g wl) by lia.
  fold P.
  destruct (P !! g) as [s|] eqn:Hs; simpl.
  - destruct (P !! (g + wl)%nat) as [c|] eqn:Hc;
      [destruct (P !! S (g + wl)) as [e|] eqn:He|]; simpl;
      repeat split; lia.
  - repeat split; lia.
Qed.

(** X3. The columns of a word lie inside the line: for a word of at least
    one character the start column is not negative, the width is not
    negative (positive on a path with at least one frame) and the word
    ends at or before column [4 * len(aligned)].  When a later letter
    frame ends the walk ([last] is cleared), the gap after the word is not
    empty and ends inside the line: the word's end is strictly before
    [end_of_space], which is before [4 * len(aligned)]. *)
Theorem word_walk_bounds (blank : Z) (aligned : list Z) (g wl : nat) :
  (0 < wl)%nat ->
  let r := word_walk blank aligned (Z.of_nat g) (Z.of_nat wl) in
  let n := Z.of_nat (length aligned) in
  0 <= string_hpos r
  /\ 0 <= string_width r
  /\ (aligned <> [] -> 0 < string_width r)
  /\ string_hpos r + string_width r <= 4 * n
  /\ (last r = false ->
      string_hpos r + string_width r < end_of_space r
      /\ end_of_space r < 4 * n).
Proof.
  intros Hwl r n.
  destruct (word_walk_outcome blank aligned g wl Hwl) as [Hh Hc].
  fold r in Hh, Hc.
  set (P := nonblank_frames blank 0 aligned) in *.
  assert (Hn : aligned <> [] -> 0 < n).
  { subst n. destruct aligned; [done|]. simpl. lia. }
  destruct (P !! g) as [s|] eqn:Hs.
  - pose proof (nonblank_frames_lt _ _ _ _ _ Hs) as Hs'.
    destruct (P !! (g + wl)%nat) as [c|] eqn:Hc';
      [destruct (P !! S (g + wl)) as [e|] eqn:He|].
    + destruct Hc as (Hl & Hw & He' & _).
      pose proof (nonblank_frames_increasing _ _ _ g (g + wl)%nat _ _ Hs Hc'
                    ltac:(lia)).
      pose proof (nonblank_frames_increasing _ _ _ (g + wl)%nat (S (g + wl))
                    _ _ Hc' He ltac:(lia)).
      pose proof (nonblank_frames_lt _ _ _ _ _ He).
      subst n. repeat split; try lia.
    + destruct Hc as (Hl & Hw & _).
      subst n. repeat split; try lia; congruence.
    + destruct Hc as (Hl & Hw & _).
      subst n. repeat split; try lia; congruence.
  - destruct Hc as (Hl & Hw & _).
    split; [lia|]. split; [lia|]. split; [intros Hne; specialize (Hn Hne); lia|].
    split; [lia|]. intros ?; congruence.
Qed.

Lemma word_walk_bounds_witness :
  (0 < 2)%nat
  /\ (let r := word_walk 3 [0; 3; 1; 3; 2; 0; 1] (Z.of_nat 0) (Z.of_nat 2) in
      last r = false ->
      string_hpos r + string_width r < end_of_space r
      /\ end_of_space r < 4 * Z.of_nat (length [0; 3; 1; 3; 2; 0; 1])).
Proof.
  split; [lia|].
  exact (proj2 (proj2 (proj2 (proj2
           (word_walk_bounds 3 [0; 3; 1; 3; 2; 0; 1] 0%nat 2%nat
              ltac:(lia)))))).
Defined.

(** X4. Consecutive words of a line.  When the walk of a word is ended by
    a later letter frame, the letter counter it leaves skips the word and
    one more letter, and the next word starts at the column where the gap
    after this word ends.  When no later letter frame ends the walk
    ([last] stays set) the counter is left as it was, so the next word is
    started at the same column as this one. *)
Theorem next_word_starts_at_end_of_space (blank : Z) (aligned : list Z)
    (g wl wl' : nat) :
  (0 < wl)%nat -> (0 < wl')%nat ->
  let r := word_walk blank aligned (Z.of_nat g) (Z.of_nat wl) in
  let r' := word_walk blank aligned (global_letter_counter r) (Z.of_nat wl') in
  if last r
  then global_letter_counter r = Z.of_nat g
       /\ string_hpos r' = string_hpos r
  else global_letter_counter r = Z.of_nat g + Z.of_nat wl + 1
       /\ string_hpos r' = end_of_space r.
Proof.
  intros Hwl Hwl' r r'.
  destruct (word_walk_outcome blank aligned g wl Hwl) as [Hh Hc].
  fold r in Hh, Hc.
  set (P := nonblank_frames blank 0 aligned) in *.
  assert (Hr' : forall k : nat, global_letter_counter r = Z.of_nat k ->
            string_hpos r' = match P !! k with
                             | Some s => 4 * Z.of_nat s
                             | None => 0
                             end).
  { intros k Hk. subst r'. rewrite Hk.
    apply (word_walk_outcome blank aligned k wl' Hwl'). }
  destruct (P !! g) as [s|] eqn:Hs;
    [destruct (P !! (g + wl)%nat) as [c|] eqn:Hc';
      [destruct (P !! S (g + wl)) as [e|] eqn:He|]|].
  - destruct Hc as (-> & _ & He' & Hg).
    split; [lia|]. rewrite (Hr' _ Hg), He. lia.
  - destruct Hc as (-> & _ & Hg). split; [done|].
    rewrite (Hr' _ Hg), Hs. lia.
  - destruct Hc as (-> & _ & Hg). split; [done|].
    rewrite (Hr' _ Hg), Hs. lia.
  - destruct Hc as (-> & _ & Hg). split; [done|].
    rewrite (Hr' _ Hg), Hs. lia.
Qed.

Lemma next_word_starts_at_end_of_space_witness :
  (0 < 2)%nat /\ (0 < 2)%nat
  /\ (let r := word_walk 3 [0; 3; 1; 3; 2; 0; 1] (Z.of_nat 0) (Z.of_nat 2) in
      let r' := word_walk 3 [0; 3; 1; 3; 2; 0; 1] (global_letter_counter r)
                  (Z.of_nat 2) in
      global_letter_counter r = Z.of_nat 0 + Z.of_nat 2 + 1
      /\ string_hpos r' = end_of_space r).
Proof.
  split; [lia|]. split; [lia|].
  exact (next_word_starts_at_end_of_space 3 [0; 3; 1; 3; 2; 0; 1]
           0%nat 2%nat 2%nat ltac:(lia) ltac:(lia)).
Defined.

End WalkMore.

(** ** The projection: boxes have no negative extent *)

Module ProjectMore.
Import Project.

Lemma foldl_Qmin_le (l : list Q) (x : Q) : Qle (foldl Qmin x l) x.
Proof.
  revert x. induction l as [|y l IH]; intros x; simpl; [apply Qle_refl|].
  eapply Qle_trans; [apply IH|apply Q.le_min_l].
Qed.

Lemma foldl_Qmax_ge (l : list Q) (x : Q) : Qle x (foldl Qmax x l).
Proof.
  revert x. induction l as [|y l IH]; intros x; simpl; [apply Qle_refl|].
  eapply Qle_trans; [apply Q.le_max_l|apply IH].
Qed.

Lemma np_min_le_np_max (xs : list Q) (lo hi : Q) :
  np_min xs = Ok lo -> np_max xs = Ok hi -> Qle lo hi.
Proof.
  destruct xs as [|x l]; [done|]. simpl. intros [= <-] [= <-].
  eapply Qle_trans; [apply foldl_Qmin_le|apply foldl_Qmax_ge].
Qed.

Lemma int_of_float_extent (lo hi : Q) :
  Qle lo hi -> 0 <= int_of_float (Qminus hi lo).
Proof.
  unfold Qle, int_of_float. intros H. apply Z.quot_pos; [|lia].
  destruct lo, hi. simpl in *. lia.
Qed.

(** X5. A box the projection produces has no negative extent: the
    [HEIGHT] and [WIDTH] of a word box and the [WIDTH] of a gap box are at
    least [0], whatever the coordinates of the grid are. *)
Theorem box_extent_nonnegative (line_coords : grid) (start ncols : Z) :
  (forall b, string_box line_coords start ncols = Ok b ->
     0 <= HEIGHT b /\ 0 <= WIDTH b)
  /\ (forall w v h, space_box line_coords start ncols = Ok (w, v, h) ->
        0 <= w).
Proof.
  unfold string_box, space_box. split.
  - intros b.
    destruct (np_max (select_y _ _ _)) as [max_y|] eqn:Hmaxy; [|done].
    destruct (np_min (select_y _ _ _)) as [min_y|] eqn:Hminy; [|done].
    destruct (np_max (select_x _ _ _)) as [max_x|] eqn:Hmaxx; [|done].
    destruct (np_min (select_x _ _ _)) as [min_x|] eqn:Hminx; [|done].
    simpl. intros [= <-]. simpl.
    split; apply int_of_float_extent; eapply np_min_le_np_max; eauto.
  - intros w v h.
    destruct (np_max (select_x _ _ _)) as [max_x|] eqn:Hmaxx; [|done].
    destruct (np_min (select_x _ _ _)) as [min_x|] eqn:Hminx; [|done].
    destruct (np_min (select_y _ _ _)) as [min_y|] eqn:Hminy; [|done].
    simpl. intros [= <- _ _].
    apply int_of_float_extent; eapply np_min_le_np_max; eauto.
Qed.


Lemma box_extent_nonnegative_witness :
  string_box [[(inject_Z 3, inject_Z 9); (inject_Z 1, inject_Z 4)]] 0 2
  = Ok (Box 5 2 4 1)
  /\ 0 <= HEIGHT (Box 5 2 4 1) /\ 0 <= WIDTH (Box 5 2 4 1).
Proof.
  split; [reflexivity|].
  exact (proj1 (box_extent_nonnegative
                  [[(inject_Z 3, inject_Z 9); (inject_Z 1, inject_Z 4)]] 0 2)
           (Box 5 2 4 1) eq_refl).
Defined.

End ProjectMore.

(** ** [find_optimal] *)

Module FindOptimalFacts.
Import FindOptimal.

Section Loop.
Context (logit : list (list Q)) (idx : Z).

(** The loop entered with the running maximum [m] and candidate [h]. *)
Lemma find_optimal_loop_outcome (positions : list Z) (m : Q) (h h' : Z) :
  find_optimal_loop logit idx positions m h = Ok h' ->
  (h' = h
   /\ forall p, p ∈ positions ->
        exists w, logit_at logit idx p = Ok w /\ Qle w m)
  \/ (exists (i : nat) (v : Q),
        positions !! i = Some h'
        /\ logit_at logit idx h' = Ok v
        /\ Qlt m v
        /\ forall (j : nat) (p : Z),
             positions !! j = Some p ->
             exists w, logit_at logit idx p = Ok w
                       /\ Qle w v /\ ((j < i)%nat -> Qlt w v)).
Proof.
  revert m h. induction positions as [|item rest IH]; intros m h; simpl.
  - intros [= <-]. left. split; [done|]. intros p Hp. by apply elem_of_nil in Hp.
  - destruct (logit_at logit idx item) as [v|] eqn:Hv; [|done]. simpl.
    destruct (Qlt_le_dec m v) as [Hlt|Hle]; intros Hloop;
      destruct (IH _ _ Hloop) as [[-> Hall]|(i & v' & Hi & Hv' & Hlt' & Hall)].
    + right. exists 0%nat, v. repeat split; [done|done|].
      intros [|j] p; simpl.
      * intros [= <-]. exists v. split; [done|]. split; [apply Qle_refl|lia].
      * intros Hp. destruct (Hall p) as (w & Hw & Hwv).
        { by eapply list_elem_of_lookup_2. }
        exists w. split; [done|]. split; [done|lia].
    + right. exists (S i), v'. split; [done|]. split; [done|].
      split; [by eapply Qlt_trans|].
      intros [|j] p; simpl.
      * intros [= <-]. exists v. split; [done|].
        split; [by apply Qlt_le_weak|done].
      * intros Hp. destruct (Hall j p Hp) as (w & Hw & Hwv & Hjw).
        exists w. split; [done|]. split; [done|]. intros ?. apply Hjw. lia.
    + left. split; [done|]. intros p [->|Hp]%elem_of_cons; [by exists v|].
      by apply Hall.
    + right. exists (S i), v'. split; [done|]. split; [done|]. split; [done|].
      intros [|j] p; simpl.
      * intros [= <-]. exists v. split; [done|].
        assert (Qlt v v') by (by eapply Qle_lt_trans).
        split; [by apply Qlt_le_weak|done].
      * intros Hp. destruct (Hall j p Hp) as (w & Hw & Hwv & Hjw).
        exists w. split; [done|]. split; [done|]. intros ?. apply Hjw. lia.
Qed.

(** The loop raises only what a subscript of a listed position raises, and
    returns when every subscript is in range. *)
Lemma find_optimal_loop_raise (positions : list Z) (m : Q) (h : Z) err :
  find_optimal_loop logit idx positions m h = Raise err ->
  exists p, p ∈ positions /\ logit_at logit idx p = Raise err.
Proof.
  revert m h. induction positions as [|item rest IH]; intros m h; simpl; [done|].
  destruct (logit_at logit idx item) as [v|e] eqn:Hv; simpl.
  - destruct (Qlt_le_dec m v); intros H; destruct (IH _ _ H) as (p & Hp & He);
      exists p; (split; [by right|done]).
  - intros [= <-]. exists item. split; [by left|done].
Qed.

End Loop.

(** X6. What [find_optimal] returns.  Either no listed position has a
    value above [-100] in column [idx] and the result is [-1], or the
    result is the first listed position whose value is the greatest of the
    listed ones, and that value is above [-100]: no listed position has a
    greater value and every position listed before it has a smaller one.
    An exception is the one raised by the subscript of a listed
    position. *)
Theorem find_optimal_first_maximum (logit : list (list Q)) (positions : list Z)
    (idx : Z) :
  (forall highest,
      find_optimal logit positions idx = Ok highest ->
      (highest = -1
       /\ forall p, p ∈ positions ->
            exists w, logit_at logit idx p = Ok w /\ Qle w (inject_Z (-100)))
      \/ (exists (i : nat) (v : Q),
            positions !! i = Some highest
            /\ logit_at logit idx highest = Ok v
            /\ Qlt (inject_Z (-100)) v
            /\ forall (j : nat) (p : Z),
                 positions !! j = Some p ->
                 exists w, logit_at logit idx p = Ok w
                           /\ Qle w v /\ ((j < i)%nat -> Qlt w v)))
  /\ (forall err,
        find_optimal logit positions idx = Raise err ->
        exists p, p ∈ positions /\ logit_at logit idx p = Raise err).
Proof.
  split.
  - intros highest. apply find_optimal_loop_outcome.
  - intros err. apply find_optimal_loop_raise.
Qed.


Lemma find_optimal_first_maximum_witness :
  find_optimal [[1; 5]; [2; 7]; [3; 7]]%Q [0; 1; 2] 1 = Ok 1
  /\ ((1 = -1
       /\ forall p, p ∈ [0; 1; 2] ->
            exists w, logit_at [[1; 5]; [2; 7]; [3; 7]]%Q 1 p = Ok w
                      /\ Qle w (inject_Z (-100)))
      \/ (exists (i : nat) (v : Q),
            [0; 1; 2] !! i = Some 1
            /\ logit_at [[1; 5]; [2; 7]; [3; 7]]%Q 1 1 = Ok v
            /\ Qlt (inject_Z (-100)) v
            /\ forall (j : nat) (p : Z),
                 [0; 1; 2] !! j = Some p ->
                 exists w, logit_at [[1; 5]; [2; 7]; [3; 7]]%Q 1 p = Ok w
                           /\ Qle w v /\ ((j < i)%nat -> Qlt w v))).
Proof.
  split; [reflexivity|].
  exact (proj1 (find_optimal_first_maximum [[1; 5]; [2; 7]; [3; 7]]%Q
                  [0; 1; 2] 1) 1 eq_refl).
Defined.

End FindOptimalFacts.

(** ** The labels of a transcription *)

Module LabelFacts.
Import AltoWrite.

Lemma char_to_num_none (characters : list ascii) (n : Z) (item : ascii) :
  char_to_num characters n item = None <-> item ∉ characters.
Proof.
  revert n. induction characters as [|c rest IH]; intros n; simpl.
  - split; [intros _; apply not_elem_of_nil|done].
  - rewrite not_elem_of_cons.
    destruct (char_to_num rest (n + 1) item) eqn:Hr.
    + split; [done|]. intros [_ Hin]. apply (IH (n + 1)) in Hin. congruence.
    + apply IH in Hr. case_bool_decide; split; try done.
      intros [? _]. congruence.
Qed.

Lemma char_to_num_some (characters : list ascii) (n : Z) (item : ascii) (k : Z) :
  char_to_num characters n item = Some k ->
  n <= k < n + Z.of_nat (length characters)
  /\ characters !! Z.to_nat (k - n) = Some item
  /\ forall j : nat, (Z.to_nat (k - n) < j)%nat -> characters !! j <> Some item.
Proof.
  revert n. induction characters as [|c rest IH]; intros n; simpl; [done|].
  destruct (char_to_num rest (n + 1) item) as [k'|] eqn:Hrest.
  - intros [= ->]. destruct (IH _ Hrest) as (Hk & Hat & Hlast).
    split; [lia|].
    replace (Z.to_nat (k - n)) with (S (Z.to_nat (k - (n + 1)))) by lia.
    split; [done|].
    intros [|j] Hj; [lia|]. simpl. apply Hlast. lia.
  - case_bool_decide as Hc; [|done]. intros [= <-]. subst c.
    replace (Z.to_nat (n - n)) with 0%nat by lia.
    split; [lia|]. split; [done|].
    intros [|j] Hj; [lia|]. simpl. intros Hj'.
    assert (Hin : item ∈ rest) by (by eapply list_elem_of_lookup_2).
    by apply char_to_num_none in Hrest.
Qed.

(** X7. The labels handed to the aligner.  [label_of] succeeds exactly
    when every character of the transcription is in the alphabet of the
    line, and raises [KeyError] otherwise.  On success there is one label
    per character, each label is a position of the alphabet (so it is
    never the blank, [len(characters)]), the alphabet holds the character
    at that position, and at no later position: a character listed twice
    is labelled with its last position. *)
Theorem label_of_positions (characters : list ascii) (transcription : string) :
  let text := list_ascii_of_string transcription in
  match label_of characters transcription with
  | Ok label =>
      Forall (fun c => c ∈ characters) text
      /\ Forall2
           (fun c k =>
              0 <= k < Z.of_nat (length characters)
              /\ characters !! Z.to_nat k = Some c
              /\ forall j : nat,
                   (Z.to_nat k < j)%nat -> characters !! j <> Some c)
           text label
  | Raise err =>
      err = KeyError /\ Exists (fun c => c ∉ characters) text
  end.
Proof.
  intros text. unfold label_of. fold text. clearbody text.
  induction text as [|c text IH]; simpl; [by split; constructor|].
  destruct (char_to_num characters 0 c) as [k|] eqn:Hk; simpl.
  - destruct (char_to_num_some _ _ _ _ Hk) as (Hr & Hat & Hlast).
    rewrite Z.sub_0_r in Hat, Hlast.
    destruct (res_mapM _ text) as [label|err]; simpl.
    + destruct IH as [Hin Hall]. split.
      * constructor; [by eapply list_elem_of_lookup_2|done].
      * constructor; [|done]. split; [lia|done].
    + destruct IH as [-> Hex]. split; [done|]. by apply Exists_cons_tl.
  - split; [done|]. apply Exists_cons_hd. by apply char_to_num_none in Hk.
Qed.

End LabelFacts.

(** ** The namespace of a tag and the text of a polygon *)

Module PageTextMore.
Import ET PyStr PyStrFacts PageXML PageTextFacts.
Local Open Scope string_scope.

Lemma before_sep_app (sep : ascii) (s rest : string) :
  str_all (fun c => negb (bool_decide (c = sep))) s = true ->
  before_sep sep (s ++ String sep rest) = s.
Proof.
  induction s as [|c s IH]; simpl.
  - intros _. by rewrite bool_decide_eq_true_2.
  - intros [Hc Hs]%andb_true_iff. apply negb_true_iff in Hc.
    rewrite Hc. by rewrite IH.
Qed.

(** X8. [element_schema] gives the namespace of the tag of an element in
    braces: for the tag [{ns}local], with no closing brace inside [ns], the
    result is [{ns}], so that the result followed by [local] is the tag
    again.  An element whose tag is not qualified (it does not start with
    an opening brace) makes the function raise [TypeError], whatever the
    rest of the element is; an empty tag raises [IndexError]. *)
Theorem element_schema_of_qualified_tag :
  (forall (ns local : string) attrib text children,
      str_all (fun c => negb (bool_decide (c = "}"%char))) ns = true ->
      element_schema (El ("{" ++ ns ++ "}" ++ local) attrib text children)
      = Ok ("{" ++ ns ++ "}"))
  /\ (forall (c : ascii) (rest : string) attrib text children,
        c <> "{"%char ->
        element_schema (El (String c rest) attrib text children)
        = Raise TypeError)
  /\ (forall attrib text children,
        element_schema (El "" attrib text children) = Raise IndexError).
Proof.
  split; [|split].
  - intros ns local attrib text children Hns. unfold element_schema.
    cbn [tag].
    change ("{" ++ ns ++ "}" ++ local) with (String "{" (ns ++ "}" ++ local)).
    cbv beta iota.
    change ("}" ++ local) with (String "}" local).
    by rewrite before_sep_app.
  - intros c rest attrib text children Hc. unfold element_schema. cbn [tag].
    destruct c as [[] [] [] [] [] [] [] []]; try done.
  - done.
Qed.

Lemma element_schema_of_qualified_tag_witness :
  str_all (fun c => negb (bool_decide (c = "}"%char))) "urn:page" = true
  /\ element_schema (El ("{" ++ "urn:page" ++ "}" ++ "PcGts") [] None [])
     = Ok ("{" ++ "urn:page" ++ "}").
Proof.
  split; [reflexivity|].
  exact (proj1 element_schema_of_qualified_tag "urn:page" "PcGts" [] None []
           eq_refl).
Defined.

(** X9. The text written for a polygon is read back to the same points:
    [points_string_to_array] undoes [points_string] on every list of
    points that is not empty.  The text of an empty list is the empty
    string, which cannot be read: the reader raises [ValueError]. *)
Theorem points_string_read_back (points : list point) :
  points_string_to_array (points_string points)
  = match points with
    | [] => Raise ValueError
    | _ :: _ => Ok points
    end.
Proof.
  destruct points as [|p points]; [reflexivity|].
  by apply points_string_to_array_points_string.
Qed.

End PageTextMore.

(** ** The print space of an ALTO page *)

Module PrintSpaceFacts.
Import AltoWrite.

Lemma foldl_Zmin_le (l : list Z) (x : Z) :
  foldl Z.min x l <= x /\ forall y, y ∈ l -> foldl Z.min x l <= y.
Proof.
  revert x. induction l as [|a l IH]; intros x; simpl.
  - split; [lia|]. intros y Hy. by apply elem_of_nil in Hy.
  - destruct (IH (Z.min x a)) as [H1 H2]. split; [lia|].
    intros y [->|Hy]%elem_of_cons; [lia|]. by apply H2.
Qed.

Lemma foldl_Zmax_ge (l : list Z) (x : Z) :
  x <= foldl Z.max x l /\ forall y, y ∈ l -> y <= foldl Z.max x l.
Proof.
  revert x. induction l as [|a l IH]; intros x; simpl.
  - split; [lia|]. intros y Hy. by apply elem_of_nil in Hy.
  - destruct (IH (Z.max x a)) as [H1 H2]. split; [lia|].
    intros y [->|Hy]%elem_of_cons; [lia|]. by apply H2.
Qed.

(** The extent of a coordinate over a polygon bounds every point of it. *)
Lemma column_extent_bounds (k : point -> Z) (polygon : list point) (lo hi : Z) :
  column_extent k (Some polygon) = Ok (lo, hi) ->
  forall pt, pt ∈ polygon -> lo <= k pt <= hi.
Proof.
  destruct polygon as [|p ps]; [done|]. simpl. intros [= <- <-] pt Hpt.
  destruct (foldl_Zmin_le (k <$> ps) (k p)) as [Hmin Hmins].
  destruct (foldl_Zmax_ge (k <$> ps) (k p)) as [Hmax Hmaxs].
  apply elem_of_cons in Hpt as [->|Hpt]; [lia|].
  assert (k pt ∈ k <$> ps) by (by apply list_elem_of_fmap_2).
  specialize (Hmins _ H). specialize (Hmaxs _ H). lia.
Qed.

Section Collaborators.
Context (force_align : list (list Q) -> list Z -> Z -> res (list Z))
        (get_crop_inputs : option (list point) -> option (list Q) -> Z
                           -> res Project.grid)
        (to_column : nat -> nat -> Z -> Z).

Let blocks_to_alto := blocks_to_alto force_align get_crop_inputs to_column.

(** The print space only grows, and covers every block passed. *)
Lemma print_space_grows (blocks : list RegionLayout.t) (h0 w0 v0 p0 : Z)
    text_blocks (h w v p : Z) :
  blocks_to_alto blocks (h0, w0, v0, p0) = Ok (text_blocks, (h, w, v, p)) ->
  (v <= v0 /\ v0 + h0 <= v + h /\ p <= p0 /\ p0 + w0 <= p + w)
  /\ forall block x y,
       block ∈ blocks -> (x, y) ∈ RegionLayout.polygon block ->
       (v <= y <= v + h) /\ (p <= x <= p + w).
Proof.
  subst blocks_to_alto. revert h0 w0 v0 p0 text_blocks.
  induction blocks as [|block rest IH]; intros h0 w0 v0 p0 text_blocks; simpl.
  - intros [= <- <- <- <- <-]. split; [lia|].
    intros block x y Hb. by apply elem_of_nil in Hb.
  - unfold block_to_alto.
    destruct (column_extent snd _) as [[bv bvmax]|] eqn:Hy; [|done].
    cbn [mbind res_bind].
    destruct (column_extent fst _) as [[bp bpmax]|] eqn:Hx; [|done].
    cbn [mbind res_bind].
    destruct (res_mapM _ _) as [text_lines|]; [|done].
    cbn [mbind res_bind print_space_step].
    destruct (AltoWrite.blocks_to_alto _ _ _ rest _)
      as [[text_blocks' [[[h1 w1] v1] p1]]|] eqn:Hrest; [|done].
    cbn [mbind res_bind]. intros [= <- <- <- <- <-].
    destruct (IH _ _ _ _ _ Hrest) as [Hgrow Hcover].
    split; [lia|].
    intros b x y [->|Hb]%elem_of_cons Hpt; [|by eapply Hcover].
    pose proof (column_extent_bounds snd _ _ _ Hy _ Hpt) as Hy'.
    pose proof (column_extent_bounds fst _ _ _ Hx _ Hpt) as Hx'.
    simpl in Hy', Hx'. lia.
Qed.

End Collaborators.

(** X10. The print space of a written ALTO page.  Whatever the aligner,
    the cropper and the column scaling do, the print space that results
    from the blocks of a page of height [H] and width [W] contains every
    point of every block polygon, and it always reaches the bottom right
    corner of the page: its top is at or above [H] and its bottom at or
    below [H], its left edge at or left of [W] and its right edge at or
    right of [W].  The heights [H - (vpos + height)] of the bottom margin
    and [W - (hpos + width)] of the right margin that [to_altoxml_string]
    writes are therefore never positive. *)
Theorem print_space_reaches_page_corner
    (force_align : list (list Q) -> list Z -> Z -> res (list Z))
    (get_crop_inputs : option (list point) -> option (list Q) -> Z
                       -> res Project.grid)
    (to_column : nat -> nat -> Z -> Z)
    (blocks : list RegionLayout.t) (H W : Z) text_blocks (h w v p : Z) :
  blocks_to_alto force_align get_crop_inputs to_column blocks (0, 0, H, W)
  = Ok (text_blocks, (h, w, v, p)) ->
  (v <= H <= v + h /\ p <= W <= p + w)
  /\ (H - (v + h) <= 0 /\ W - (p + w) <= 0)
  /\ forall block x y,
       block ∈ blocks -> (x, y) ∈ RegionLayout.polygon block ->
       (v <= y <= v + h) /\ (p <= x <= p + w).
Proof.
  intros Hps.
  destruct (print_space_grows _ _ _ _ _ _ _ _ _ _ _ _ _ Hps) as [Hgrow Hcover].
  split; [lia|]. split; [lia|]. exact Hcover.
Qed.

Lemma print_space_reaches_page_corner_witness :
  blocks_to_alto (fun _ _ _ => Ok []) (fun _ _ _ => Ok [])
    (fun _ _ c => c)
    [RegionLayout.Make "r1" [(2, 3); (7, 3); (7, 9); (2, 9)] [] None]
    (0, 0, 20, 10)
  = Ok ([ET.El "TextBlock"
           [("ID", "r1"); ("HEIGHT", "6"); ("WIDTH", "5");
            ("VPOS", "3"); ("HPOS", "2")]%string None []],
        (17, 8, 3, 2))
  /\ (3 <= 20 <= 3 + 17 /\ 2 <= 10 <= 2 + 8).
Proof.
  split; [reflexivity|].
  exact (proj1 (print_space_reaches_page_corner (fun _ _ _ => Ok [])
                  (fun _ _ _ => Ok []) (fun _ _ c => c)
                  [RegionLayout.Make "r1" [(2, 3); (7, 3); (7, 9); (2, 9)] []
                     None]
                  20 10 _ 17 8 3 2 eq_refl)).
Defined.

End PrintSpaceFacts.

(** ** The logits snapshot: what [save_logits] writes and [load_logits]
    reads back *)

Module SnapshotFacts.
Import Logits LogitsFacts SaveLogits.
Local Open Scope string_scope.

(** *** Loops that stop at the first exception *)

Lemma res_mapM_first_raise {A B} (f : A -> res B) (before after : list A)
    (a : A) err :
  Forall (fun x => exists b, f x = Ok b) before ->
  f a = Raise err ->
  res_mapM f (before ++ a :: after)%list = Raise err.
Proof.
  intros Hbefore Ha.
  induction Hbefore as [|x before [b Hb] _ IH]; simpl.
  - by rewrite Ha.
  - by rewrite Hb, IH.
Qed.

Lemma res_mapM_all {A B} (f : A -> res B) (l : list A) :
  Forall (fun x => exists b, f x = Ok b) l -> exists bs, res_mapM f l = Ok bs.
Proof.
  induction 1 as [|x l [b Hb] _ [bs IH]]; simpl; [by eexists|].
  rewrite Hb, IH. by eexists.
Qed.

Lemma update_each_app {A} (f : A -> A * res unit) (l1 l2 : list A) :
  update_each f (l1 ++ l2)%list
  = match update_each f l1 with
    | (l1', Raise err) => ((l1' ++ l2)%list, Raise err)
    | (l1', Ok _) =>
        let '(l2', r) := update_each f l2 in ((l1' ++ l2')%list, r)
    end.
Proof.
  induction l1 as [|a l1 IH]; simpl.
  - by destruct (update_each f l2).
  - destruct (f a) as [a' [[]|err]]; [|done].
    rewrite IH. destruct (update_each f l1) as [l1' [[]|err]]; [|done].
    by destruct (update_each f l2).
Qed.

Lemma update_each_all {A} (f : A -> A * res unit) (g : A -> A) (l : list A) :
  Forall (fun a => f a = (g a, Ok ())) l ->
  update_each f l = (g <$> l, Ok ()).
Proof.
  induction 1 as [|a l Ha _ IH]; simpl; [done|]. by rewrite Ha, IH.
Qed.

Lemma update_each_stops {A} (f : A -> A * res unit) (g : A -> A)
    (before after : list A) (a a' : A) err :
  Forall (fun x => f x = (g x, Ok ())) before ->
  f a = (a', Raise err) ->
  update_each f (before ++ a :: after)%list
  = (((g <$> before) ++ a' :: after)%list, Raise err).
Proof.
  intros Hbefore Ha. rewrite update_each_app.
  rewrite (update_each_all f g before Hbefore). simpl. by rewrite Ha.
Qed.

(** *** The two loops of [load_logits] as one loop over the lines *)

Section Snapshot.
Context (logits_dict : gmap string pickled) (file_name : string).

Let load := load_line logits_dict (characters_of logits_dict) file_name.
Let load_r := load_region logits_dict (characters_of logits_dict) file_name.

Lemma load_regions_lines (regions : list RegionLayout.t) :
  flat_map RegionLayout.lines (fst (update_each load_r regions))
  = fst (update_each load (flat_map RegionLayout.lines regions))
  /\ snd (update_each load_r regions)
     = snd (update_each load (flat_map RegionLayout.lines regions)).
Proof.
  induction regions as [|r rest [IH1 IH2]]; simpl; [done|].
  rewrite update_each_app.
  unfold load_r at 1 3. unfold load_region. fold load.
  destruct (update_each load (RegionLayout.lines r)) as [lines [[]|err]];
    simpl; [|done].
  fold load_r.
  destruct (update_each load_r rest) as [rest' r1].
  destruct (update_each load (flat_map RegionLayout.lines rest)) as [lines' r2].
  simpl in *. by subst.
Qed.

Lemma load_logits_lines
    (pickle_load : string -> res (gmap string pickled)) (self : PageLayout.t) :
  pickle_load file_name = Ok logits_dict ->
  PageLayout.lines_iterator (fst (load_logits pickle_load file_name self))
  = fst (update_each load (PageLayout.lines_iterator self))
  /\ snd (load_logits pickle_load file_name self)
     = snd (update_each load (PageLayout.lines_iterator self)).
Proof.
  intros Hload. unfold load_logits, PageLayout.lines_iterator. rewrite Hload.
  destruct (load_regions_lines (PageLayout.regions self)) as [H1 H2].
  fold load_r.
  destruct (update_each load_r (PageLayout.regions self)). simpl in *.
  done.
Qed.


End Snapshot.

(** *** The dictionary built from a list of pairs *)

Lemma foldl_insert_other {V} (pairs : list (string * V)) (m : gmap string V)
    (k : string) :
  k ∉ fst <$> pairs ->
  foldl (fun m kv => <[fst kv := snd kv]> m) m pairs !! k = m !! k.
Proof.
  revert m. induction pairs as [|[k' v'] pairs IH]; intros m; simpl; [done|].
  intros [Hk Hin]%not_elem_of_cons. rewrite IH by done.
  by rewrite lookup_insert_ne.
Qed.



(** *** What a successful [save_logits] has stored *)





Lemma save_logits_checked (self : PageLayout.t) (d : gmap string pickled) :
  save_logits self = Ok d ->
  Forall (fun l => is_Some (TextLine.logits l)
                   /\ is_Some (TextLine.characters l))
         (PageLayout.lines_iterator self).
Proof.
  unfold save_logits.
  destruct (res_mapM check_line _) as [checked|] eqn:Hc; [|done]. intros _.
  apply ReaderFacts.res_mapM_ok in Hc. apply Forall_forall. intros l Hl.
  apply list_elem_of_lookup in Hl as [i Hi].
  destruct (Forall2_lookup_l _ _ _ _ _ Hc Hi) as (u & _ & Hu).
  unfold check_line in Hu.
  destruct (TextLine.logits l); [|done].
  destruct (TextLine.characters l); [|done]. split; by eexists.
Qed.

(** X11. [save_logits] refuses a page with an incomplete line, naming the
    line: when every line before [line], in page order, has its matrix and
    its alphabet, a [line] without matrix makes it raise ["Missing logits
    for line <id>."], and a [line] with a matrix and without alphabet
    ["Missing logit mapping to characters for line <id>."].  A call that
    does not raise has found both on every line of the page. *)
Theorem save_logits_names_incomplete_line (self : PageLayout.t) :
  (forall before line after,
      PageLayout.lines_iterator self = (before ++ line :: after)%list ->
      Forall (fun l => is_Some (TextLine.logits l)
                       /\ is_Some (TextLine.characters l)) before ->
      (TextLine.logits line = None ->
       save_logits self = Raise (MissingLogits (TextLine.id line)))
      /\ (is_Some (TextLine.logits line) ->
          TextLine.characters line = None ->
          save_logits self = Raise (MissingCharacters (TextLine.id line))))
  /\ (forall d, save_logits self = Ok d ->
        Forall (fun l => is_Some (TextLine.logits l)
                         /\ is_Some (TextLine.characters l))
               (PageLayout.lines_iterator self)).
Proof.
  split; [|apply save_logits_checked].
  intros before line after Hlines Hbefore.
  assert (Hchecked : Forall (fun x => exists b, check_line x = Ok b) before).
  { eapply Forall_impl; [exact Hbefore|].
    intros l [[v Hv] [c Hc]]. unfold check_line. rewrite Hv, Hc. by eexists. }
  unfold save_logits. rewrite Hlines. split.
  - intros Hnone.
    rewrite (res_mapM_first_raise check_line before after line
               (MissingLogits (TextLine.id line))); [done|done|].
    unfold check_line. by rewrite Hnone.
  - intros [v Hv] Hnone.
    rewrite (res_mapM_first_raise check_line before after line
               (MissingCharacters (TextLine.id line))); [done|done|].
    unfold check_line. by rewrite Hv, Hnone.
Qed.

(** A page of one region with the lines [l1], complete, and [l2], which
    has a matrix and no alphabet. *)
Definition complete_line (id : string) : TextLine.t :=
  TextLine.Make (Some id) None None None None
    (Some (Matrix [[0%Q; 1%Q]])) (Some ["a"; "b"]%char).

Definition page_of (lines : list TextLine.t) : PageLayout.t :=
  PageLayout.Make (Some "page.jpg") (200, 300)%Z
    [RegionLayout.Make "r1" [(0, 0); (10, 0); (10, 10)]%Z lines None].

Lemma save_logits_names_incomplete_line_witness :
  save_logits
    (page_of [complete_line "l1";
              TextLine.set_logits (Some (Matrix [])) None (TextLine.new (Some "l2"))])
  = Raise (Exception "Missing logit mapping to characters for line l2.").
Proof.
  refine (proj2 (proj1 (save_logits_names_incomplete_line
                          (page_of [complete_line "l1";
                                    TextLine.set_logits (Some (Matrix [])) None
                                      (TextLine.new (Some "l2"))]))
                   [complete_line "l1"]
                   (TextLine.set_logits (Some (Matrix [])) None
                      (TextLine.new (Some "l2")))
                   [] eq_refl _) _ eq_refl).
  - repeat constructor; by eexists.
  - by eexists.
Defined.



(** X13. [load_logits] is not atomic.  When the first line without entry
    in the snapshot comes after lines that have their entries, the call
    raises for that line after it has given every earlier line its matrix:
    the page is left with the lines before the failing one updated, and
    the failing line and every later line as they were. *)
Theorem load_logits_stops_half_way
    (pickle_load : string -> res (gmap string pickled)) (file_name : string)
    (logits_dict : gmap string pickled) (self : PageLayout.t)
    (before after : list TextLine.t) (line : TextLine.t) :
  pickle_load file_name = Ok logits_dict ->
  PageLayout.lines_iterator self = (before ++ line :: after)%list ->
  Forall (fun l => is_Some (entry logits_dict (TextLine.id l))
                   /\ has_alphabet logits_dict (TextLine.id l)) before ->
  entry logits_dict (TextLine.id line) = None ->
  snd (load_logits pickle_load file_name self)
  = Raise (MissingLineData (TextLine.id line) file_name)
  /\ exists before',
       PageLayout.lines_iterator (fst (load_logits pickle_load file_name self))
       = (before' ++ line :: after)%list
       /\ Forall2
            (fun l l' =>
               TextLine.logits l' = entry logits_dict (TextLine.id l)
               /\ TextLine.id l' = TextLine.id l
               /\ TextLine.transcription l' = TextLine.transcription l)
            before before'.
Proof.
  intros Hload Hlines Hbefore Hline.
  destruct (load_logits_lines logits_dict file_name pickle_load self Hload)
    as [-> ->].
  rewrite Hlines.
  set (load := load_line logits_dict (characters_of logits_dict) file_name).
  rewrite (update_each_stops load (fun l => fst (load l)) before after line
             line (MissingLineData (TextLine.id line) file_name)).
  - simpl. split; [done|]. eexists. split; [done|].
    apply Forall2_fmap_r, Forall_Forall2_diag.
    eapply Forall_impl; [exact Hbefore|].
    intros l [[v Hv] _]. unfold compose. subst load. cbv beta.
    unfold load_line. rewrite Hv.
    destruct (TextLine.id l) as [k|] eqn:Hk; [|done].
    destruct (characters_at (characters_of logits_dict) k); simpl;
      by rewrite Hk.
  - eapply Forall_impl; [exact Hbefore|].
    intros l [Hl Ha].
    pose proof (load_line_present logits_dict file_name l Hl Ha) as Hok.
    fold load in Hok. by destruct (load l) as [l' [[]|]].
  - by apply load_line_missing.
Qed.

Lemma load_logits_stops_half_way_witness :
  snd (load_logits (fun _ => Ok {["l1" := Matrix [[0%Q; 1%Q]]]}) "page.logits"
         (page_of [TextLine.new (Some "l1"); TextLine.new (Some "l2")]))
  = Raise (MissingLineData (Some "l2") "page.logits")
  /\ exists before',
       PageLayout.lines_iterator
         (fst (load_logits (fun _ => Ok {["l1" := Matrix [[0%Q; 1%Q]]]})
                 "page.logits"
                 (page_of [TextLine.new (Some "l1"); TextLine.new (Some "l2")])))
       = (before' ++ TextLine.new (Some "l2") :: [])%list
       /\ Forall2
            (fun l l' =>
               TextLine.logits l'
               = entry {["l1" := Matrix [[0%Q; 1%Q]]]} (TextLine.id l)
               /\ TextLine.id l' = TextLine.id l
               /\ TextLine.transcription l' = TextLine.transcription l)
            [TextLine.new (Some "l1")] before'.
Proof.
  refine (load_logits_stops_half_way
            (fun _ => Ok {["l1" := Matrix [[0%Q; 1%Q]]]}) "page.logits"
            {["l1" := Matrix [[0%Q; 1%Q]]]}
            (page_of [TextLine.new (Some "l1"); TextLine.new (Some "l2")])
            [TextLine.new (Some "l1")] [] (TextLine.new (Some "l2"))
            eq_refl eq_refl _ eq_refl).
  repeat constructor; by eexists.
Defined.

End SnapshotFacts.

(** ** What the readers leave in the page *)

Module ReaderMore.
Import ET PyStr PageXML AltoRead ReaderFacts.
Local Open Scope string_scope.

(** The loop over the region elements never touches the id, the size or
    the regions the page had when it was entered. *)
Lemma append_regions_keeps read elements self :
  let out := fst (append_regions read elements self) in
  PageLayout.id out = PageLayout.id self
  /\ PageLayout.page_size out = PageLayout.page_size self
  /\ exists added,
       PageLayout.regions out = (PageLayout.regions self ++ added)%list.
Proof.
  revert self. induction elements as [|e rest IH]; intros self; simpl.
  - repeat split. exists []. by rewrite app_nil_r.
  - destruct (read e) as [region|err]; simpl.
    + destruct (IH (PageLayout.Make (PageLayout.id self)
                      (PageLayout.page_size self)
                      (PageLayout.regions self ++ [region])))
        as (Hid & Hsize & added & Hadded).
      simpl in *. repeat split; [done|done|].
      exists (region :: added). rewrite Hadded.
      by rewrite <- app_assoc.
    + repeat split. exists []. by rewrite app_nil_r.
Qed.

(** X14. The readers only append.  Whatever the document is, and whether
    the call returns or raises, the regions a page held before
    [from_pagexml] or [from_altoxml] are still there afterwards, in the
    same order and unchanged, before any region the call added: reading a
    second document into a page does not replace the first. *)
Theorem readers_keep_existing_regions (root : Element) (self : PageLayout.t) :
  (exists added,
      PageLayout.regions (fst (from_pagexml_tree root self))
      = (PageLayout.regions self ++ added)%list)
  /\ (exists added,
        PageLayout.regions (fst (from_altoxml_tree root self))
        = (PageLayout.regions self ++ added)%list).
Proof.
  assert (Hnil : forall regions : list RegionLayout.t,
            exists added, regions = (regions ++ added)%list).
  { intros regions. exists []. by rewrite app_nil_r. }
  split.
  - unfold from_pagexml_tree.
    destruct (element_schema root) as [schema|]; [|apply Hnil].
    destruct (findall root _) as [|page ?]; [apply Hnil|].
    destruct (attr page "imageFilename") as [id|]; [|apply Hnil].
    destruct (_ ≫= _) as [page_size|]; [|apply Hnil].
    match goal with
    | |- context [append_regions ?read ?els ?s] =>
        destruct (append_regions_keeps read els s) as (_ & _ & added & ->)
    end.
    by exists added.
  - unfold from_altoxml_tree.
    destruct (element_schema root) as [schema|]; [|apply Hnil].
    destruct (findall root _) as [|layout ?]; [apply Hnil|].
    destruct (findall layout _) as [|page ?]; [apply Hnil|].
    destruct (attr page "ID") as [id|]; [|apply Hnil].
    destruct (_ ≫= _) as [page_size|]; [|apply Hnil].
    destruct (findall page _) as [|print_space ?]; [apply Hnil|].
    match goal with
    | |- context [append_regions ?read ?els ?s] =>
        destruct (append_regions_keeps read els s) as (_ & _ & added & ->)
    end.
    by exists added.
Qed.

(** *** A page read from an ALTO document *)

(** The shape of a line and of a region built by [from_altoxml]. *)
Definition alto_line (l : TextLine.t) : Prop :=
  exists hpos baseline width height vpos transcription,
    l = TextLine.Make None
          (Some [(hpos, baseline); (hpos + width, baseline)]%Z)
          (Some (rectangle hpos vpos width height))
          (Some [inject_Z (height + vpos - baseline);
                 inject_Z (baseline - vpos)])
          (Some transcription) None None.

Definition alto_region (r : RegionLayout.t) : Prop :=
  (exists hpos vpos width height,
      RegionLayout.polygon r = rectangle hpos vpos width height)
  /\ Forall alto_line (RegionLayout.lines r).

Lemma line_from_alto_shape line schema l :
  line_from_alto line schema = Ok l -> alto_line l.
Proof.
  unfold line_from_alto.
  destruct (int_attr line "HPOS") as [hpos|]; [simpl|done].
  destruct (int_attr line "BASELINE") as [baseline|]; [simpl|done].
  destruct (int_attr line "WIDTH") as [width|]; [simpl|done].
  destruct (int_attr line "HEIGHT") as [height|]; [simpl|done].
  destruct (int_attr line "VPOS") as [vpos|]; [simpl|done].
  destruct (join_content _ _ _) as [tr|]; [simpl|done].
  intros [= <-]. by exists hpos, baseline, width, height, vpos, tr.
Qed.

Lemma region_from_alto_shape region schema r :
  region_from_alto region schema = Ok r -> alto_region r.
Proof.
  unfold region_from_alto.
  destruct (int_get region "HPOS") as [hpos|]; [simpl|done].
  destruct (int_get region "VPOS") as [vpos|]; [simpl|done].
  destruct (int_get region "WIDTH") as [width|]; [simpl|done].
  destruct (int_get region "HEIGHT") as [height|]; [simpl|done].
  destruct (attr region "ID") as [id|]; [simpl|done].
  destruct (res_mapM _ _) as [lines|] eqn:Hlines; [simpl|done].
  intros [= <-]. split; simpl; [by eexists _, _, _, _|].
  apply res_mapM_ok in Hlines.
  induction Hlines as [|e l es ls He _ IH]; constructor; [|done].
  by eapply line_from_alto_shape.
Qed.

Lemma from_altoxml_tree_shape root self page :
  from_altoxml_tree root self = (page, Ok ()) ->
  PageLayout.regions self = [] ->
  is_Some (PageLayout.id page)
  /\ Forall alto_region (PageLayout.regions page).
Proof.
  unfold from_altoxml_tree.
  destruct (element_schema root) as [schema|]; [|done].
  destruct (findall root _) as [|layout ?]; [done|].
  destruct (findall layout _) as [|p ?]; [done|].
  destruct (attr p "ID") as [id|]; [|done].
  destruct (_ ≫= _) as [page_size|]; [|done].
  destruct (findall p _) as [|print_space ?]; [done|].
  intros Happ Hnil.
  match type of Happ with
  | append_regions ?read ?els ?s = _ =>
      destruct (append_regions_keeps read els s) as (Hid & _ & _)
  end.
  rewrite Happ in Hid. simpl in Hid. split; [by rewrite Hid|].
  apply append_regions_ok in Happ as (new & -> & Hall). simpl.
  rewrite Hnil. simpl.
  induction Hall as [|e r es rs He _ IH]; constructor; [|done].
  by eapply region_from_alto_shape.
Qed.

(** The first line of such a page, the regions before it being empty. *)
Lemma first_line (regions : list RegionLayout.t) :
  flat_map RegionLayout.lines regions <> [] ->
  exists empty region rest line lines,
    regions = (empty ++ region :: rest)%list
    /\ Forall (fun r => RegionLayout.lines r = []) empty
    /\ RegionLayout.lines region = line :: lines.
Proof.
  induction regions as [|r regions IH]; simpl; [done|].
  destruct (RegionLayout.lines r) as [|line lines] eqn:Hr.
  - simpl. intros Hne.
    destruct (IH Hne) as (empty & region & rest & l & ls & -> & He & Hl).
    exists (r :: empty), region, rest, l, ls. split; [done|].
    split; [by constructor|done].
  - intros _. exists [], r, regions, line, lines. by repeat split.
Qed.

Lemma pagexml_regions_without_id (regions : list RegionLayout.t) :
  Forall alto_region regions ->
  flat_map RegionLayout.lines regions <> [] ->
  res_mapM region_to_page_xml regions = Raise TypeError.
Proof.
  intros Hall Hne.
  destruct (first_line regions Hne)
    as (empty & region & rest & line & lines & -> & Hempty & Hlines).
  apply Forall_app in Hall as [_ Hall].
  apply Forall_cons in Hall as [[_ Hregion] _].
  rewrite Hlines in Hregion. apply Forall_cons in Hregion as [Hline _].
  assert (Hbad : region_to_page_xml region = Raise TypeError).
  { unfold region_to_page_xml. rewrite Hlines.
    destruct Hline as (? & ? & ? & ? & ? & ? & ->). done. }
  clear Hne.
  induction Hempty as [|r empty Hr _ IH]; cbn [app res_mapM].
  - by rewrite Hbad.
  - assert (exists el, region_to_page_xml r = Ok el) as [el ->].
    { unfold region_to_page_xml. rewrite Hr. by eexists. }
    cbn [mbind res_bind]. by rewrite IH.
Qed.

Lemma load_regions_without_id (logits_dict : gmap string pickled)
    (characters : pickled) (file_name : string)
    (regions : list RegionLayout.t) :
  Forall alto_region regions ->
  flat_map RegionLayout.lines regions <> [] ->
  Logits.update_each
    (Logits.load_region logits_dict characters file_name) regions
  = (regions, Raise (Logits.MissingLineData None file_name)).
Proof.
  intros Hall Hne.
  destruct (first_line regions Hne)
    as (empty & region & rest & line & lines & -> & Hempty & Hlines).
  apply Forall_app in Hall as [_ Hall].
  apply Forall_cons in Hall as [[_ Hregion] _].
  rewrite Hlines in Hregion. apply Forall_cons in Hregion as [Hline _].
  set (load_r := Logits.load_region logits_dict characters file_name).
  assert (Hbad : load_r region
                 = (region, Raise (Logits.MissingLineData None file_name))).
  { subst load_r. unfold Logits.load_region. rewrite Hlines.
    destruct Hline as (? & ? & ? & ? & ? & ? & ->). simpl.
    destruct region. simpl in *. by subst. }
  clear Hne.
  induction Hempty as [|r empty Hr _ IH]; cbn [app Logits.update_each].
  - by rewrite Hbad.
  - assert (load_r r = (r, Ok ())) as ->.
    { subst load_r. unfold Logits.load_region. rewrite Hr. simpl.
      destruct r. simpl in *. by subst. }
    by rewrite IH.
Qed.

(** X15. A page read from an ALTO document has lines without ids, and so
    cannot be written as PAGE XML or take part in a logits snapshot.  For
    a page that held no region and was filled by [from_altoxml] with at
    least one line: [to_pagexml_string] raises [TypeError] (the id of the
    first line is [None]), [load_logits] raises ["Missing line id None in
    logits <file>."] whatever a snapshot keyed by line-id strings holds,
    and [save_logits] raises ["Missing logits for line None."]; the page
    is as it was after each of the calls. *)
Theorem alto_page_has_no_line_ids (root : Element) (self page : PageLayout.t) :
  from_altoxml_tree root self = (page, Ok ()) ->
  PageLayout.regions self = [] ->
  PageLayout.lines_iterator page <> [] ->
  to_pagexml_string page = (page, Raise TypeError)
  /\ (forall (pickle_load : string -> res (gmap string pickled))
             (file_name : string) (logits_dict : gmap string pickled),
        pickle_load file_name = Ok logits_dict ->
        Logits.load_logits pickle_load file_name page
        = (page, Raise (Logits.MissingLineData None file_name)))
  /\ SaveLogits.save_logits page = Raise (SaveLogits.MissingLogits None).
Proof.
  intros Hread Hnil Hne.
  destruct (from_altoxml_tree_shape root self page Hread Hnil)
    as [[id Hid] Hshape].
  unfold PageLayout.lines_iterator in Hne. split; [|split].
  - unfold to_pagexml_string. rewrite Hid. cbn [mbind res_bind].
    by rewrite pagexml_regions_without_id.
  - intros pickle_load file_name logits_dict Hload.
    unfold Logits.load_logits. rewrite Hload.
    rewrite load_regions_without_id by done. by destruct page.
  - unfold SaveLogits.save_logits, PageLayout.lines_iterator.
    destruct (first_line _ Hne)
      as (empty & region & rest & line & lines & Hregions & Hempty & Hlines).
    rewrite Hregions in Hshape |- *.
    apply Forall_app in Hshape as [_ Hshape].
    apply Forall_cons in Hshape as [[_ Hregion] _].
    rewrite Hlines in Hregion. apply Forall_cons in Hregion as [Hline _].
    rewrite flat_map_app.
    assert (flat_map RegionLayout.lines empty = []) as ->.
    { clear -Hempty. induction Hempty as [|r empty Hr _ IH]; [done|].
      simpl. by rewrite Hr, IH. }
    simpl. rewrite Hlines. simpl.
    destruct Hline as (? & ? & ? & ? & ? & ? & ->). done.
Qed.


(** The page read from the ALTO document of one block and one line. *)
Definition alto_page : PageLayout.t :=
  fst (from_altoxml_tree ReaderClaims.alto_doc PageLayout.new).

Lemma alto_page_has_no_line_ids_witness :
  from_altoxml_tree ReaderClaims.alto_doc PageLayout.new = (alto_page, Ok ())
  /\ to_pagexml_string alto_page = (alto_page, Raise TypeError)
  /\ SaveLogits.save_logits alto_page
     = Raise (Exception "Missing logits for line None.").
Proof.
  assert (H1 : from_altoxml_tree ReaderClaims.alto_doc PageLayout.new
               = (alto_page, Ok ())) by reflexivity.
  assert (H3 : PageLayout.lines_iterator alto_page <> []) by (by vm_compute).
  split; [exact H1|]. split.
  - exact (proj1 (alto_page_has_no_line_ids ReaderClaims.alto_doc
                    PageLayout.new alto_page H1 eq_refl H3)).
  - exact (proj2 (proj2 (alto_page_has_no_line_ids ReaderClaims.alto_doc
                           PageLayout.new alto_page H1 eq_refl H3))).
Defined.

End ReaderMore.

(** ** Writing ALTO from a page that was read from ALTO *)

Module AltoRewrite.
Import ET PyStr AltoRead AltoWrite AltoWriteFacts ReaderMore.
Local Open Scope string_scope.

Section Collaborators.
Context (today : string)
        (force_align : list (list Q) -> list Z -> Z -> res (list Z))
        (get_crop_inputs : option (list point) -> option (list Q) -> Z
                           -> res Project.grid)
        (to_column : nat -> nat -> Z -> Z).

Let line_to_alto := AltoWrite.line_to_alto force_align get_crop_inputs to_column.
Let block_to_alto := AltoWrite.block_to_alto force_align get_crop_inputs to_column.
Let blocks_to_alto :=
  AltoWrite.blocks_to_alto force_align get_crop_inputs to_column.

Lemma alto_line_to_alto (l : TextLine.t) :
  alto_line l ->
  line_to_alto l = if has_text l then Raise TypeError else Ok [].
Proof.
  intros (hpos & baseline & width & height & vpos & tr & ->).
  destruct (has_text _) eqn:Htext.
  - by eapply line_without_characters.
  - by apply line_to_alto_no_text.
Qed.

Lemma alto_lines_to_alto (lines : list TextLine.t) :
  Forall alto_line lines ->
  res_mapM line_to_alto lines
  = if existsb has_text lines then Raise TypeError
    else Ok ((fun _ => []) <$> lines).
Proof.
  induction 1 as [|l lines Hl _ IH]; [done|].
  cbn [res_mapM existsb]. rewrite (alto_line_to_alto l Hl).
  destruct (has_text l); [done|]. cbn [mbind res_bind orb]. rewrite IH.
  by destruct (existsb has_text lines).
Qed.

Lemma alto_block_to_alto (r : RegionLayout.t) (ps : Z * Z * Z * Z) :
  alto_region r ->
  if existsb has_text (RegionLayout.lines r)
  then block_to_alto r ps = Raise TypeError
  else exists el ps', block_to_alto r ps = Ok (el, ps').
Proof.
  intros [(hpos & vpos & width & height & Hpoly) Hlines].
  subst block_to_alto. unfold AltoWrite.block_to_alto.
  rewrite Hpoly. cbn [rectangle column_extent mbind res_bind].
  fold line_to_alto. rewrite (alto_lines_to_alto _ Hlines).
  destruct (existsb has_text _); [done|]. by eexists _, _.
Qed.

Lemma alto_blocks_to_alto (regions : list RegionLayout.t)
    (ps : Z * Z * Z * Z) :
  Forall alto_region regions ->
  if existsb (fun r => existsb has_text (RegionLayout.lines r)) regions
  then blocks_to_alto regions ps = Raise TypeError
  else exists els ps', blocks_to_alto regions ps = Ok (els, ps').
Proof.
  intros Hall. revert ps.
  induction Hall as [|r regions Hr _ IH]; intros ps.
  - by eexists _, _.
  - subst blocks_to_alto. cbn [AltoWrite.blocks_to_alto existsb].
    fold block_to_alto.
    pose proof (alto_block_to_alto r ps Hr) as Hb.
    destruct (existsb has_text (RegionLayout.lines r)).
    + by rewrite Hb.
    + destruct Hb as (el & ps' & ->). cbn [mbind res_bind orb].
      specialize (IH ps').
      destruct (existsb _ regions).
      * by rewrite IH.
      * destruct IH as (els & ps'' & ->). by eexists _, _.
Qed.

End Collaborators.

(** X16. A page read from an ALTO document cannot be written back as ALTO
    once one of its lines has text.  For a page that held no region and
    was filled by [from_altoxml]: when some line has a transcription that
    is not empty, [to_altoxml_string] raises [TypeError] (the line has no
    alphabet, [len(None)]), whatever the aligner and the cropper are; when
    no line has text, it returns a document.  In both cases the page is
    left as it was. *)
Theorem alto_page_is_not_written_as_alto
    (root : Element) (self page : PageLayout.t)
    (today : string)
    (force_align : list (list Q) -> list Z -> Z -> res (list Z))
    (get_crop_inputs : option (list point) -> option (list Q) -> Z
                       -> res Project.grid)
    (to_column : nat -> nat -> Z -> Z) :
  from_altoxml_tree root self = (page, Ok ()) ->
  PageLayout.regions self = [] ->
  ((exists line, line ∈ PageLayout.lines_iterator page
                 /\ has_text line = true) ->
   to_altoxml_string today force_align get_crop_inputs to_column page
   = (page, Raise TypeError))
  /\ ((forall line, line ∈ PageLayout.lines_iterator page ->
                    has_text line = false) ->
      exists tree,
        to_altoxml_string today force_align get_crop_inputs to_column page
        = (page, Ok tree)).
Proof.
  intros Hread Hnil.
  destruct (from_altoxml_tree_shape root self page Hread Hnil)
    as [[id Hid] Hshape].
  pose proof (alto_blocks_to_alto force_align get_crop_inputs to_column
                (PageLayout.regions page)
                (0, 0, fst (PageLayout.page_size page),
                 snd (PageLayout.page_size page))%Z Hshape) as Hblocks.
  unfold to_altoxml_string. rewrite Hid. cbn [mbind res_bind].
  destruct (existsb _ (PageLayout.regions page)) eqn:Hex.
  - split.
    + intros _. by rewrite Hblocks.
    + intros Hnone. exfalso.
      apply existsb_exists in Hex as (r & Hr & Hex).
      apply existsb_exists in Hex as (l & Hl & Htext).
      rewrite Hnone in Htext; [done|].
      unfold PageLayout.lines_iterator.
      apply list_elem_of_In, in_flat_map. by exists r.
  - split.
    + intros (line & Hline & Htext). exfalso.
      unfold PageLayout.lines_iterator in Hline.
      apply list_elem_of_In, in_flat_map in Hline as (r & Hr & Hl).
      assert (existsb (fun r => existsb has_text (RegionLayout.lines r))
                (PageLayout.regions page) = true); [|congruence].
      apply existsb_exists. exists r. split; [done|].
      apply existsb_exists. by exists line.
    + intros _. destruct Hblocks as (els & [[[h w] v] p] & ->).
      cbn [mbind res_bind]. by eexists.
Qed.


Lemma alto_page_is_not_written_as_alto_witness :
  from_altoxml_tree ReaderClaims.alto_doc PageLayout.new = (alto_page, Ok ())
  /\ to_altoxml_string "2020-01-01" (fun _ _ _ => Ok []) (fun _ _ _ => Ok [])
       (fun _ _ c => c) alto_page
     = (alto_page, Raise TypeError).
Proof.
  assert (H1 : from_altoxml_tree ReaderClaims.alto_doc PageLayout.new
               = (alto_page, Ok ())) by reflexivity.
  split; [exact H1|].
  refine (proj1 (alto_page_is_not_written_as_alto ReaderClaims.alto_doc
                   PageLayout.new alto_page "2020-01-01" (fun _ _ _ => Ok [])
                   (fun _ _ _ => Ok []) (fun _ _ c => c) H1 eq_refl) _).
  vm_compute. eexists. split; [left|reflexivity].
Defined.

End AltoRewrite.

(** ** PAGE XML: a second round trip, and a document that cannot be read *)

Module RoundTripMore.
Import ET PyStr PyStrFacts PageXML PageTextFacts Lxml RoundTrip.
Local Open Scope string_scope.

(** The namespace of the documents [to_pagexml_string] writes. *)
Definition written_schema : string := "{" ++ page_namespace ++ "}".

Lemma reparse_written (self : PageLayout.t) (tree : Element) :
  snd (to_pagexml_string self) = Ok tree ->
  reparse tree
  = qualify written_schema (El (tag tree) [] (text tree) (children tree)).
Proof.
  unfold to_pagexml_string. cbn [snd].
  destruct (PageLayout.id self); [|done]. cbn [mbind res_bind].
  destruct (res_mapM _ _); [|done]. cbn [mbind res_bind].
  by intros [= <-].
Qed.

Lemma read_written (self : PageLayout.t) (tree : Element) :
  snd (to_pagexml_string self) = Ok tree ->
  Forall writable_region (PageLayout.regions self) ->
  from_pagexml_tree (reparse tree) PageLayout.new
  = (page_read_back self, Ok ()).
Proof.
  intros Htree Hw. rewrite (reparse_written self tree Htree).
  by apply page_read.
Qed.

(** *** Reading back twice *)

Lemma read_back_1f_is_tenths (q : Q) :
  exists k : Z, read_back_1f q = Qred (Qmake k 10).
Proof.
  unfold read_back_1f.
  set (m := (Z.of_N _ * 10 + Z.of_N _)%Z).
  case_bool_decide; [|by exists m].
  exists (- m)%Z. apply Qred_complete. by rewrite Qred_correct.
Qed.

Lemma read_back_1f_idem (q : Q) :
  read_back_1f (read_back_1f q) = read_back_1f q.
Proof.
  destruct (read_back_1f_is_tenths q) as [k ->]. apply read_back_1f_tenths.
Qed.

Lemma line_read_back_idem (line : TextLine.t) :
  line_read_back (line_read_back line) = line_read_back line.
Proof.
  unfold line_read_back. simpl. f_equal.
  destruct (TextLine.heights line) as [[|h0 [|h1 hs]]|]; simpl; try done.
  by rewrite !read_back_1f_idem.
Qed.

Lemma region_read_back_idem (region : RegionLayout.t) :
  region_read_back (region_read_back region) = region_read_back region.
Proof.
  unfold region_read_back. simpl. f_equal.
  rewrite <- list_fmap_compose. apply list_fmap_ext.
  intros i l _. apply line_read_back_idem.
Qed.

Lemma page_read_back_idem (self : PageLayout.t) :
  page_read_back (page_read_back self) = page_read_back self.
Proof.
  unfold page_read_back. simpl. f_equal.
  rewrite <- list_fmap_compose. apply list_fmap_ext.
  intros i r _. apply region_read_back_idem.
Qed.

(** *** Writing what was read back *)

Lemma line_written_again (line : TextLine.t) (el : Element) :
  line_to_page_xml line = Ok el ->
  exists el', line_to_page_xml (line_read_back line) = Ok el'.
Proof.
  unfold line_to_page_xml, line_read_back. simpl.
  destruct (TextLine.id line); [|done]. cbn [mbind res_bind].
  destruct (TextLine.heights line) as [[|h0 [|h1 hs]]|]; simpl; try done;
    intros _; by eexists.
Qed.

Lemma lines_written_again (lines : list TextLine.t) (els : list Element) :
  res_mapM line_to_page_xml lines = Ok els ->
  exists els', res_mapM line_to_page_xml (line_read_back <$> lines) = Ok els'.
Proof.
  revert els. induction lines as [|l lines IH]; intros els; [by eexists|].
  rewrite fmap_cons. cbn [res_mapM].
  destruct (line_to_page_xml l) as [el|] eqn:Hl; [|done]. cbn [mbind res_bind].
  destruct (res_mapM line_to_page_xml lines) as [els0|]; [|done].
  intros _. destruct (line_written_again l el Hl) as [el' ->].
  destruct (IH els0 eq_refl) as [els' ->]. by eexists.
Qed.

Lemma regions_written_again (regions : list RegionLayout.t)
    (els : list Element) :
  res_mapM region_to_page_xml regions = Ok els ->
  exists els',
    res_mapM region_to_page_xml (region_read_back <$> regions) = Ok els'.
Proof.
  revert els. induction regions as [|r regions IH]; intros els; [by eexists|].
  rewrite fmap_cons. cbn [res_mapM].
  destruct (region_to_page_xml r) as [el|] eqn:Hr; [|done].
  cbn [mbind res_bind].
  destruct (res_mapM region_to_page_xml regions) as [els0|]; [|done].
  intros _. destruct (IH els0 eq_refl) as [els' ->].
  unfold region_to_page_xml in Hr |- *.
  destruct (res_mapM line_to_page_xml (RegionLayout.lines r)) as [ls|] eqn:Hls;
    [|done].
  simpl. destruct (lines_written_again _ _ Hls) as [ls' ->]. by eexists.
Qed.

Lemma read_back_writable (region : RegionLayout.t) :
  writable_region region ->
  Forall (fun l => TextLine.polygon l <> None) (RegionLayout.lines region) ->
  writable_region (region_read_back region).
Proof.
  intros [Hp Hw] Hpoly. split; [done|]. simpl.
  apply Forall_fmap, Forall_forall. intros l Hl.
  pose proof (proj1 (Forall_forall _ _) Hw l Hl) as [Hb Hq].
  pose proof (proj1 (Forall_forall _ _) Hpoly l Hl) as Hn.
  split; [done|]. simpl in *.
  destruct (TextLine.polygon l) as [[|pt pts]|]; simpl; congruence.
Qed.

(** X17. The PAGE round trip settles after one cycle.  Let a page be
    written by [to_pagexml_string], with polygons and baselines that are
    not empty and a polygon on every line.  The page that [from_pagexml]
    reads from the written document can itself be written, and reading
    what was written for it gives the very same page: a second cycle of
    writing and reading changes nothing, heights included. *)
Theorem pagexml_roundtrip_is_stable (self : PageLayout.t) (tree : Element) :
  snd (to_pagexml_string self) = Ok tree ->
  Forall writable_region (PageLayout.regions self) ->
  Forall (fun l => TextLine.polygon l <> None)
         (PageLayout.lines_iterator self) ->
  exists (page : PageLayout.t) (tree' : Element),
    from_pagexml_tree (reparse tree) PageLayout.new = (page, Ok ())
    /\ to_pagexml_string page = (page, Ok tree')
    /\ from_pagexml_tree (reparse tree') PageLayout.new = (page, Ok ()).
Proof.
  intros Htree Hw Hpoly.
  assert (Hagain : exists tree',
            to_pagexml_string (page_read_back self)
            = (page_read_back self, Ok tree')).
  { unfold to_pagexml_string in Htree |- *. cbn [snd] in Htree.
    cbn [page_read_back PageLayout.id PageLayout.regions].
    destruct (PageLayout.id self); [|done]. cbn [mbind res_bind] in Htree |- *.
    destruct (res_mapM region_to_page_xml (PageLayout.regions self))
      as [els|] eqn:Hels; [|done].
    destruct (regions_written_again _ _ Hels) as [els' ->].
    by eexists. }
  destruct Hagain as [tree' Htree'].
  exists (page_read_back self), tree'.
  split; [by apply read_written|]. split; [done|].
  rewrite (read_written (page_read_back self) tree').
  - by rewrite page_read_back_idem.
  - by rewrite Htree'.
  - cbn [page_read_back PageLayout.regions].
    apply Forall_fmap, Forall_forall. intros r Hr.
    apply read_back_writable; [by eapply Forall_forall|].
    apply Forall_forall. intros l Hl.
    apply (proj1 (Forall_forall _ _) Hpoly).
    unfold PageLayout.lines_iterator.
    apply list_elem_of_In, in_flat_map. exists r.
    split; by apply list_elem_of_In.
Qed.

Lemma pagexml_roundtrip_is_stable_witness :
  snd (to_pagexml_string (RoundTripClaims.read RoundTripClaims.page_doc))
  = Ok (RoundTripClaims.written (RoundTripClaims.read RoundTripClaims.page_doc))
  /\ exists (page : PageLayout.t) (tree' : Element),
       from_pagexml_tree
         (reparse (RoundTripClaims.written
                     (RoundTripClaims.read RoundTripClaims.page_doc)))
         PageLayout.new = (page, Ok ())
       /\ to_pagexml_string page = (page, Ok tree')
       /\ from_pagexml_tree (reparse tree') PageLayout.new = (page, Ok ()).
Proof.
  assert (Hw : Forall writable_region
                 (PageLayout.regions
                    (RoundTripClaims.read RoundTripClaims.page_doc))).
  { repeat constructor; by vm_compute. }
  assert (Hp : Forall (fun l => TextLine.polygon l <> None)
                 (PageLayout.lines_iterator
                    (RoundTripClaims.read RoundTripClaims.page_doc))).
  { repeat constructor; by vm_compute. }
  split; [by vm_compute|].
  exact (pagexml_roundtrip_is_stable
           (RoundTripClaims.read RoundTripClaims.page_doc)
           (RoundTripClaims.written
              (RoundTripClaims.read RoundTripClaims.page_doc))
           eq_refl Hw Hp).
Defined.

(** *** A region without points *)

Section Regions.
Context (schema : string).

Lemma region_written_iter (region : RegionLayout.t) (el : Element) :
  region_to_page_xml region = Ok el ->
  iter (schema ++ "TextRegion") (qualify schema el) = [qualify schema el].
Proof.
  unfold region_to_page_xml, text_equiv.
  destruct (res_mapM line_to_page_xml (RegionLayout.lines region))
    as [els|] eqn:Hels; [|done].
  cbn [mbind res_bind]. intros [= <-].
  apply ReaderFacts.res_mapM_ok in Hels.
  pose proof (iter_lines schema "TextRegion" _ els Hels
                (iter_line_TextRegion schema)) as Hnone.
  destruct (RegionLayout.transcription region) as [tr|];
    rewrite !qualify_El, !iter_El, !fmap_cons;
    try rewrite fmap_app; rewrite ?fmap_cons, ?fmap_nil;
    cbn [app flat_map]; rewrite ?flat_map_app; xml_norm;
    rewrite ?Hnone, ?app_nil_r; reflexivity.
Qed.

Lemma region_without_points (region : RegionLayout.t) (el : Element) :
  region_to_page_xml region = Ok el ->
  RegionLayout.polygon region = [] ->
  region_from_page_xml (qualify schema el) schema = Raise ValueError.
Proof.
  unfold region_to_page_xml, text_equiv.
  destruct (res_mapM line_to_page_xml (RegionLayout.lines region))
    as [els|]; [|done].
  cbn [mbind res_bind]. intros [= <-] ->.
  unfold region_from_page_xml, get_region_from_page_xml.
  rewrite qualify_El, fmap_cons. xml_norm. reflexivity.
Qed.

End Regions.

Lemma append_regions_stops read good regions bad rest err self :
  Forall2 (fun e r => read e = Ok r) good regions ->
  read bad = Raise err ->
  append_regions read (good ++ bad :: rest)%list self
  = (PageLayout.Make (PageLayout.id self) (PageLayout.page_size self)
       (PageLayout.regions self ++ regions), Raise err).
Proof.
  intros Hall Hbad. revert self.
  induction Hall as [|e r good regions He _ IH]; intros self; simpl.
  - rewrite Hbad, app_nil_r. by destruct self.
  - rewrite He, IH. simpl. by rewrite <- app_assoc.
Qed.

(** X18. A region without points is written, and the document cannot be
    read.  When the first region of a page whose polygon is empty comes
    after regions that can be written and read, [to_pagexml_string] still
    produces a document (the region gets [points=""]), but [from_pagexml]
    raises [ValueError] on that document, at that region: the page it was
    reading into is left with the id and the size of the document and with
    the regions before the one it could not read. *)
Theorem empty_region_polygon_is_not_read_back
    (self : PageLayout.t) (tree : Element)
    (good rest : list RegionLayout.t) (bad : RegionLayout.t) :
  snd (to_pagexml_string self) = Ok tree ->
  PageLayout.regions self = (good ++ bad :: rest)%list ->
  Forall writable_region good ->
  RegionLayout.polygon bad = [] ->
  from_pagexml_tree (reparse tree) PageLayout.new
  = (PageLayout.Make (PageLayout.id self) (PageLayout.page_size self)
       (region_read_back <$> good), Raise ValueError).
Proof.
  intros Htree Hregions Hgood Hbad.
  rewrite (reparse_written self tree Htree).
  unfold to_pagexml_string in Htree. cbn [snd] in Htree.
  destruct self as [id page_size regions].
  cbn [PageLayout.id PageLayout.page_size PageLayout.regions] in *.
  destruct id as [id|]; [|done]. cbn [mbind res_bind] in Htree.
  destruct (res_mapM region_to_page_xml regions) as [els|] eqn:Hels; [|done].
  cbn [mbind res_bind] in Htree. injection Htree as <-.
  apply ReaderFacts.res_mapM_ok in Hels. subst regions.
  apply Forall2_app_inv_l in Hels as (els1 & els2 & Hels1 & Hels2 & ->).
  apply Forall2_cons_inv_l in Hels2 as (el & els3 & Hel & Hels3 & ->).
  set (schema := written_schema).
  assert (Hiter : forall regions els,
            Forall2 (fun region el => region_to_page_xml region = Ok el)
                    regions els ->
            flat_map (iter (schema ++ "TextRegion")) (qualify schema <$> els)
            = qualify schema <$> els).
  { intros regions els Hall.
    induction Hall as [|r e regions els He _ IH]; [done|].
    rewrite fmap_cons. cbn [flat_map].
    by rewrite (region_written_iter schema r e He), IH. }
  destruct (regions_read schema good els1 Hels1 Hgood) as [Hread _].
  unfold from_pagexml_tree. cbn [tag text children].
  rewrite !qualify_El.
  assert (element_schema
            (El (schema ++ "PcGts") [] None
                (qualify schema
                 <$> [El "Page"
                        [("imageFilename", id);
                         ("imageWidth", str_Z (snd page_size));
                         ("imageHeight", str_Z (fst page_size))] None
                        (els1 ++ el :: els3)]))
          = Ok schema) as -> by reflexivity.
  xml_norm. rewrite !py_int_str_Z. xml_norm.
  rewrite (Hiter (good ++ bad :: rest)%list (els1 ++ el :: els3)%list),
    app_nil_r.
  2:{ apply Forall2_app; [done|]. by constructor. }
  rewrite fmap_app, fmap_cons.
  rewrite (append_regions_stops _ _ _ _ _ ValueError _ Hread).
  - cbn [PageLayout.id PageLayout.page_size PageLayout.regions app].
    by destruct page_size.
  - by apply (region_without_points schema bad el).
Qed.


(** A page whose only region has no points. *)
Definition page_without_points : PageLayout.t :=
  PageLayout.Make (Some "page.jpg") (200, 300)%Z
    [RegionLayout.Make "r1" [] [] None].

Lemma empty_region_polygon_is_not_read_back_witness :
  snd (to_pagexml_string page_without_points)
  = Ok (RoundTripClaims.written page_without_points)
  /\ from_pagexml_tree
       (reparse (RoundTripClaims.written page_without_points)) PageLayout.new
     = (PageLayout.Make (Some "page.jpg") (200, 300)%Z [], Raise ValueError).
Proof.
  split; [reflexivity|].
  exact (empty_region_polygon_is_not_read_back page_without_points
           (RoundTripClaims.written page_without_points)
           [] [] (RegionLayout.Make "r1" [] [] None)
           eq_refl eq_refl (Forall_nil_2 _) eq_refl).
Defined.

End RoundTripMore.

(** ** ALTO: what is read back from a written document *)

Module AltoRoundTrip.
Import ET PyStr PyStrFacts AltoRead AltoWrite AltoWriteFacts Lxml RoundTrip.
Local Open Scope string_scope.

(** The namespace of the documents [to_altoxml_string] writes. *)
Definition written_schema : string :=
  "{" ++ "http://www.loc.gov/standards/alto/ns-v2#" ++ "}".



(** *** The words of a line *)






Section Schema.
Context (schema : string)
        (force_align : list (list Q) -> list Z -> Z -> res (list Z))
        (get_crop_inputs : option (list point) -> option (list Q) -> Z
                           -> res Project.grid)
        (to_column : nat -> nat -> Z -> Z).


(** *** A line *)

Abbreviation line_to_alto :=
  (AltoWrite.line_to_alto force_align get_crop_inputs to_column).
Abbreviation block_to_alto :=
  (AltoWrite.block_to_alto force_align get_crop_inputs to_column).
Abbreviation blocks_to_alto :=
  (AltoWrite.blocks_to_alto force_align get_crop_inputs to_column).


(** *** The lines of a block *)


(** *** A block and the blocks of a page *)



End Schema.



(** A page with one line, the word ["hi"] on the four frames
    [blank, h, i, blank], and a crop grid of one row and 16 columns. *)
Definition line_hi_4 : TextLine.t :=
  TextLine.Make (Some "l1") (Some [(0, 5); (15, 5)]%Z)
    (Some [(0, 0); (15, 0); (15, 10); (0, 10)]%Z)
    (Some [inject_Z 5; inject_Z 5]) (Some "hi")
    (Some (Matrix [[0%Q; 0%Q]])) (Some ["h"; "i"]%char).


Definition grid_1x16 : Project.grid :=
  [(fun i => (inject_Z (Z.of_nat i), 0%Q)) <$> seq 0 16].




End AltoRoundTrip.

(** ** Writing a page that was read from PAGE XML *)

Module PageRewrite.
Import ET PyStr PageXML ReaderFacts ReaderMore.
Local Open Scope string_scope.














End PageRewrite.

(** ** The children of a written ALTO line *)

Module AltoLineFacts.
Import ET PyStr AltoWrite AltoWriteFacts.
Local Open Scope string_scope.

(** The tags and the [CONTENT] of the elements of a line with the given
    words: a [String] per word and an [SP] between two of them. *)
Fixpoint strings_and_spaces (words : list string)
    : list (string * option string) :=
  match words with
  | [] => []
  | [word] => [("String", Some word)]
  | word :: rest =>
      ("String", Some word) :: ("SP", None) :: strings_and_spaces rest
  end.

Section Collaborators.
Context (force_align : list (list Q) -> list Z -> Z -> res (list Z))
        (get_crop_inputs : option (list point) -> option (list Q) -> Z
                           -> res Project.grid)
        (to_column : nat -> nat -> Z -> Z).

Lemma words_to_alto_children aligned blank line_coords nwords w g words els :
  (w + length words = nwords)%nat ->
  words_to_alto to_column aligned blank line_coords nwords w g words = Ok els ->
  (fun e => (tag e, get e "CONTENT")) <$> els = strings_and_spaces words.
Proof.
  revert w g els. induction words as [|word words IH]; intros w g els Hw.
  - by intros [= <-].
  - cbn [words_to_alto].
    destruct (bool_decide (length aligned = 0%nat)); [done|].
    destruct (Project.string_box _ _ _) as [b|]; [|done].
    cbn [mbind res_bind].
    case_bool_decide as Hlast.
    + cbn [mbind res_bind].
      destruct (words_to_alto _ _ _ _ _ _ _ words) as [more|] eqn:Hmore;
        [|done].
      cbn [mbind res_bind app]. intros [= <-].
      destruct words as [|word' words]; [|simpl in Hw; lia].
      injection Hmore as <-. done.
    + destruct (Project.space_box _ _ _) as [[[sw sv] sh]|]; [|done].
      cbn [mbind res_bind].
      destruct (words_to_alto _ _ _ _ _ _ _ words) as [more|] eqn:Hmore;
        [|done].
      cbn [mbind res_bind app]. intros [= <-].
      destruct words as [|word' words]; [simpl in Hw; lia|].
      rewrite !fmap_cons.
      rewrite (IH (S w) _ more) by (done || (simpl in *; lia)).
      done.
Qed.

(** X21. The children of a written line.  When [to_altoxml_string] writes
    a line, the [TextLine] element holds one [String] element per word of
    the transcription, in order and with the word as [CONTENT], and one
    [SP] element between two consecutive words: none before the first
    word and none after the last.  A transcription of white space only
    gives a [TextLine] without children. *)
Theorem line_children_alternate (line : TextLine.t) (els : list Element) :
  has_text line = true ->
  line_to_alto force_align get_crop_inputs to_column line = Ok els ->
  exists el,
    els = [el]
    /\ tag el = "TextLine"
    /\ (fun e => (tag e, get e "CONTENT")) <$> children el
       = strings_and_spaces
           (split_ws (default "" (TextLine.transcription line))).
Proof.
  unfold AltoWrite.line_to_alto, has_text.
  destruct (TextLine.transcription line) as [[|c t]|]; [done| |done].
  intros _.
  repeat (match goal with
          | |- (?m ≫= _) = Ok _ -> _ =>
              destruct m as [?|] eqn:?; [cbn [mbind res_bind]|done]
          | |- (let '(_, _) := ?p in _) = Ok _ -> _ => destruct p
          end).
  intros [= <-]. eexists. split; [done|]. split; [done|].
  cbn [children default].
  match goal with
  | H : words_to_alto _ _ _ _ _ _ _ _ = Ok _ |- _ =>
      apply words_to_alto_children in H; [done|simpl; lia]
  end.
Qed.

(** X22. An empty alignment.  When everything a line with at least one
    word needs is there, but the aligner returns a path without frames,
    writing the line raises [ZeroDivisionError] (the scale
    [width / (len(aligned) * 4)]), before any box is projected. *)
Theorem empty_alignment_divides_by_zero (line : TextLine.t)
    (y : Z) (ys xs : Z * Z) (characters : list ascii) (label : list Z)
    (logits : list (list Q)) (line_coords : Project.grid) :
  has_text line = true ->
  split_ws (default "" (TextLine.transcription line)) <> [] ->
  average_y (TextLine.baseline line) = Ok y ->
  column_extent snd (TextLine.polygon line) = Ok ys ->
  column_extent fst (TextLine.polygon line) = Ok xs ->
  TextLine.characters line = Some characters ->
  label_of characters (default "" (TextLine.transcription line)) = Ok label ->
  get_dense_logits line (-80 # 1) = Ok logits ->
  force_align logits label (Z.of_nat (length characters)) = Ok [] ->
  get_crop_inputs (TextLine.baseline line) (TextLine.heights line) 16
  = Ok line_coords ->
  line_to_alto force_align get_crop_inputs to_column line
  = Raise ZeroDivisionError.
Proof.
  unfold AltoWrite.line_to_alto, has_text.
  destruct (TextLine.transcription line) as [[|c t]|]; [done| |done].
  cbn [default from_option id]. intros _ Hwords -> -> -> -> Hl Hd Hf Hc.
  destruct ys, xs. cbn [mbind res_bind].
  rewrite Hl. cbn [mbind res_bind]. rewrite Hd. cbn [mbind res_bind].
  rewrite Hf. cbn [mbind res_bind]. rewrite Hc. cbn [mbind res_bind].
  destruct (split_ws (String c t)) as [|word words]; [done|].
  done.
Qed.

End Collaborators.

(** The line ["hi hi"] on the eight frames
    [blank, h, blank, i, blank, space, h, i] (alphabet [h, i, space]) with
    a crop grid of one row and 32 columns. *)
Definition line_hi_hi : TextLine.t :=
  TextLine.Make (Some "l1") (Some [(0, 5); (31, 5)]%Z)
    (Some [(0, 0); (31, 0); (31, 10); (0, 10)]%Z)
    (Some [inject_Z 5; inject_Z 5]) (Some "hi hi")
    (Some (Matrix [[0%Q; 0%Q; 0%Q]])) (Some ["h"; "i"; " "]%char).

Definition written_hi_hi : res (list Element) :=
  line_to_alto (fun _ _ _ => Ok [3; 0; 3; 1; 3; 2; 0; 1]%Z)
    (fun _ _ _ => Ok ProjectClaims.grid_1x32)
    (fun width frames c => Z.quot (c * Z.of_nat width) (4 * Z.of_nat frames))
    line_hi_hi.

Lemma line_children_alternate_witness :
  has_text line_hi_hi = true
  /\ exists el,
       written_hi_hi = Ok [el]
       /\ tag el = "TextLine"
       /\ (fun e => (tag e, get e "CONTENT")) <$> children el
          = [("String", Some "hi"); ("SP", None); ("String", Some "hi")].
Proof.
  assert (H : written_hi_hi
              = Ok match written_hi_hi with Ok els => els | Raise _ => [] end)
    by (by vm_compute).
  split; [reflexivity|].
  destruct (line_children_alternate
              (fun _ _ _ => Ok [3; 0; 3; 1; 3; 2; 0; 1]%Z)
              (fun _ _ _ => Ok ProjectClaims.grid_1x32)
              (fun width frames c =>
                 Z.quot (c * Z.of_nat width) (4 * Z.of_nat frames))
              line_hi_hi _ eq_refl H) as (el & Hel & Htag & Hch).
  exists el. split; [exact (eq_trans H (f_equal Ok Hel))|].
  split; [exact Htag|exact Hch].
Defined.

Lemma empty_alignment_divides_by_zero_witness :
  line_to_alto (fun _ _ _ => Ok []) (fun _ _ _ => Ok AltoRoundTrip.grid_1x16)
    (fun _ _ c => c) AltoRoundTrip.line_hi_4
  = Raise ZeroDivisionError.
Proof.
  exact (empty_alignment_divides_by_zero
           (fun _ _ _ => Ok []) (fun _ _ _ => Ok AltoRoundTrip.grid_1x16)
           (fun _ _ c => c) AltoRoundTrip.line_hi_4
           5%Z (0, 10)%Z (0, 15)%Z ["h"; "i"]%char [0; 1]%Z
           [[(-80 # 1)%Q; (-80 # 1)%Q]] AltoRoundTrip.grid_1x16
           eq_refl ltac:(by vm_compute) eq_refl eq_refl eq_refl eq_refl
           eq_refl eq_refl eq_refl eq_refl).
Defined.

End AltoLineFacts.

(** ** The logits snapshot: loading twice, and ids shared by lines *)

Module SnapshotMore.
Import Logits LogitsFacts SaveLogits SnapshotFacts.
Local Open Scope string_scope.

(** *** Loading twice *)

(** A step that, run again on the element it produced, produces the same
    element and the same outcome. *)
Definition settles {A} (f : A -> A * res unit) : Prop :=
  forall a, f (fst (f a)) = f a.

Lemma update_each_again {A} (f : A -> A * res unit) (l : list A) :
  settles f -> update_each f (fst (update_each f l)) = update_each f l.
Proof.
  intros Hf. induction l as [|a rest IH]; [done|].
  cbn [update_each]. pose proof (Hf a) as Ha.
  destruct (f a) as [a' [[]|err]] eqn:Hfa; cbn [fst] in Ha.
  - destruct (update_each f rest) as [rest' r] eqn:Hrest.
    cbn [fst update_each] in *. rewrite Ha, IH. done.
  - cbn [fst update_each]. by rewrite Ha.
Qed.

Lemma load_line_settles logits_dict characters file_name :
  settles (load_line logits_dict characters file_name).
Proof.
  intros line. destruct (load_line _ _ _ line) as [l' r] eqn:H. cbn [fst].
  unfold load_line in H |- *.
  destruct (TextLine.id line) as [id|] eqn:Hid.
  2:{ injection H as <- <-. by rewrite Hid. }
  destruct (entry logits_dict (Some id)) as [v|] eqn:Hv.
  2:{ injection H as <- <-. by rewrite Hid, Hv. }
  destruct (characters_at characters id) as [c|err] eqn:Hc;
    injection H as <- <-;
    cbn [TextLine.set_logits TextLine.id TextLine.characters];
    by rewrite Hid, Hv, Hc.
Qed.

Lemma load_region_settles logits_dict characters file_name :
  settles (load_region logits_dict characters file_name).
Proof.
  intros region. unfold load_region.
  pose proof (update_each_again _ (RegionLayout.lines region)
                (load_line_settles logits_dict characters file_name)) as H.
  destruct (update_each _ (RegionLayout.lines region)) as [lines r].
  cbn [fst RegionLayout.lines RegionLayout.id RegionLayout.polygon
       RegionLayout.transcription] in *.
  by rewrite H.
Qed.

(** X23. [load_logits] is idempotent, failures included: a second call
    with the same file (whose content has not changed) leaves the page as
    the first call left it and ends in the same way, with the same
    exception if the first call raised. *)
Theorem load_logits_idempotent
    (pickle_load : string -> res (gmap string pickled)) (file_name : string)
    (self : PageLayout.t) :
  load_logits pickle_load file_name
    (fst (load_logits pickle_load file_name self))
  = load_logits pickle_load file_name self.
Proof.
  unfold load_logits.
  destruct (pickle_load file_name) as [logits_dict|err]; [|done].
  pose proof (update_each_again _ (PageLayout.regions self)
                (load_region_settles logits_dict (characters_of logits_dict)
                   file_name)) as H.
  destruct (update_each _ (PageLayout.regions self)) as [regions r].
  cbn [fst PageLayout.regions PageLayout.id PageLayout.page_size] in *.
  by rewrite H.
Qed.

(** *** Ids shared by lines *)

Lemma res_mapM_app_inv {A B} (f : A -> res B) (l1 l2 : list A) (bs : list B) :
  res_mapM f (l1 ++ l2)%list = Ok bs ->
  exists bs1 bs2,
    bs = (bs1 ++ bs2)%list
    /\ res_mapM f l1 = Ok bs1 /\ res_mapM f l2 = Ok bs2.
Proof.
  revert bs. induction l1 as [|a l1 IH]; intros bs; cbn [app res_mapM].
  - intros H. by exists [], bs.
  - destruct (f a) as [b|]; [|done]. cbn [mbind res_bind].
    destruct (res_mapM f (l1 ++ l2)%list) as [bs'|] eqn:Hrest; [|done].
    cbn [mbind res_bind]. intros [= <-].
    destruct (IH bs' eq_refl) as (bs1 & bs2 & -> & -> & ->).
    by exists (b :: bs1), bs2.
Qed.

Lemma dict_last {V} (before after : list (string * V)) (k : string) (v : V) :
  k ∉ fst <$> after ->
  dict (before ++ (k, v) :: after)%list !! k = Some v.
Proof.
  intros Hk. unfold dict. rewrite foldl_app. cbn [foldl fst snd].
  rewrite foldl_insert_other by done. by rewrite lookup_insert_eq.
Qed.

Lemma pairs_keys {V} (pair : TextLine.t -> res (string * V))
    (lines : list TextLine.t) (pairs : list (string * V)) (k : string) :
  (forall l p, pair l = Ok p -> TextLine.id l = Some (fst p)) ->
  res_mapM pair lines = Ok pairs ->
  Forall (fun l => TextLine.id l <> Some k) lines ->
  k ∉ fst <$> pairs.
Proof.
  intros Hpair Hpairs Hlines. apply ReaderFacts.res_mapM_ok in Hpairs.
  induction Hpairs as [|l p lines pairs Hp _ IH]; [apply not_elem_of_nil|].
  apply Forall_cons in Hlines as [Hl Hlines]. rewrite fmap_cons.
  apply not_elem_of_cons. split; [|by apply IH].
  intros ->. apply Hl. by apply Hpair.
Qed.

(** X24. When several lines share an id, the snapshot keeps the last one.
    In the dictionary [save_logits] builds, the entry of a line id (other
    than the reserved key [line_characters]) is the matrix of the last
    line of the page with that id, and the alphabet stored for the id is
    the alphabet of that line: the matrices of earlier lines with the same
    id are not stored. *)
Theorem save_logits_keeps_last_line (self : PageLayout.t)
    (d : gmap string pickled) (before after : list TextLine.t)
    (line : TextLine.t) (k : string) :
  save_logits self = Ok d ->
  PageLayout.lines_iterator self = (before ++ line :: after)%list ->
  TextLine.id line = Some k ->
  k <> "line_characters" ->
  Forall (fun l => TextLine.id l <> Some k) after ->
  d !! k = TextLine.logits line
  /\ exists alphabets,
       d !! "line_characters" = Some (LineCharacters alphabets)
       /\ alphabets !! k = Some (TextLine.characters line).
Proof.
  unfold save_logits. intros Hsave Hlines Hid Hk Hafter.
  rewrite Hlines in Hsave.
  destruct (res_mapM check_line _) as [checked|]; [|done].
  cbn [mbind res_bind] in Hsave.
  destruct (res_mapM logits_pair _) as [lp|] eqn:Hlp; [|done].
  cbn [mbind res_bind] in Hsave.
  destruct (res_mapM characters_pair _) as [cp|] eqn:Hcp; [|done].
  cbn [mbind res_bind] in Hsave. injection Hsave as <-.
  apply res_mapM_app_inv in Hlp as (lp1 & lp2 & -> & _ & Hlp2).
  apply res_mapM_app_inv in Hcp as (cp1 & cp2 & -> & _ & Hcp2).
  cbn [res_mapM] in Hlp2, Hcp2.
  destruct (logits_pair line) as [[k1 v1]|] eqn:Hp1; [|done].
  destruct (characters_pair line) as [[k2 c2]|] eqn:Hp2; [|done].
  unfold logits_pair in Hp1. unfold characters_pair in Hp2.
  rewrite Hid in Hp1, Hp2.
  destruct (TextLine.logits line) as [v|]; [|done].
  injection Hp1 as <- <-. injection Hp2 as <- <-.
  cbn [mbind res_bind] in Hlp2, Hcp2.
  destruct (res_mapM logits_pair after) as [lpa|] eqn:Hlpa; [|done].
  destruct (res_mapM characters_pair after) as [cpa|] eqn:Hcpa; [|done].
  cbn [mbind res_bind] in Hlp2, Hcp2.
  injection Hlp2 as <-. injection Hcp2 as <-.
  split.
  - rewrite lookup_insert_ne by done. apply dict_last.
    apply (pairs_keys logits_pair after); [|done|done].
    intros l p. unfold logits_pair.
    destruct (TextLine.id l); [|done]. destruct (TextLine.logits l); [|done].
    by intros [= <-].
  - eexists. split; [by rewrite lookup_insert_eq|]. apply dict_last.
    apply (pairs_keys characters_pair after); [|done|done].
    intros l p. unfold characters_pair.
    destruct (TextLine.id l); [|done]. by intros [= <-].
Qed.

Lemma save_logits_keeps_last_line_witness :
  save_logits
    (page_of [TextLine.set_logits (Some (Matrix [[1%Q]])) (Some ["a"]%char)
                (TextLine.new (Some "l1"));
              TextLine.set_logits (Some (Matrix [[2%Q]])) (Some ["b"]%char)
                (TextLine.new (Some "l1"))])
  = Ok (<["line_characters" :=
            LineCharacters (dict [("l1", Some ["a"]%char);
                                  ("l1", Some ["b"]%char)])]>
          (dict [("l1", Matrix [[1%Q]]); ("l1", Matrix [[2%Q]])]))
  /\ (<["line_characters" :=
          LineCharacters (dict [("l1", Some ["a"]%char);
                                ("l1", Some ["b"]%char)])]>
        (dict [("l1", Matrix [[1%Q]]); ("l1", Matrix [[2%Q]])])) !! "l1"
     = Some (Matrix [[2%Q]]).
Proof.
  split; [reflexivity|].
  refine (proj1 (save_logits_keeps_last_line
                   (page_of
                      [TextLine.set_logits (Some (Matrix [[1%Q]]))
                         (Some ["a"]%char) (TextLine.new (Some "l1"));
                       TextLine.set_logits (Some (Matrix [[2%Q]]))
                         (Some ["b"]%char) (TextLine.new (Some "l1"))])
                   _
                   [TextLine.set_logits (Some (Matrix [[1%Q]]))
                      (Some ["a"]%char) (TextLine.new (Some "l1"))]
                   []
                   (TextLine.set_logits (Some (Matrix [[2%Q]]))
                      (Some ["b"]%char) (TextLine.new (Some "l1")))
                   "l1" eq_refl eq_refl eq_refl _ (Forall_nil_2 _))).
  discriminate.
Defined.

End SnapshotMore.

(** ** Nested regions in a PAGE document *)

Module NestedRegions.
Import ET PyStr PageXML ReaderFacts.
Local Open Scope string_scope.











End NestedRegions.
